(** * RobotCode: diagnostics analyzer, run-keyword state machine,
      suppression scanner and definition resolver

    A shallow embedding of

    - [robotcode/language_server/common/lsp_types.py]
      ([Position], [Range], [Diagnostic], [LocationLink]),
    - [robotcode/language_server/robotframework/diagnostics/analyzer.py]
      ([Analyzer]),
    - [robotcode/robotframework/parts/definition.py]
      ([RobotDefinitionProtocolPart]),

    followed by the properties of these functions.

    Conventions.  Python [int] is [Z]; [str] is [string], a character being
    a code point below 256; [Optional[T]] is [option T]; a [List] is a
    [list].  Coroutines are run to completion, so [await f(x)] is a call.
    Methods of [Analyzer] are computations in the monad [M], which threads
    the fields of [self] and records how the call ended: by returning, or by
    raising. *)

From Stdlib Require Import ZArith List String Ascii Bool Arith Lia.
Import ListNotations.

Local Open Scope string_scope.
Local Open Scope list_scope.

(* ================================================================== *)
(** ** lsp_types.py                                                    *)
(* ================================================================== *)

Record Position := mkPosition { line : Z; character : Z }.

Record Range := mkRange { start : Position; end_ : Position }.

Definition Position__ge__ (self other : Position) : bool :=
  let line_gt := (line self >? line other)%Z in
  if line_gt then true
  else if (line self =? line other)%Z
       then (character self >=? character other)%Z
       else false.

Definition Position__gt__ (self other : Position) : bool :=
  let line_gt := (line self >? line other)%Z in
  if line_gt then true
  else if (line self =? line other)%Z
       then (character self >? character other)%Z
       else false.

Definition Position__le__ (self other : Position) : bool :=
  let line_lt := (line self <? line other)%Z in
  if line_lt then true
  else if (line self =? line other)%Z
       then (character self <=? character other)%Z
       else false.

Definition Position__lt__ (self other : Position) : bool :=
  let line_lt := (line self <? line other)%Z in
  if line_lt then true
  else if (line self =? line other)%Z
       then (character self <? character other)%Z
       else false.

(** The dataclass-generated [__eq__]: field-wise equality. *)
Definition Position__eq__ (self other : Position) : bool :=
  ((line self =? line other) && (character self =? character other))%Z.

(** [range.start <= self <= range.end] is the chained comparison
    [(range.start <= self) and (self <= range.end)]. *)
Definition Position_is_in_range (self : Position) (range : Range)
    (include_end : bool) : bool :=
  if include_end
  then Position__le__ (start range) self && Position__le__ self (end_ range)
  else Position__le__ (start range) self && Position__lt__ self (end_ range).

Definition Range_zero : Range :=
  mkRange (mkPosition 0 0) (mkPosition 0 0).

Definition Range_invalid : Range :=
  mkRange (mkPosition (-1) (-1)) (mkPosition (-1) (-1)).

Definition Range_is_in_range (self range : Range) : bool :=
  Position_is_in_range (start self) range true
  && Position_is_in_range (end_ self) range true.

Inductive DiagnosticSeverity := ERROR | WARNING | INFORMATION | HINT.

Inductive DiagnosticTag := Unnecessary | Deprecated.

Record CodeDescription := mkCodeDescription { href : string }.

Record Location := mkLocation { uri : string; location_range : Range }.

Record DiagnosticRelatedInformation := mkDiagnosticRelatedInformation {
  location : Location;
  related_message : string
}.

(** [code] is [Union[int, str, None]]; the analyzer only ever passes a
    string or nothing.  [data] is [Optional[Any]] and is never set. *)
Record Diagnostic := mkDiagnostic {
  range : Range;
  message : string;
  severity : option DiagnosticSeverity;
  code : option string;
  code_description : option CodeDescription;
  source : option string;
  tags : option (list DiagnosticTag);
  related_information : option (list DiagnosticRelatedInformation);
  data : option string
}.

Record LocationLink := mkLocationLink {
  origin_selection_range : option Range;
  target_uri : string;
  target_range : Range;
  target_selection_range : Range
}.

(* ================================================================== *)
(** ** Exceptions and the analyzer monad                               *)
(* ================================================================== *)

(** A raised exception.  The three classes that the analyzer re-raises
    are kept apart; any other exception is known by [type(e).__qualname__]
    and [str(e)]. *)
Inductive exn :=
| CancelledError
| SystemExit
| KeyboardInterrupt
| Exception (qualname : string) (str : string).

(** [except (asyncio.CancelledError, SystemExit, KeyboardInterrupt)]. *)
Definition is_reraised (e : exn) : bool :=
  match e with
  | CancelledError | SystemExit | KeyboardInterrupt => true
  | Exception _ _ => false
  end.

Definition exn_qualname (e : exn) : string :=
  match e with
  | CancelledError => "CancelledError"
  | SystemExit => "SystemExit"
  | KeyboardInterrupt => "KeyboardInterrupt"
  | Exception q _ => q
  end.

Definition exn_str (e : exn) : string :=
  match e with
  | Exception _ m => m
  | _ => ""
  end.

(** How a call ends.  [OutOfFuel] belongs to the embedding only: the
    recursion of the run-keyword machine is bounded by a counter, and
    [OutOfFuel] marks a counter that was too small. *)
Inductive outcome (A : Type) :=
| Return (a : A)
| Raise (e : exn)
| OutOfFuel.

Arguments Return {A} a.
Arguments Raise {A} e.
Arguments OutOfFuel {A}.

(** The fields of an [Analyzer] that change during [get]. *)
Record AnalyzerState := mkState {
  _results : list Diagnostic;
  current_testcase_or_keyword_name : option string
}.

(** A method of the analyzer: the state survives a raise, as the fields
    of [self] do. *)
Definition M (A : Type) : Type := AnalyzerState -> outcome A * AnalyzerState.

Definition ret {A} (a : A) : M A := fun s => (Return a, s).

Definition bind {A B} (m : M A) (k : A -> M B) : M B :=
  fun s =>
    match m s with
    | (Return a, s') => k a s'
    | (Raise e, s') => (Raise e, s')
    | (OutOfFuel, s') => (OutOfFuel, s')
    end.

Definition raise {A} (e : exn) : M A := fun s => (Raise e, s).

Definition out_of_fuel {A} : M A := fun s => (OutOfFuel, s).

(** [try: m  except (CancelledError, SystemExit, KeyboardInterrupt): raise
     except BaseException as e: h e]. *)
Definition try_except {A} (m : M A) (h : exn -> M A) : M A :=
  fun s =>
    match m s with
    | (Raise e, s') => if is_reraised e then (Raise e, s') else h e s'
    | r => r
    end.

(** [try: m  finally: f], for a [finally] block that only assigns. *)
Definition try_finally {A} (m : M A) (f : AnalyzerState -> AnalyzerState)
    : M A :=
  fun s => let (o, s') := m s in (o, f s').

Definition lift_result {A} (r : exn + A) : M A :=
  match r with
  | inl e => raise e
  | inr a => ret a
  end.

Declare Scope analyzer_scope.
Delimit Scope analyzer_scope with analyzer.

Notation "x <- m ;; k" := (bind m (fun x => k))
  (at level 100, m at next level, right associativity) : analyzer_scope.
Notation "m ;; k" := (bind m (fun _ => k))
  (at level 100, right associativity) : analyzer_scope.

Local Open Scope analyzer_scope.

(** [for x in xs: body x]. *)
Fixpoint for_each {A} (xs : list A) (body : A -> M unit) : M unit :=
  match xs with
  | [] => ret tt
  | x :: xs' => body x ;; for_each xs' body
  end.

(* ================================================================== *)
(** ** The parser's values: tokens and nodes                           *)
(* ================================================================== *)

(** [robot.parsing.lexer.tokens.Token]: the kinds the analyzer and the
    definition resolver ask for, the text, and where the token starts
    ([lineno] counts from one, [col_offset] from zero). *)
Module Token.

Inductive kind :=
| KEYWORD | NAME | ARGUMENT | ASSIGN | TESTCASE_NAME | KEYWORD_NAME
| SEPARATOR | EOL.

Definition kind_eqb (a b : kind) : bool :=
  match a, b with
  | KEYWORD, KEYWORD | NAME, NAME | ARGUMENT, ARGUMENT | ASSIGN, ASSIGN
  | TESTCASE_NAME, TESTCASE_NAME | KEYWORD_NAME, KEYWORD_NAME
  | SEPARATOR, SEPARATOR | EOL, EOL => true
  | _, _ => false
  end.

Record t := mk {
  type : kind;
  value : string;
  lineno : Z;
  col_offset : Z
}.

End Token.

(** [Statement.get_token], [get_tokens], [get_value], [get_values] of the
    parser's statements, on the statement's token list. *)
Definition get_tokens (type : Token.kind) (tokens : list Token.t)
    : list Token.t :=
  filter (fun t => Token.kind_eqb (Token.type t) type) tokens.

Definition get_token (type : Token.kind) (tokens : list Token.t)
    : option Token.t :=
  hd_error (get_tokens type tokens).

Definition get_value (type : Token.kind) (tokens : list Token.t)
    : option string :=
  option_map Token.value (get_token type tokens).

Definition get_values (type : Token.kind) (tokens : list Token.t)
    : list string :=
  map Token.value (get_tokens type tokens).

#[local] Unset Elimination Schemes.

(** The tree the visitor walks.  A statement carries its tokens, a block
    its children; every node carries its declared range.  [TestCase] and
    [Keyword] carry the tokens of their header statement.  [Block] stands
    for the blocks without a [visit_] method (file, sections, loops,
    branches), [Statement] for the statements without one. *)
Inductive Node :=
| KeywordCall (tokens : list Token.t) (node_range : Range)
| Fixture (tokens : list Token.t) (node_range : Range)
| Template (tokens : list Token.t) (node_range : Range)
| TestTemplate (tokens : list Token.t) (node_range : Range)
| Arguments (tokens : list Token.t) (node_range : Range)
| Statement (tokens : list Token.t) (node_range : Range)
| TestCase (header : list Token.t) (node_range : Range) (body : list Node)
| Keyword (header : list Token.t) (node_range : Range) (body : list Node)
| Block (node_range : Range) (body : list Node).

#[local] Set Elimination Schemes.

(** Python truthiness of an [Optional[str]]. *)
Definition truthy (s : option string) : bool :=
  match s with
  | None => false
  | Some s => negb (s =? "")
  end.

(** Modelled from the spec: the range helpers of [utils/ast.py], whose
    source is not at hand.  Section 4.1: [range_from_token] is built from the token's
    stored position and [len(value)]; [range_from_node] is the node's
    declared range; [range_from_node_or_token] prefers the token's range
    when a token is present. *)
Definition range_from_token (token : Token.t) : Range :=
  let l := (Token.lineno token - 1)%Z in
  mkRange (mkPosition l (Token.col_offset token))
          (mkPosition l (Token.col_offset token
                         + Z.of_nat (String.length (Token.value token)))%Z).

Definition range_from_node (node : Node) : Range :=
  match node with
  | KeywordCall _ r | Fixture _ r | Template _ r | TestTemplate _ r
  | Arguments _ r | Statement _ r
  | TestCase _ r _ | Keyword _ r _ | Block r _ => r
  end.

Definition range_from_node_or_token (node : Node) (token : option Token.t)
    : Range :=
  match token with
  | Some t => range_from_token t
  | None => range_from_node node
  end.

(** [isinstance(node, (Template, TestTemplate))]. *)
Definition is_template (node : Node) : bool :=
  match node with
  | Template _ _ | TestTemplate _ _ => true
  | _ => false
  end.

(* ================================================================== *)
(** ** Keyword descriptors                                             *)
(* ================================================================== *)

Module ImportError.

Record t := mk {
  source : option string;
  line_no : option Z;
  message : string
}.

End ImportError.

(** The finder's per-call diagnostics buffer holds these. *)
Module DiagnosticsEntry.

Record t := mk {
  message : string;
  severity : DiagnosticSeverity;
  code : option string
}.

End DiagnosticsEntry.

(** An argument specification is only handed to the resolver; it is
    known here by the names it declares. *)
Inductive ArgSpec := mkArgSpec (argument_names : list string).

(** Modelled from the spec: [KeywordDoc] of [library_doc.py], whose
    source is not at hand.  Section 3 lists the fields, among them the run-keyword
    family the keyword belongs to, with the number of condition arguments
    for the with-condition family. *)
Module KeywordDoc.

Inductive family :=
| NoFamily
| RunKeyword
| RunKeywords
| RunKeywordIf
| RunKeywordWithCondition (cond_arg_count : nat).

Record t := mk {
  name : string;
  libname : string;
  source : option string;
  line_no : Z;
  arguments : option ArgSpec;
  is_deprecated : bool;
  deprecated_message : option string;
  is_error_handler : bool;
  error_handler_message : option string;
  errors : list ImportError.t;
  run_keyword_family : family;
  args_to_process : option nat
}.

Definition is_any_run_keyword (self : t) : bool :=
  match run_keyword_family self with
  | NoFamily => false
  | _ => true
  end.

Definition is_run_keyword (self : t) : bool :=
  match run_keyword_family self with
  | RunKeyword => true
  | _ => false
  end.

Definition is_run_keyword_with_condition (self : t) : bool :=
  match run_keyword_family self with
  | RunKeywordWithCondition _ => true
  | _ => false
  end.

Definition run_keyword_condition_count (self : t) : nat :=
  match run_keyword_family self with
  | RunKeywordWithCondition c => c
  | _ => 0
  end.

Definition is_run_keywords (self : t) : bool :=
  match run_keyword_family self with
  | RunKeywords => true
  | _ => false
  end.

Definition is_run_keyword_if (self : t) : bool :=
  match run_keyword_family self with
  | RunKeywordIf => true
  | _ => false
  end.

End KeywordDoc.

(** Modelled from the spec: [DIAGNOSTICS_SOURCE_NAME] of [namespace.py],
    whose source is not at hand.  Section 6.3: the source of a diagnostic is
    always this string. *)
Definition DIAGNOSTICS_SOURCE_NAME : string := "robotcode".

(* ================================================================== *)
(** ** External collaborators                                          *)
(* ================================================================== *)

(** What the analyzer and the definition resolver consume from modules
    that are not part of this development: the document, the keyword
    finder, the argument resolver, the token classifier, the escape
    rules, the cancellation token, and the name tables of the older
    definition resolver.

    - [document] is [namespace.document] with its lines already fetched;
      [None] is a namespace without a document.
    - [find_keyword] is [KeywordFinder.find_keyword]: it raises, or returns
      the keyword with the diagnostics buffer it filled for this call.
    - [resolve] is [ArgumentSpec.resolve], given the specification, the
      argument values, [resolve_variables_until] and [resolve_named] (the
      variables passed are always [None]): [Some e] when it raises [e].
    - [none_token_error] is what [is_not_variable_token] raises when the
      statement has no keyword token and [None] is passed.
    - [canceled] tells whether the cancellation token has fired when the
      visitor reaches a node.
    - [get_namespace] is [model_token_cache.get_namespace(document)] of the
      definition resolver, as the [find_keyword] of the namespace it gives;
      [None] when there is no namespace. *)
Class Externals := {
  document : option (list string);
  find_keyword :
    option string -> exn + (option KeywordDoc.t * list DiagnosticsEntry.t);
  resolve : ArgSpec -> list string -> option nat -> bool -> option exn;
  is_not_variable_token : Token.t -> bool;
  none_token_error : exn;
  unescape : string -> string;
  is_embedded_keyword : string -> bool;
  Uri_from_path : string -> string;
  canceled : Node -> bool;
  get_namespace : option (option string -> option KeywordDoc.t);
  KeywordDoc_range : KeywordDoc.t -> Range;
  RUN_KEYWORD_NAMES : list string;
  RUN_KEYWORD_WITH_CONDITION_NAMES : list string;
  RUN_KEYWORD_IF_NAME : string;
  RUN_KEYWORDS_NAME : string
}.

(* ================================================================== *)
(** ** The two regular expressions of analyzer.py                      *)
(* ================================================================== *)

(** Python's [re] on a [str] pattern, for code points below 256:
    [\s] is [str.isspace], [\w] is [str.isalnum] or the underscore, and
    [.] (without DOTALL) is anything but the line feed. *)
Definition code_in (lo hi : N) (c : ascii) : bool :=
  ((lo <=? N_of_ascii c) && (N_of_ascii c <=? hi))%N.

Definition re_space (c : ascii) : bool :=
  code_in 9 13 c || code_in 28 32 c || code_in 133 133 c || code_in 160 160 c.

Definition re_word (c : ascii) : bool :=
  code_in 48 57 c || code_in 65 90 c || code_in 95 95 c || code_in 97 122 c
  || code_in 170 170 c || code_in 178 179 c || code_in 181 181 c
  || code_in 185 186 c || code_in 188 190 c || code_in 192 214 c
  || code_in 216 246 c || code_in 248 255 c.

Definition re_dot (c : ascii) : bool := negb (code_in 10 10 c).

Definition is_char (x c : ascii) : bool := Ascii.eqb x c.

(** [\b] between the character before the position and the one at it;
    outside the string counts as a non-word character. *)
Definition word_boundary (prev next : option ascii) : bool :=
  xorb (match prev with Some c => re_word c | None => false end)
       (match next with Some c => re_word c | None => false end).

(** The longest prefix whose characters satisfy [p], and what follows:
    a greedy starred character class. *)
Fixpoint span (p : ascii -> bool) (s : list ascii)
    : list ascii * list ascii :=
  match s with
  | c :: s' =>
      if p c then let (a, b) := span p s' in (c :: a, b) else ([], s)
  | [] => ([], [])
  end.

Fixpoint strip_prefix (lit s : list ascii) : option (list ascii) :=
  match lit, s with
  | [], _ => Some s
  | x :: lit', c :: s' => if Ascii.eqb x c then strip_prefix lit' s' else None
  | _ :: _, [] => None
  end.

Definition list_ascii_eqb (a b : list ascii) : bool :=
  String.eqb (string_of_list_ascii a) (string_of_list_ascii b).

(** *** EXTRACT_COMMENT_PATTERN

    Written with blanks between its parts, the pattern is
    [.*  (?: ^ space* | tab+ | space{2,} )  #  (?P<comment> .* )  $]. *)

(** The group [comment] and the final [$], on what follows the hash.  The greedy
    star stops
    at the first line feed or at the end; [$] holds at the end of the
    string and just before a line feed that ends the string.  A shorter
    repetition stops before an ordinary character, where [$] fails. *)
Definition comment_group (rest : list ascii) : option (list ascii) :=
  let (comment, tail) := span re_dot rest in
  match tail with
  | [] => Some comment
  | [_] => Some comment
  | _ :: _ :: _ => None
  end.

(** The hash, the group and [$], after a run of blanks has been
    consumed.  The run is maximal, so a shorter run is followed by a
    blank and never by the hash. *)
Definition hash_then_comment (s : list ascii) : option (list ascii) :=
  match s with
  | c :: rest => if is_char "#"%char c then comment_group rest else None
  | [] => None
  end.

(** The three alternatives and what follows them, at a position of the
    line;
    [at_start] tells whether the position is the start of the string,
    where alone [^] holds.  The alternatives are tried in order. *)
Definition after_dot_star (at_start : bool) (s : list ascii)
    : option (list ascii) :=
  let alt1 :=
    if at_start
    then let (_, r) := span (is_char " "%char) s in hash_then_comment r
    else None in
  let alt2 :=
    let (tabs, r) := span (is_char "009"%char) s in
    if (1 <=? List.length tabs)%nat then hash_then_comment r else None in
  let alt3 :=
    let (blanks, r) := span (is_char " "%char) s in
    if (2 <=? List.length blanks)%nat then hash_then_comment r else None in
  match alt1 with
  | Some c => Some c
  | None => match alt2 with
            | Some c => Some c
            | None => alt3
            end
  end.

(** The leading greedy star: the longest extent is tried first, and the
    rest of the pattern is tried at this position only when every longer
    extent has failed. *)
Fixpoint dot_star_then (at_start : bool) (s : list ascii)
    : option (list ascii) :=
  match s with
  | c :: s' =>
      if re_dot c
      then match dot_star_then false s' with
           | Some r => Some r
           | None => after_dot_star at_start s
           end
      else after_dot_star at_start s
  | [] => after_dot_star at_start s
  end.

(** [EXTRACT_COMMENT_PATTERN.match(line)], giving [group("comment")]. *)
Definition EXTRACT_COMMENT_PATTERN_match (line : string)
    : option (list ascii) :=
  dot_star_then true (list_ascii_of_string line).

(** *** ROBOTCODE_PATTERN

    The pattern is [(?P<marker>\brobotcode\b)\s*:\s*(?P<rule>\b\w+\b)]. *)

(** A match that starts at the head of [s], [prev] being the character
    before it: [group("rule")] and the length of the match.  Each greedy
    star is followed by a character outside its class, so no shorter
    repetition can succeed where the longest fails. *)
Definition ROBOTCODE_PATTERN_match_at (prev : option ascii) (s : list ascii)
    : option (list ascii * nat) :=
  if word_boundary prev (hd_error s) then
    match strip_prefix (list_ascii_of_string "robotcode") s with
    | Some s1 =>
        if word_boundary (Some "e"%char) (hd_error s1) then
          let (ws1, s2) := span re_space s1 in
          match s2 with
          | c :: s3 =>
              if is_char ":"%char c then
                let (ws2, s4) := span re_space s3 in
                if word_boundary (Some (last ws2 c)) (hd_error s4) then
                  let (rule, s5) := span re_word s4 in
                  match rule with
                  | [] => None
                  | r0 :: _ =>
                      if word_boundary (Some (last rule r0)) (hd_error s5)
                      then Some (rule,
                                 (9 + List.length ws1 + 1 + List.length ws2
                                  + List.length rule)%nat)
                      else None
                  end
                else None
              else None
          | [] => None
          end
        else None
    | None => None
    end
  else None.

(** [ROBOTCODE_PATTERN.finditer(comment)], giving [group("rule")] of the
    matches: the string is scanned from left to right, and a match starts
    the next search at its end, so matches do not overlap.  [skip] counts
    the characters still covered by the last match. *)
Fixpoint finditer_rules (prev : option ascii) (s : list ascii) (skip : nat)
    : list (list ascii) :=
  match s with
  | [] => []
  | c :: s' =>
      match skip with
      | S k => finditer_rules (Some c) s' k
      | O =>
          match ROBOTCODE_PATTERN_match_at prev s with
          | Some (rule, len) =>
              rule :: finditer_rules (Some c) s' (len - 1)
          | None => finditer_rules (Some c) s' 0
          end
      end
  end.

Definition ROBOTCODE_PATTERN_finditer (comment : list ascii)
    : list (list ascii) :=
  finditer_rules None comment 0.

(** The body of the loop over the lines in [should_ignore]: does this
    line ask for suppression? *)
Definition line_is_ignored (line : string) : bool :=
  match EXTRACT_COMMENT_PATTERN_match line with
  | Some comment =>
      match comment with
      | [] => false
      | _ :: _ =>
          existsb (fun rule => list_ascii_eqb rule (list_ascii_of_string "ignore"))
                  (ROBOTCODE_PATTERN_finditer comment)
      end
  | None => false
  end.

(** *** The body pattern in the words of the specification

    Section 4.5 asks that the comment body contain
    [\brobotcode\s*:\s*ignore\b]: the word, blanks, a colon, blanks,
    and the rule word [ignore], anywhere in the body. *)

(** The pattern of the specification at the head of [s]. *)
Definition spec_ignore_match_at (prev : option ascii) (s : list ascii)
    : bool :=
  word_boundary prev (hd_error s)
  && match strip_prefix (list_ascii_of_string "robotcode") s with
     | Some s1 =>
         let (_, s2) := span re_space s1 in
         match s2 with
         | c :: s3 =>
             is_char ":"%char c
             && (let (_, s4) := span re_space s3 in
                 match strip_prefix (list_ascii_of_string "ignore") s4 with
                 | Some s5 => word_boundary (Some "e"%char) (hd_error s5)
                 | None => false
                 end)
         | [] => false
         end
     | None => false
     end.

(** [re.search] with the pattern of the specification. *)
Fixpoint spec_ignore_search (prev : option ascii) (s : list ascii) : bool :=
  spec_ignore_match_at prev s
  || match s with
     | c :: s' => spec_ignore_search (Some c) s'
     | [] => false
     end.

(** A line qualifies for suppression, in the words of the specification:
    it matches the comment pattern and its body contains the body
    pattern. *)
Definition spec_line_qualifies (line : string) : bool :=
  match EXTRACT_COMMENT_PATTERN_match line with
  | Some body => spec_ignore_search None body
  | None => false
  end.

(* ================================================================== *)
(** ** Analyzer.should_ignore and Analyzer.append_diagnostics          *)
(* ================================================================== *)

(** [lines[line_no]]: a negative index counts from the end, an index
    outside the list raises [IndexError]. *)
Definition list_getitem {A} (l : list A) (i : Z) : exn + A :=
  let n := Z.of_nat (List.length l) in
  let j := (if i <? 0 then i + n else i)%Z in
  if ((0 <=? j) && (j <? n))%Z
  then match nth_error l (Z.to_nat j) with
       | Some a => inr a
       | None => inl (Exception "IndexError" "list index out of range")
       end
  else inl (Exception "IndexError" "list index out of range").

(** [builtins.range(lo, hi)]. *)
Definition builtins_range (lo hi : Z) : list Z :=
  map (fun k => (lo + Z.of_nat k)%Z) (seq 0 (Z.to_nat (hi - lo))).

Fixpoint should_ignore_lines (lines : list string) (line_nos : list Z)
    : exn + bool :=
  match line_nos with
  | [] => inr false
  | line_no :: rest =>
      match list_getitem lines line_no with
      | inl e => inl e
      | inr line =>
          if line_is_ignored line then inr true
          else should_ignore_lines lines rest
      end
  end.

Definition should_ignore (document : option (list string)) (range : Range)
    : exn + bool :=
  match document with
  | Some lines =>
      should_ignore_lines lines
        (builtins_range (line (start range)) (line (end_ range) + 1))
  | None => inr false
  end.

Definition append_result (d : Diagnostic) : M unit :=
  fun s =>
    (Return tt,
     mkState (_results s ++ [d]) (current_testcase_or_keyword_name s)).

Section Analyzer.

Context {ext : Externals}.

Definition append_diagnostics (range : Range) (message : string)
    (severity : option DiagnosticSeverity) (code : option string)
    (code_description : option CodeDescription) (source : option string)
    (tags : option (list DiagnosticTag))
    (related_information : option (list DiagnosticRelatedInformation))
    (data : option string) : M unit :=
  ignored <- lift_result (should_ignore document range) ;;
  if ignored then ret tt
  else append_result
         (mkDiagnostic range message severity code code_description source
                       tags related_information data).

(* ------------------------------------------------------------------ *)
(** *** Analyzer._analyze_keyword_call                                 *)
(* ------------------------------------------------------------------ *)

(** The [related_information] list built for a keyword whose definition
    has errors. *)
Definition related_information_of (result : KeywordDoc.t)
    : list DiagnosticRelatedInformation :=
  map (fun err =>
         let l :=
           match ImportError.line_no err with
           | Some n => (n - 1)%Z
           | None => if (KeywordDoc.line_no result >=? 0)%Z
                     then KeywordDoc.line_no result else 0%Z
           end in
         mkDiagnosticRelatedInformation
           (mkLocation
              (Uri_from_path
                 match ImportError.source err with
                 | Some p => p
                 | None => match KeywordDoc.source result with
                           | Some p => p
                           | None => "/<unknown>"
                           end
                 end)
              (mkRange (mkPosition l 0) (mkPosition l 0)))
           (ImportError.message err))
      (KeywordDoc.errors result).

Definition deprecated_text (result : KeywordDoc.t) : string :=
  "Keyword '" ++ KeywordDoc.name result ++ "' is deprecated"
  ++ (if truthy (KeywordDoc.deprecated_message result)
      then ": " ++ match KeywordDoc.deprecated_message result with
                   | Some m => m
                   | None => ""
                   end
      else "")
  ++ ".".

Definition error_handler_text (result : KeywordDoc.t) : string :=
  "Keyword definition contains errors: "
  ++ match KeywordDoc.error_handler_message result with
     | Some m => m
     | None => "None"
     end.

(** The range of the diagnostic for a failed argument resolution: from
    the start of the keyword token to the end of the last argument. *)
Definition resolve_error_range (keyword_token : Token.t)
    (argument_tokens : list Token.t) : Range :=
  mkRange (start (range_from_token keyword_token))
          (match argument_tokens with
           | [] => end_ (range_from_token keyword_token)
           | t0 :: _ => end_ (range_from_token (last argument_tokens t0))
           end).

(** The inner [try] around [result.arguments.resolve]. *)
Definition resolve_arguments (result : KeywordDoc.t) (keyword_token : Token.t)
    (argument_tokens : list Token.t) : M unit :=
  try_except
    (match KeywordDoc.arguments result with
     | Some spec =>
         match resolve spec (map Token.value argument_tokens)
                       (KeywordDoc.args_to_process result)
                       (negb (KeywordDoc.is_any_run_keyword result)) with
         | Some e => raise e
         | None => ret tt
         end
     | None => ret tt
     end)
    (fun e =>
       append_diagnostics
         (resolve_error_range keyword_token argument_tokens)
         (exn_str e) (Some ERROR) (Some (exn_qualname e)) None
         (Some DIAGNOSTICS_SOURCE_NAME) None None None).

(** The statements of the outer [try] that follow
    [result = await self.finder.find_keyword(keyword)]. *)
Definition report_keyword (result : option KeywordDoc.t)
    (diagnostics : list DiagnosticsEntry.t) (node : Node)
    (keyword_token : Token.t) (argument_tokens : list Token.t) : M unit :=
  for_each diagnostics
    (fun e =>
       append_diagnostics
         (range_from_node_or_token node (Some keyword_token))
         (DiagnosticsEntry.message e) (Some (DiagnosticsEntry.severity e))
         (DiagnosticsEntry.code e) None (Some DIAGNOSTICS_SOURCE_NAME)
         None None None) ;;
  match result with
  | Some result =>
      (match KeywordDoc.errors result with
       | _ :: _ =>
           append_diagnostics
             (range_from_node_or_token node (Some keyword_token))
             "Keyword definition contains errors." (Some ERROR) None None
             (Some DIAGNOSTICS_SOURCE_NAME) None
             (Some (related_information_of result)) None
       | [] => ret tt
       end) ;;
      (if KeywordDoc.is_deprecated result
       then append_diagnostics
              (range_from_node_or_token node (Some keyword_token))
              (deprecated_text result) (Some HINT) None None
              (Some DIAGNOSTICS_SOURCE_NAME) (Some [Deprecated]) None None
       else ret tt) ;;
      (if KeywordDoc.is_error_handler result
       then append_diagnostics
              (range_from_node_or_token node (Some keyword_token))
              (error_handler_text result) (Some ERROR) None None
              (Some DIAGNOSTICS_SOURCE_NAME) None None None
       else ret tt) ;;
      if negb (is_template node)
      then resolve_arguments result keyword_token argument_tokens
      else ret tt
  | None => ret tt
  end.

(** The handler of the outer [try]. *)
Definition report_exception (node : Node) (keyword_token : option Token.t)
    (e : exn) : M unit :=
  append_diagnostics
    (range_from_node_or_token node keyword_token)
    (exn_str e) (Some ERROR) (Some (exn_qualname e)) None
    (Some DIAGNOSTICS_SOURCE_NAME) None None None.

(** The type of [_analyse_run_keyword], which [_analyze_keyword_call]
    calls and is called by. *)
Definition run_keyword_analysis : Type :=
  option KeywordDoc.t -> Node -> list Token.t -> M (list Token.t).

(** [_analyze_keyword_call], given the [_analyse_run_keyword] it calls.
    [result] is assigned before the statements that report on it, so it
    keeps its value when one of them raises and the handler has run. *)
Definition _analyze_keyword_call_with (rk : run_keyword_analysis)
    (keyword : option string) (node : Node) (keyword_token : Token.t)
    (argument_tokens : list Token.t) (analyse_run_keywords : bool)
    : M (option KeywordDoc.t) :=
  if negb (is_not_variable_token keyword_token) then ret None
  else
    found <- try_except
               (r <- lift_result (find_keyword keyword) ;; ret (Some r))
               (fun e => report_exception node (Some keyword_token) e ;;
                         ret None) ;;
    match found with
    | None => ret None
    | Some (result, diagnostics) =>
        try_except
          (report_keyword result diagnostics node keyword_token
                          argument_tokens)
          (report_exception node (Some keyword_token)) ;;
        match result with
        | Some _ =>
            if analyse_run_keywords
            then rk result node argument_tokens ;; ret result
            else ret result
        | None => ret result
        end
    end.

(* ------------------------------------------------------------------ *)
(** *** Analyzer._analyse_run_keyword                                  *)
(* ------------------------------------------------------------------ *)

Definition Token_eqb (a b : Token.t) : bool :=
  Token.kind_eqb (Token.type a) (Token.type b)
  && (Token.value a =? Token.value b)
  && (Token.lineno a =? Token.lineno b)%Z
  && (Token.col_offset a =? Token.col_offset b)%Z.

(** [l.index(x)]: the position of the first element equal to [x]. *)
Fixpoint list_index (x : Token.t) (l : list Token.t) : option nat :=
  match l with
  | [] => None
  | y :: l' => if Token_eqb y x then Some 0
               else option_map S (list_index x l')
  end.

Definition is_AND (e : Token.t) : bool := Token.value e =? "AND".

(** The local function [skip_args] of the Run Keyword If branch: the
    tokens it collects, and the tokens it leaves in [argument_tokens]. *)
Fixpoint skip_args (argument_tokens : list Token.t)
    : list Token.t * list Token.t :=
  match argument_tokens with
  | [] => ([], [])
  | t :: rest =>
      if (Token.value t =? "ELSE") || (Token.value t =? "ELSE IF")
      then ([], argument_tokens)
      else let (result, left) := skip_args rest in (t :: result, left)
  end.

(** The [while argument_tokens:] loop of the Run Keywords branch.  Every
    round drops at least the first token, so [fuel] above the length of
    [argument_tokens] is enough. *)
Fixpoint run_keywords_loop (rk : run_keyword_analysis) (fuel : nat)
    (node : Node) (has_and : bool) (argument_tokens : list Token.t)
    : M unit :=
  match fuel with
  | O => out_of_fuel
  | S fuel' =>
      match argument_tokens with
      | [] => ret tt
      | t :: argument_tokens =>
          if is_AND t then
            append_diagnostics (range_from_token t)
              ("Incorrect use of " ++ Token.value t) (Some ERROR) None None
              (Some DIAGNOSTICS_SOURCE_NAME) None None None ;;
            run_keywords_loop rk fuel' node has_and argument_tokens
          else if negb (is_not_variable_token t) then
            run_keywords_loop rk fuel' node has_and argument_tokens
          else
            match find is_AND argument_tokens with
            | Some and_token =>
                match list_index and_token argument_tokens with
                | Some i =>
                    _analyze_keyword_call_with rk
                      (Some (unescape (Token.value t))) node t
                      (firstn i argument_tokens) true ;;
                    run_keywords_loop rk fuel' node true
                      (skipn (i + 1) argument_tokens)
                | None => raise (Exception "ValueError" "not in list")
                end
            | None =>
                if has_and then
                  _analyze_keyword_call_with rk
                    (Some (unescape (Token.value t))) node t
                    argument_tokens true ;;
                  run_keywords_loop rk fuel' node has_and []
                else
                  _analyze_keyword_call_with rk
                    (Some (unescape (Token.value t))) node t [] true ;;
                  run_keywords_loop rk fuel' node has_and argument_tokens
            end
      end
  end.

(** After the keyword of an ELSE or ELSE IF branch has been analysed
    with [analyse_run_keywords=False]: the nested machine runs on what
    follows the keyword when that keyword is itself a run keyword. *)
Definition analyse_branch_keyword (rk : run_keyword_analysis)
    (result : option KeywordDoc.t) (node : Node)
    (argument_tokens : list Token.t) : M (list Token.t) :=
  match result with
  | Some r =>
      if KeywordDoc.is_any_run_keyword r
      then rk result node argument_tokens
      else ret argument_tokens
  | None => ret argument_tokens
  end.

(** The [while argument_tokens:] loop of the Run Keyword If branch; the
    value is [argument_tokens] when the loop is left. *)
Fixpoint run_keyword_if_loop (rk : run_keyword_analysis) (fuel : nat)
    (node : Node) (argument_tokens : list Token.t) : M (list Token.t) :=
  match fuel with
  | O => out_of_fuel
  | S fuel' =>
      match argument_tokens with
      | [] => ret argument_tokens
      | t0 :: _ =>
          if (Token.value t0 =? "ELSE")
             && (1 <? List.length argument_tokens)%nat then
            match nth_error argument_tokens 1 with
            | Some t1 =>
                result <- _analyze_keyword_call_with rk
                            (Some (unescape (Token.value t1))) node t1
                            (skipn 2 argument_tokens) false ;;
                argument_tokens' <- analyse_branch_keyword rk result node
                                      (skipn 2 argument_tokens) ;;
                ret (snd (skip_args argument_tokens'))
            | None => ret argument_tokens
            end
          else if (Token.value t0 =? "ELSE IF")
                  && (2 <? List.length argument_tokens)%nat then
            match nth_error argument_tokens 2 with
            | Some t2 =>
                result <- _analyze_keyword_call_with rk
                            (Some (unescape (Token.value t2))) node t2
                            (skipn 3 argument_tokens) false ;;
                argument_tokens' <- analyse_branch_keyword rk result node
                                      (skipn 3 argument_tokens) ;;
                run_keyword_if_loop rk fuel' node
                  (snd (skip_args argument_tokens'))
            | None => ret argument_tokens
            end
          else ret argument_tokens
      end
  end.

(** The body of [_analyse_run_keyword], given the [_analyse_run_keyword]
    that it and [_analyze_keyword_call] call.  The method returns in every
    branch but the Run Keyword If one, which falls through to the final
    [return argument_tokens]. *)
Definition _analyse_run_keyword_with (rk : run_keyword_analysis)
    (keyword_doc : option KeywordDoc.t) (node : Node)
    (argument_tokens : list Token.t) : M (list Token.t) :=
  match keyword_doc with
  | None => ret argument_tokens
  | Some doc =>
      if negb (KeywordDoc.is_any_run_keyword doc) then ret argument_tokens
      else if KeywordDoc.is_run_keyword doc
              && match nth_error argument_tokens 0 with
                 | Some t => is_not_variable_token t
                 | None => false
                 end then
        match nth_error argument_tokens 0 with
        | Some t =>
            _analyze_keyword_call_with rk
              (Some (unescape (Token.value t))) node t
              (skipn 1 argument_tokens) true ;;
            ret (skipn 1 argument_tokens)
        | None => ret argument_tokens
        end
      else if KeywordDoc.is_run_keyword_with_condition doc
              && match nth_error argument_tokens
                         (KeywordDoc.run_keyword_condition_count doc) with
                 | Some t => is_not_variable_token t
                 | None => false
                 end then
        let cond_count := KeywordDoc.run_keyword_condition_count doc in
        match nth_error argument_tokens cond_count with
        | Some t =>
            _analyze_keyword_call_with rk
              (Some (unescape (Token.value t))) node t
              (skipn (cond_count + 1) argument_tokens) true ;;
            ret (skipn (cond_count + 1) argument_tokens)
        | None => ret argument_tokens
        end
      else if KeywordDoc.is_run_keywords doc then
        run_keywords_loop rk (S (List.length argument_tokens)) node false
                          argument_tokens ;;
        ret []
      else if KeywordDoc.is_run_keyword_if doc
              && (1 <? List.length argument_tokens)%nat then
        match nth_error argument_tokens 1 with
        | Some kwt =>
            found <- lift_result
                       (find_keyword (Some (Token.value kwt))) ;;
            argument_tokens' <-
              (if match fst found with
                  | Some r => KeywordDoc.is_any_run_keyword r
                  | None => false
                  end
               then rk (fst found) node (skipn 2 argument_tokens)
               else
                 let (args, left) :=
                   skip_args (skipn 2 argument_tokens) in
                 (if is_not_variable_token kwt
                  then _analyze_keyword_call_with rk
                         (Some (unescape (Token.value kwt))) node kwt
                         args false ;; ret tt
                  else ret tt) ;;
                 ret left) ;;
            run_keyword_if_loop rk (S (List.length argument_tokens'))
                                node argument_tokens'
        | None => ret argument_tokens
        end
      else ret argument_tokens
  end.

(** [_analyse_run_keyword], with a bound on the depth of the recursion
    through [_analyze_keyword_call]: every such call is on a list of
    tokens shorter than [argument_tokens], so [fuel] above the length of
    [argument_tokens] is enough. *)
Fixpoint _analyse_run_keyword_fuel (fuel : nat) : run_keyword_analysis :=
  match fuel with
  | O => fun _ _ _ => out_of_fuel
  | S fuel' => _analyse_run_keyword_with (_analyse_run_keyword_fuel fuel')
  end.

(** The two methods as the visitor calls them. *)
Definition _analyse_run_keyword (keyword_doc : option KeywordDoc.t)
    (node : Node) (argument_tokens : list Token.t) : M (list Token.t) :=
  _analyse_run_keyword_fuel (S (List.length argument_tokens)) keyword_doc
                            node argument_tokens.

Definition _analyze_keyword_call (keyword : option string) (node : Node)
    (keyword_token : Token.t) (argument_tokens : list Token.t)
    (analyse_run_keywords : bool) : M (option KeywordDoc.t) :=
  _analyze_keyword_call_with
    (_analyse_run_keyword_fuel (S (List.length argument_tokens)))
    keyword node keyword_token argument_tokens analyse_run_keywords.


(* ------------------------------------------------------------------ *)
(** *** The visitor methods                                            *)
(* ------------------------------------------------------------------ *)

Definition set_current_testcase_or_keyword_name (name : option string)
    : AnalyzerState -> AnalyzerState :=
  fun s => mkState (_results s) name.

Definition visit_Fixture (node : Node) (tokens : list Token.t) : M unit :=
  match get_token Token.NAME tokens with
  | Some keyword_token =>
      if is_not_variable_token keyword_token
      then _analyze_keyword_call (get_value Token.NAME tokens) node
             keyword_token (get_tokens Token.ARGUMENT tokens) true ;;
           ret tt
      else ret tt
  | None => ret tt
  end.

Definition visit_TestTemplate (node : Node) (tokens : list Token.t)
    : M unit :=
  match get_token Token.NAME tokens with
  | Some keyword_token =>
      if is_not_variable_token keyword_token
      then _analyze_keyword_call (get_value Token.NAME tokens) node
             keyword_token [] true ;;
           ret tt
      else ret tt
  | None => ret tt
  end.

Definition visit_Template (node : Node) (tokens : list Token.t) : M unit :=
  match get_token Token.NAME tokens with
  | Some keyword_token =>
      if is_not_variable_token keyword_token
      then _analyze_keyword_call (get_value Token.NAME tokens) node
             keyword_token [] true ;;
           ret tt
      else ret tt
  | None => ret tt
  end.

(** [value.assign and not value.keyword]. *)
Definition assigns_without_keyword (tokens : list Token.t) : bool :=
  match get_values Token.ASSIGN tokens with
  | _ :: _ => negb (truthy (get_value Token.KEYWORD tokens))
  | [] => false
  end.

(** The "Code is unreachable." hint of [visit_KeywordCall]. *)
Definition report_unreachable (node : Node) (tokens : list Token.t)
    : M unit :=
  append_diagnostics
    (range_from_node_or_token node (get_token Token.ASSIGN tokens))
    "Code is unreachable." (Some HINT) None None
    (Some DIAGNOSTICS_SOURCE_NAME) (Some [Unnecessary]) None None.

Definition visit_KeywordCall (node : Node) (tokens : list Token.t)
    : M unit :=
  (if assigns_without_keyword tokens then
     append_diagnostics
       (range_from_node_or_token node (get_token Token.ASSIGN tokens))
       "Keyword name cannot be empty." (Some ERROR) (Some "KeywordError")
       None (Some DIAGNOSTICS_SOURCE_NAME) None None None
   else
     match get_token Token.KEYWORD tokens with
     | Some keyword_token =>
         _analyze_keyword_call (get_value Token.KEYWORD tokens) node
           keyword_token (get_tokens Token.ARGUMENT tokens) true ;;
         ret tt
     | None =>
         try_except (raise none_token_error) (report_exception node None)
     end) ;;
  fun s =>
    (if negb (truthy (current_testcase_or_keyword_name s))
     then report_unreachable node tokens
     else ret tt) s.

(** [visit_TestCase], given the visit of the node's children. *)
Definition visit_TestCase (generic_visit : M unit) (node : Node)
    (header : list Token.t) : M unit :=
  let name := get_value Token.TESTCASE_NAME header in
  (if negb (truthy name) then
     append_diagnostics
       (range_from_node_or_token node
          (get_token Token.TESTCASE_NAME header))
       "Test case name cannot be empty." (Some ERROR) (Some "KeywordError")
       None (Some DIAGNOSTICS_SOURCE_NAME) None None None
   else ret tt) ;;
  fun s =>
    try_finally generic_visit (set_current_testcase_or_keyword_name None)
                (set_current_testcase_or_keyword_name name s).

(** [any(isinstance(v, Arguments) and len(v.values) > 0
         for v in keyword.body)]. *)
Definition has_arguments (body : list Node) : bool :=
  existsb (fun v =>
             match v with
             | Arguments tokens _ =>
                 (0 <? List.length (get_values Token.ARGUMENT tokens))%nat
             | _ => false
             end) body.

(** [visit_Keyword], given the visit of the node's children. *)
Definition visit_Keyword (generic_visit : M unit) (node : Node)
    (header : list Token.t) (body : list Node) : M unit :=
  let name := get_value Token.KEYWORD_NAME header in
  (if truthy name then
     if is_embedded_keyword (match name with Some n => n | None => "" end)
        && has_arguments body
     then append_diagnostics
            (range_from_node_or_token node
               (get_token Token.KEYWORD_NAME header))
            "Keyword cannot have both normal and embedded arguments."
            (Some ERROR) (Some "KeywordError") None
            (Some DIAGNOSTICS_SOURCE_NAME) None None None
     else ret tt
   else
     append_diagnostics
       (range_from_node_or_token node
          (get_token Token.KEYWORD_NAME header))
       "Keyword name cannot be empty." (Some ERROR) (Some "KeywordError")
       None (Some DIAGNOSTICS_SOURCE_NAME) None None None) ;;
  fun s =>
    try_finally generic_visit (set_current_testcase_or_keyword_name None)
                (set_current_testcase_or_keyword_name name s).

(** Modelled from the spec: [AsyncVisitor.visit] and [generic_visit] of
    [utils/async_ast.py], whose source is not at hand.  Section 4.3: the visitor
    dispatches by node kind, a kind without a method being visited through
    its children; section 5: the cancellation token is checked between the
    visited nodes.  Statements have no child nodes. *)
Fixpoint visit (node : Node) : M unit :=
  let generic_visit :=
    fix visit_all (children : list Node) : M unit :=
      match children with
      | [] => ret tt
      | child :: rest => visit child ;; visit_all rest
      end in
  if canceled node then raise CancelledError
  else
    match node with
    | KeywordCall tokens _ => visit_KeywordCall node tokens
    | Fixture tokens _ => visit_Fixture node tokens
    | Template tokens _ => visit_Template node tokens
    | TestTemplate tokens _ => visit_TestTemplate node tokens
    | Arguments _ _ => ret tt
    | Statement _ _ => ret tt
    | TestCase header _ body =>
        visit_TestCase (generic_visit body) node header
    | Keyword header _ body =>
        visit_Keyword (generic_visit body) node header body
    | Block _ body => generic_visit body
    end.

Definition generic_visit (children : list Node) : M unit :=
  for_each children visit.

(** [Analyzer.get]: how the visit ended, and [self._results]. *)
Definition get (model : Node) : outcome unit * list Diagnostic :=
  let (o, s) := visit model (mkState [] None) in (o, _results s).

End Analyzer.

(* ================================================================== *)
(** ** definition.py                                                   *)
(* ================================================================== *)

Section Definition_.

Context {ext : Externals}.

(** [is_non_variable_token] and [range_from_token_or_node] are the names
    this module imports for the helpers of [utils/ast.py]. *)
Definition is_non_variable_token (token : Token.t) : bool :=
  is_not_variable_token token.

Definition range_from_token_or_node (node : Node) (token : Token.t) : Range :=
  range_from_node_or_token node (Some token).

Definition location_link (node : Node) (token : Token.t)
    (keyword_doc : KeywordDoc.t) (source_path : string) : LocationLink :=
  mkLocationLink (Some (range_from_token_or_node node token))
                 (Uri_from_path source_path)
                 (KeywordDoc_range keyword_doc)
                 (KeywordDoc_range keyword_doc).

Definition name_in (name : string) (names : list string) : bool :=
  existsb (String.eqb name) names.

(** The [for t in argument_tokens:] loop of the Run Keywords case. *)
Fixpoint run_keywords_definition
    (find : option string -> option KeywordDoc.t) (node : Node)
    (position : Position) (argument_tokens : list Token.t)
    : option (list LocationLink) :=
  match argument_tokens with
  | [] => None
  | t :: rest =>
      if Position_is_in_range position (range_from_token t) true
         && is_non_variable_token t
      then
        match find (Some (Token.value t)) with
        | Some keyword_doc =>
            match KeywordDoc.source keyword_doc with
            | Some src => Some [location_link node t keyword_doc src]
            | None => None
            end
        | None => None
        end
      else run_keywords_definition find node position rest
  end.

(** The [while keyword_doc is not None and keyword_doc.libname == "BuiltIn"
    and argument_tokens:] loop.  Its second and third cases ask for more
    than one token, so they are tried when a second token is there; the
    Run Keywords case ends the loop by emptying [argument_tokens]. *)
Fixpoint arguments_definition
    (find : option string -> option KeywordDoc.t)
    (keyword_doc : KeywordDoc.t) (node : Node) (position : Position)
    (argument_tokens : list Token.t) {struct argument_tokens}
    : option (list LocationLink) :=
  if negb (KeywordDoc.libname keyword_doc =? "BuiltIn") then None
  else
    match argument_tokens with
    | [] => None
    | a0 :: rest1 =>
        if name_in (KeywordDoc.name keyword_doc) RUN_KEYWORD_NAMES
           && is_non_variable_token a0
        then
          match find (Some (Token.value a0)) with
          | Some keyword_doc' =>
              match KeywordDoc.source keyword_doc' with
              | Some src =>
                  if Position_is_in_range position (range_from_token a0) true
                  then Some [location_link node a0 keyword_doc' src]
                  else arguments_definition find keyword_doc' node position
                                            rest1
              | None => None
              end
          | None => None
          end
        else
          match rest1 with
          | a1 :: rest2 =>
              if name_in (KeywordDoc.name keyword_doc)
                         RUN_KEYWORD_WITH_CONDITION_NAMES
                 && is_non_variable_token a1
              then
                match find (Some (Token.value a1)) with
                | Some keyword_doc' =>
                    match KeywordDoc.source keyword_doc' with
                    | Some src =>
                        if Position_is_in_range position
                                                (range_from_token a1) true
                        then Some [location_link node a1 keyword_doc' src]
                        else arguments_definition find keyword_doc' node
                                                  position rest2
                    | None => None
                    end
                | None => None
                end
              else if (KeywordDoc.name keyword_doc =? RUN_KEYWORD_IF_NAME)
                      && is_non_variable_token a1
              then
                match find (Some (Token.value a1)) with
                | Some keyword_doc' =>
                    match KeywordDoc.source keyword_doc' with
                    | Some src =>
                        if Position_is_in_range position
                                                (range_from_token a1) true
                        then Some [location_link node a1 keyword_doc' src]
                        else (* TODO else/elif *)
                          arguments_definition find keyword_doc' node
                                               position rest2
                    | None => None
                    end
                | None => None
                end
              else if KeywordDoc.name keyword_doc =? RUN_KEYWORDS_NAME
              then run_keywords_definition find node position
                                           argument_tokens
              else None
          | [] =>
              if KeywordDoc.name keyword_doc =? RUN_KEYWORDS_NAME
              then run_keywords_definition find node position
                                           argument_tokens
              else None
          end
    end.

Definition _definition_KeywordCall_or_Fixture (keyword : option string)
    (token_type : Token.kind) (result_node : Node) (tokens : list Token.t)
    (position : Position) : option (list LocationLink) :=
  if truthy keyword then
    match get_token token_type tokens with
    | None => None
    | Some keyword_token =>
        match get_namespace with
        | None => None
        | Some find =>
            match find keyword with
            | None => None
            | Some keyword_doc =>
                match KeywordDoc.source keyword_doc with
                | None => None
                | Some src =>
                    if Position_is_in_range position
                         (range_from_token keyword_token) true
                    then Some [location_link result_node keyword_token
                                             keyword_doc src]
                    else arguments_definition find keyword_doc result_node
                           position (get_tokens Token.ARGUMENT tokens)
                end
            end
        end
    end
  else None.

Definition definition_KeywordCall (result_node : Node)
    (tokens : list Token.t) (position : Position)
    : option (list LocationLink) :=
  _definition_KeywordCall_or_Fixture (get_value Token.KEYWORD tokens)
    Token.KEYWORD result_node tokens position.

Definition definition_Fixture (result_node : Node) (tokens : list Token.t)
    (position : Position) : option (list LocationLink) :=
  _definition_KeywordCall_or_Fixture (get_value Token.NAME tokens)
    Token.NAME result_node tokens position.

End Definition_.

(* ================================================================== *)
(** ** Example suites                                                  *)
(* ================================================================== *)

(** Modelled from the spec: [is_variable_token] of [utils/ast.py], whose
    source is not at hand.  Section 4.1: true iff the value begins with one of
    the four variable openers and contains a closing brace. *)
Definition is_variable_token (t : Token.t) : bool :=
  match list_ascii_of_string (Token.value t) with
  | c0 :: c1 :: rest =>
      (is_char "$" c0 || is_char "@" c0 || is_char "&" c0 || is_char "%" c0)
      && is_char "{" c1
      && existsb (is_char "}") rest
  | _ => false
  end.

Module Examples.

Definition builtin (name : string) (family : KeywordDoc.family)
    : KeywordDoc.t :=
  KeywordDoc.mk name "BuiltIn" (Some "/robot/libraries/BuiltIn.py") 1 None
                false None false None [] family None.

Definition user_keyword (name : string) (line_no : Z)
    (argument_names : list string) : KeywordDoc.t :=
  KeywordDoc.mk name "" (Some "/suite/keywords.resource") line_no
                (Some (mkArgSpec argument_names)) false None false None []
                KeywordDoc.NoFamily None.

Definition Run_Keyword := builtin "Run Keyword" KeywordDoc.RunKeyword.
Definition Run_Keywords := builtin "Run Keywords" KeywordDoc.RunKeywords.
Definition Run_Keyword_If := builtin "Run Keyword If" KeywordDoc.RunKeywordIf.
Definition Wait_Until_Keyword_Succeeds :=
  builtin "Wait Until Keyword Succeeds" (KeywordDoc.RunKeywordWithCondition 2).
Definition Log := builtin "Log" KeywordDoc.NoFamily.
Definition My_Kw := user_keyword "My Kw" 7 [].
Definition One_Arg := user_keyword "One Arg" 12 ["x"].

(** A keyword that comes from a library without a source file. *)
Definition Remote_Kw : KeywordDoc.t :=
  KeywordDoc.mk "Remote Kw" "Remote" None (-1) None false None false None []
                KeywordDoc.NoFamily None.

Definition keywords : list KeywordDoc.t :=
  [Run_Keyword; Run_Keywords; Run_Keyword_If; Wait_Until_Keyword_Succeeds;
   Log; My_Kw; One_Arg; Remote_Kw].

Definition lookup (name : option string) : option KeywordDoc.t :=
  match name with
  | Some n => find (fun d => KeywordDoc.name d =? n) keywords
  | None => None
  end.

(** A finder over [keywords]: an unknown name yields no keyword and one
    entry in the diagnostics buffer; the name ["Boom"] makes it raise. *)
Definition finder (name : option string)
    : exn + (option KeywordDoc.t * list DiagnosticsEntry.t) :=
  match name with
  | Some "Boom" => inl (Exception "DataError" "Broken import")
  | _ =>
      match lookup name with
      | Some d => inr (Some d, [])
      | None =>
          inr (None,
               [DiagnosticsEntry.mk
                  ("No keyword with name '"
                   ++ match name with Some n => n | None => "None" end
                   ++ "' found.")
                  ERROR (Some "KeywordError/not_found")])
      end
  end.

(** A resolver that rejects more arguments than the keyword declares. *)
Definition resolver (spec : ArgSpec) (arguments : list string)
    (resolve_variables_until : option nat) (resolve_named : bool)
    : option exn :=
  match spec with
  | mkArgSpec names =>
      if (List.length names <? List.length arguments)%nat
      then Some (Exception "DataError" "Too many positional arguments.")
      else None
  end.

(** A finder over [keywords] that never raises. *)
Definition quiet_finder (name : option string)
    : exn + (option KeywordDoc.t * list DiagnosticsEntry.t) :=
  match lookup name with
  | Some d => inr (Some d, [])
  | None =>
      inr (None,
           [DiagnosticsEntry.mk "No keyword with that name found." ERROR
                                (Some "KeywordError/not_found")])
  end.

(** The environment of the examples, for a document with these lines.
    The examples hold no escape sequence, so [unescape] changes nothing. *)
Definition environment (lines : option (list string)) : Externals := {|
  document := lines;
  find_keyword := finder;
  resolve := resolver;
  is_not_variable_token := fun t => negb (is_variable_token t);
  none_token_error :=
    Exception "AttributeError"
              "'NoneType' object has no attribute 'tokenize_variables'";
  unescape := fun s => s;
  is_embedded_keyword := fun _ => false;
  Uri_from_path := fun path => ("file://" ++ path)%string;
  canceled := fun _ => false;
  get_namespace := Some lookup;
  KeywordDoc_range := fun d =>
    let l := (if KeywordDoc.line_no d >? 0 then KeywordDoc.line_no d - 1
              else 0)%Z in
    mkRange (mkPosition l 0) (mkPosition l 0);
  RUN_KEYWORD_NAMES := ["Run Keyword"];
  RUN_KEYWORD_WITH_CONDITION_NAMES := ["Wait Until Keyword Succeeds"];
  RUN_KEYWORD_IF_NAME := "Run Keyword If";
  RUN_KEYWORDS_NAME := "Run Keywords"
|}.

(** The same environment without a document and with the finder that
    never raises. *)
Definition quiet_environment : Externals := {|
  document := None;
  find_keyword := quiet_finder;
  resolve := resolver;
  is_not_variable_token := fun t => negb (is_variable_token t);
  none_token_error :=
    Exception "AttributeError"
              "'NoneType' object has no attribute 'tokenize_variables'";
  unescape := fun s => s;
  is_embedded_keyword := fun _ => false;
  Uri_from_path := fun path => ("file://" ++ path)%string;
  canceled := fun _ => false;
  get_namespace := Some lookup;
  KeywordDoc_range := fun d =>
    let l := (if KeywordDoc.line_no d >? 0 then KeywordDoc.line_no d - 1
              else 0)%Z in
    mkRange (mkPosition l 0) (mkPosition l 0);
  RUN_KEYWORD_NAMES := ["Run Keyword"];
  RUN_KEYWORD_WITH_CONDITION_NAMES := ["Wait Until Keyword Succeeds"];
  RUN_KEYWORD_IF_NAME := "Run Keyword If";
  RUN_KEYWORDS_NAME := "Run Keywords"
|}.

(** The cells of one line of a test body, four spaces apart: the first
    is the keyword, the others its arguments. *)
Fixpoint cells (type : Token.kind) (lineno col : Z) (values : list string)
    : list Token.t :=
  match values with
  | [] => []
  | v :: rest =>
      Token.mk type v lineno col
      :: cells Token.ARGUMENT lineno
               (col + Z.of_nat (String.length v) + 4)%Z rest
  end.

(** A statement made of these tokens, from the fifth column of its line
    to the end of its last token. *)
Definition statement_range (lineno : Z) (tokens : list Token.t) : Range :=
  mkRange (mkPosition (lineno - 1) 4)
          (match tokens with
           | [] => mkPosition (lineno - 1) 4
           | t0 :: _ => end_ (range_from_token (last tokens t0))
           end).

Definition call_line (lineno : Z) (values : list string) : Node :=
  KeywordCall (cells Token.KEYWORD lineno 4 values)
              (statement_range lineno (cells Token.KEYWORD lineno 4 values)).

(** A test case named on line [lineno], its body on the lines below. *)
Definition test_case (lineno : Z) (name : string) (body : list Node) : Node :=
  TestCase [Token.mk Token.TESTCASE_NAME name lineno 0]
           (mkRange (mkPosition (lineno - 1) 0)
                    (mkPosition (lineno - 1 + Z.of_nat (List.length body)) 0))
           body.

(** Scenario S3. *)
Definition S3_lines : list string :=
  ["*** Test Cases ***";
   "TC";
   "    Run Keywords    Log    hi    AND    Unknown"].

Definition S3_call : Node :=
  call_line 3 ["Run Keywords"; "Log"; "hi"; "AND"; "Unknown"].


(** Scenarios S1 and S5: an unknown keyword, in a suite whose third line
    is [line]. *)
Definition unknown_keyword_model : Node :=
  Block (mkRange (mkPosition 0 0) (mkPosition 2 14))
        [test_case 2 "TC" [call_line 3 ["Unknown Kw"]]].

Definition suite_lines (line : string) : list string :=
  ["*** Test Cases ***"; "TC"; line].

(** Scenario S5, and a line whose pragma follows another rule. *)
Definition S5_lines : list string :=
  ["    Unknown Kw    # robotcode: ignore"].

Definition nested_pragma_lines : list string :=
  ["    Unknown Kw    # robotcode: robotcode: ignore"].

Definition Unknown_Kw_range : Range :=
  mkRange (mkPosition 0 4) (mkPosition 0 14).

(** Scenario S6: an assignment without a keyword. *)
Definition S6_call : Node :=
  KeywordCall [Token.mk Token.ASSIGN "${x}=" 3 4]
              (statement_range 3 [Token.mk Token.ASSIGN "${x}=" 3 4]).

(** A test case without a name, holding one call. *)
Definition unnamed_test : Node :=
  test_case 2 "" [call_line 3 ["Log"; "hi"]].

(** A call of a keyword without a source file. *)
Definition Remote_call : Node := call_line 3 ["Remote Kw"; "a"].

(** Calls whose nested keyword [One Arg] is given two arguments: after
    ELSE, and after the two condition arguments of Wait Until Keyword
    Succeeds. *)
Definition else_values : list string :=
  ["Run Keyword If"; "${x}"; "Log"; "hi"; "ELSE"; "One Arg"; "a"; "b"].

Definition else_call : Node := call_line 3 else_values.

Definition wait_values : list string :=
  ["Wait Until Keyword Succeeds"; "3x"; "1s"; "One Arg"; "a"; "b"].

Definition wait_call : Node := call_line 3 wait_values.

Definition tokens_of (node : Node) : list Token.t :=
  match node with
  | KeywordCall tokens _ => tokens
  | _ => []
  end.

(** A call whose nested keyword makes the finder raise. *)
Definition Boom_call : Node :=
  call_line 3 ["Run Keyword If"; "${x}"; "Boom"].

Definition Boom_model : Node :=
  Block (mkRange (mkPosition 0 0) (mkPosition 2 34))
        [test_case 2 "T" [Boom_call]].

End Examples.

(* ================================================================== *)
(** ** Predicates used in the statements                               *)
(* ================================================================== *)

(** [l'] is what is left of [l] when a prefix has been consumed. *)
Definition is_suffix {A} (l' l : list A) : Prop :=
  exists consumed, l = consumed ++ l'.

(** Induction on nodes, with the property known of every child. *)
Section NodeInduction.

Variable P : Node -> Prop.

Hypothesis P_KeywordCall : forall tokens r, P (KeywordCall tokens r).
Hypothesis P_Fixture : forall tokens r, P (Fixture tokens r).
Hypothesis P_Template : forall tokens r, P (Template tokens r).
Hypothesis P_TestTemplate : forall tokens r, P (TestTemplate tokens r).
Hypothesis P_Arguments : forall tokens r, P (Arguments tokens r).
Hypothesis P_Statement : forall tokens r, P (Statement tokens r).
Hypothesis P_TestCase :
  forall header r body, Forall P body -> P (TestCase header r body).
Hypothesis P_Keyword :
  forall header r body, Forall P body -> P (Keyword header r body).
Hypothesis P_Block : forall r body, Forall P body -> P (Block r body).

Fixpoint Node_induction (n : Node) : P n :=
  let all :=
    fix all (l : list Node) : Forall P l :=
      match l with
      | [] => Forall_nil P
      | x :: l' => Forall_cons x (Node_induction x) (all l')
      end in
  match n with
  | KeywordCall tokens r => P_KeywordCall tokens r
  | Fixture tokens r => P_Fixture tokens r
  | Template tokens r => P_Template tokens r
  | TestTemplate tokens r => P_TestTemplate tokens r
  | Arguments tokens r => P_Arguments tokens r
  | Statement tokens r => P_Statement tokens r
  | TestCase header r body => P_TestCase header r body (all body)
  | Keyword header r body => P_Keyword header r body (all body)
  | Block r body => P_Block r body (all body)
  end.

End NodeInduction.

(** [n] is [target], or a block without a name of its own (a loop, a
    branch) that holds [target] at some depth. *)
Inductive reaches (target : Node) : Node -> Prop :=
| reaches_self : reaches target target
| reaches_block r inner child :
    In child inner -> reaches target child ->
    reaches target (Block r inner).

(** [target] occurs in the body of a test case or keyword. *)
Definition occurs_in (target : Node) (body : list Node) : Prop :=
  exists child, In child body /\ reaches target child.

(** The hint that [visit_KeywordCall] passes to [append_diagnostics]. *)
Definition unreachable_hint (node : Node) (tokens : list Token.t)
    : Diagnostic :=
  mkDiagnostic
    (range_from_node_or_token node (get_token Token.ASSIGN tokens))
    "Code is unreachable." (Some HINT) None None (Some "robotcode")
    (Some [Unnecessary]) None None.

(** The error that [visit_TestCase] and [visit_Keyword] pass to
    [append_diagnostics] for a block without a name. *)
Definition empty_name_error (node : Node) (type : Token.kind)
    (header : list Token.t) (text : string) : Diagnostic :=
  mkDiagnostic
    (range_from_node_or_token node (get_token type header))
    text (Some ERROR) (Some "KeywordError") None (Some "robotcode")
    None None None.

(** The diagnostic has gone through [append_diagnostics]: it is in the
    results, unless the suppression scan has dropped it. *)
Definition emitted {ext : Externals} (d : Diagnostic) (s : AnalyzerState)
    : Prop :=
  should_ignore document (range d) = inr true \/ In d (_results s).

(** Visited to its end from a state whose block name is empty or absent,
    the node leaves such a state, and every keyword call it reaches has
    had its hint emitted. *)
Definition hints_when_unnamed {ext : Externals} (n : Node) : Prop :=
  forall s s',
    truthy (current_testcase_or_keyword_name s) = false ->
    visit n s = (Return tt, s') ->
    truthy (current_testcase_or_keyword_name s') = false
    /\ forall tokens kr,
         reaches (KeywordCall tokens kr) n ->
         emitted (unreachable_hint (KeywordCall tokens kr) tokens) s'.

(** The shape of a line that the comment pattern matches: text without a
    line feed, a run of blanks (spaces from the start of the line, or
    tabs, or two spaces and more), the hash, the comment without a line
    feed, and at most a final line feed. *)
Definition comment_shape (l before blanks comment tail : list ascii)
    : Prop :=
  l = before ++ blanks ++ "#"%char :: comment ++ tail
  /\ forallb re_dot before = true
  /\ forallb re_dot comment = true
  /\ (tail = [] \/ exists x, tail = [x] /\ re_dot x = false)
  /\ ((before = [] /\ forallb (is_char " "%char) blanks = true)
      \/ (blanks <> [] /\ forallb (is_char "009"%char) blanks = true)
      \/ (2 <= List.length blanks
          /\ forallb (is_char " "%char) blanks = true)).

(** The range lies within the lines of the document, if there is one. *)
Definition range_in_document (document : option (list string)) (r : Range)
    : Prop :=
  match document with
  | Some lines =>
      (0 <= line (start r))%Z
      /\ (line (end_ r) < Z.of_nat (List.length lines))%Z
  | None => True
  end.

(** A line of the document that the range covers asks for suppression,
    as [should_ignore] tests it. *)
Definition covered_line_is_ignored (document : option (list string))
    (r : Range) : Prop :=
  match document with
  | Some lines =>
      exists i l,
        (line (start r) <= i <= line (end_ r))%Z
        /\ nth_error lines (Z.to_nat i) = Some l
        /\ line_is_ignored l = true
  | None => False
  end.

(** An [_analyse_run_keyword] whose value is what is left of its input. *)
Definition returns_suffix (rk : run_keyword_analysis) : Prop :=
  forall d node B s B' s',
    rk d node B s = (Return B', s') -> is_suffix B' B.

(** A run that ends by returning. *)
Definition returns {A} (m : M A) (s : AnalyzerState) : Prop :=
  exists a s', m s = (Return a, s').

(** An environment whose collaborators raise nothing but what the handlers
    of [_analyze_keyword_call] catch: the finder always answers, and the
    resolver raises no exception that is re-raised. *)
Definition quiet (ext : Externals) : Prop :=
  (forall keyword, exists r, find_keyword keyword = inr r)
  /\ (forall spec values until named e,
         resolve spec values until named = Some e -> is_reraised e = false).

(** A run adds to the results, whatever it does to the block name. *)
Definition grows {A} (m : M A) (s : AnalyzerState) : Prop :=
  exists added, _results (snd (m s)) = _results s ++ added.

(** A run that ends by returning, or by raising one of the exceptions
    that the analyzer re-raises. *)
Definition only_reraises {A} (m : M A) (s : AnalyzerState) : Prop :=
  match fst (m s) with
  | Return _ => True
  | Raise e => is_reraised e = true
  | OutOfFuel => False
  end.

(** A run that does not stop on the bound of the embedding. *)
Definition safe {A} (m : M A) (s : AnalyzerState) : Prop :=
  fst (m s) <> OutOfFuel.

(** A run keeps what is already in [_results], adds at its end, and
    leaves [current_testcase_or_keyword_name] as it is. *)
Definition extends {A} (m : M A) (s : AnalyzerState) : Prop :=
  exists added,
    snd (m s)
    = mkState (_results s ++ added) (current_testcase_or_keyword_name s).

From Stdlib Require Import Permutation.

(* ================================================================== *)
(** ** lsp_types.py: the other methods of Position and Range           *)
(* ================================================================== *)

Definition Position__ne__ (self other : Position) : bool :=
  negb (Position__eq__ self other).

(** [Range.extend], each argument defaulting to zero in the source. *)
Definition Range_extend (self : Range)
    (start_line start_character end_line end_character : Z) : Range :=
  mkRange (mkPosition (line (start self) + start_line)
                      (character (start self) + start_character))
          (mkPosition (line (end_ self) + end_line)
                      (character (end_ self) + end_character)).

(** The operand of [x in range]: a position, a range, or an object of
    another class. *)
Inductive object :=
| a_Position (p : Position)
| a_Range (r : Range)
| another_object.

Definition Range__contains__ (self : Range) (x : object) : bool :=
  match x with
  | a_Position p => Position_is_in_range p self true
  | a_Range r => Range_is_in_range r self
  | another_object => false
  end.

(* ================================================================== *)
(** ** definition.py: templates, imports and the choice of a method    *)
(* ================================================================== *)

(** [LibraryDoc] and the entries of [namespace.get_libraries()] and
    [namespace.get_resources()], as far as the resolver reads them. *)
Module LibraryDoc.

Record t := mk {
  python_source : option string;
  range : Range
}.

End LibraryDoc.

Module LibraryEntry.

Record t := mk {
  import_name : string;
  args : list string;
  alias : option string;
  library_doc : LibraryDoc.t
}.

End LibraryEntry.

Definition option_string_eqb (a b : option string) : bool :=
  match a, b with
  | Some x, Some y => x =? y
  | None, None => true
  | _, _ => false
  end.

Fixpoint list_string_eqb (a b : list string) : bool :=
  match a, b with
  | [], [] => true
  | x :: a', y :: b' => (x =? y) && list_string_eqb a' b'
  | _, _ => false
  end.

(** A class, as [_find_method] reads it: [ast.AST] itself, or a class
    with its [__name__] and its [__bases__]. *)
#[local] Unset Elimination Schemes.

Inductive PyClass :=
| ast_AST
| class_ (name : string) (bases : list PyClass).

#[local] Set Elimination Schemes.

(** The names [X] for which [RobotDefinitionProtocolPart] declares a
    method [definition_X]; its base class, whose source is not at hand, is
    taken to declare none. *)
Definition definition_methods : list string :=
  ["KeywordCall"; "Fixture"; "TestTemplate"; "Template"; "LibraryImport";
   "ResourceImport"].

(** [hasattr(self, "definition_" + name)] and [callable]. *)
Definition has_definition_method (name : string) : bool :=
  existsb (String.eqb name) definition_methods.

(** [_find_method]: the method is known by its name. *)
Fixpoint _find_method (cls : PyClass) : option string :=
  match cls with
  | ast_AST => None
  | class_ name bases =>
      if has_definition_method name then Some ("definition_" ++ name)%string
      else
        (fix first_of (bases : list PyClass) : option string :=
           match bases with
           | [] => None
           | base :: rest =>
               match _find_method base with
               | Some method => Some method
               | None => first_of rest
               end
           end) bases
  end.

Section DefinitionOfTemplatesAndImports.

Context {ext : Externals}.

(** [node.value] of a [Template] or [TestTemplate] statement is the value
    of its NAME token. *)
Definition _definition_Template_or_TestTemplate (result_node : Node)
    (tokens : list Token.t) (position : Position)
    : option (list LocationLink) :=
  if truthy (get_value Token.NAME tokens) then
    match get_token Token.NAME tokens with
    | None => None
    | Some keyword_token =>
        if Position_is_in_range position (range_from_token keyword_token)
                                true
        then
          match get_namespace with
          | None => None
          | Some find =>
              match find (get_value Token.NAME tokens) with
              | Some keyword_doc =>
                  match KeywordDoc.source keyword_doc with
                  | Some src =>
                      Some [location_link result_node keyword_token
                                          keyword_doc src]
                  | None => None
                  end
              | None => None
              end
          end
        else None
    end
  else None.

Definition definition_TestTemplate (result_node : Node)
    (tokens : list Token.t) (position : Position)
    : option (list LocationLink) :=
  _definition_Template_or_TestTemplate result_node tokens position.

Definition definition_Template (result_node : Node)
    (tokens : list Token.t) (position : Position)
    : option (list LocationLink) :=
  _definition_Template_or_TestTemplate result_node tokens position.

(** The tail of [definition_LibraryImport] and
    [definition_ResourceImport], from [if len(libdocs) == 1:] on. *)
Definition link_to_the_only_libdoc (result_node : Node)
    (name_token : Token.t) (libdocs : list LibraryDoc.t)
    : option (list LocationLink) :=
  match libdocs with
  | [libdoc] =>
      match LibraryDoc.python_source libdoc with
      | Some python_source =>
          Some [mkLocationLink
                  (Some (range_from_token_or_node result_node name_token))
                  (Uri_from_path python_source)
                  (LibraryDoc.range libdoc) (LibraryDoc.range libdoc)]
      | None => None
      end
  | _ => None
  end.

(** [definition_LibraryImport], given the values of
    [namespace.get_libraries()] and [node.alias]; [node.name] is the value
    of the NAME token and [node.args] are the values of the ARGUMENT
    tokens. *)
Definition definition_LibraryImport (get_libraries : list LibraryEntry.t)
    (alias : option string) (result_node : Node) (tokens : list Token.t)
    (position : Position) : option (list LocationLink) :=
  let name := get_value Token.NAME tokens in
  if truthy name then
    match get_token Token.NAME tokens with
    | None => None
    | Some name_token =>
        if Position_is_in_range position (range_from_token name_token) true
        then
          match get_namespace with
          | None => None
          | Some _ =>
              link_to_the_only_libdoc result_node name_token
                (map LibraryEntry.library_doc
                   (filter
                      (fun entry =>
                         option_string_eqb
                           (Some (LibraryEntry.import_name entry)) name
                         && list_string_eqb (LibraryEntry.args entry)
                              (get_values Token.ARGUMENT tokens)
                         && option_string_eqb (LibraryEntry.alias entry)
                                              alias)
                      get_libraries))
          end
        else None
    end
  else None.

(** [definition_ResourceImport], given the values of
    [namespace.get_resources()]. *)
Definition definition_ResourceImport (get_resources : list LibraryEntry.t)
    (result_node : Node) (tokens : list Token.t) (position : Position)
    : option (list LocationLink) :=
  let name := get_value Token.NAME tokens in
  if truthy name then
    match get_token Token.NAME tokens with
    | None => None
    | Some name_token =>
        if Position_is_in_range position (range_from_token name_token) true
        then
          match get_namespace with
          | None => None
          | Some _ =>
              link_to_the_only_libdoc result_node name_token
                (map LibraryEntry.library_doc
                   (filter
                      (fun entry =>
                         option_string_eqb
                           (Some (LibraryEntry.import_name entry)) name)
                      get_resources))
          end
        else None
    end
  else None.

End DefinitionOfTemplatesAndImports.

(** The tokens that a node carries: those of the statement, or those of
    the header of a test case or keyword. *)
Definition own_tokens (n : Node) : list Token.t :=
  match n with
  | KeywordCall tokens _ | Fixture tokens _ | Template tokens _
  | TestTemplate tokens _ | Arguments tokens _ | Statement tokens _ => tokens
  | TestCase header _ _ | Keyword header _ _ => header
  | Block _ _ => []
  end.

Section CollectDefinitions.

Context {ext : Externals}.

(** What [collect_definitions] takes from modules that are not at hand:
    the nodes of the document's model in the order in which [walk] yields
    them, the class of each node, the values of
    [namespace.get_libraries()] and [namespace.get_resources()], and
    [node.alias] of an import. *)
Variable walked : list Node.
Variable class_of : Node -> PyClass.
Variables get_libraries get_resources : list LibraryEntry.t.
Variable alias_of : Node -> option string.

(** [await method(result_node, document, position)], for the method that
    [_find_method] has named. *)
Definition call_definition_method (method : string) (result_node : Node)
    (position : Position) : option (list LocationLink) :=
  let tokens := own_tokens result_node in
  if method =? "definition_KeywordCall"
  then definition_KeywordCall result_node tokens position
  else if method =? "definition_Fixture"
  then definition_Fixture result_node tokens position
  else if method =? "definition_TestTemplate"
  then definition_TestTemplate result_node tokens position
  else if method =? "definition_Template"
  then definition_Template result_node tokens position
  else if method =? "definition_LibraryImport"
  then definition_LibraryImport get_libraries (alias_of result_node)
                                result_node tokens position
  else if method =? "definition_ResourceImport"
  then definition_ResourceImport get_resources result_node tokens position
  else None.

(** [result_nodes]: the walked nodes whose range holds the position. *)
Definition result_nodes (position : Position) : list Node :=
  filter (fun node =>
            Position_is_in_range position (range_from_node node) true)
         walked.

Definition collect_definitions (position : Position)
    : option (list LocationLink) :=
  match result_nodes position with
  | [] => None
  | first :: _ =>
      let result_node := last (result_nodes position) first in
      match _find_method (class_of result_node) with
      | None => None
      | Some method => call_definition_method method result_node position
      end
  end.

End CollectDefinitions.

(* ================================================================== *)
(** ** Further predicates                                              *)
(* ================================================================== *)

(** A text without the hash character. *)
Definition hash_free (s : list ascii) : bool :=
  forallb (fun x => negb (is_char "#"%char x)) s.

(** The exception of an index outside a list. *)
Definition IndexError : exn :=
  Exception "IndexError" "list index out of range".

(** A run keeps what is already in [_results] and adds, at its end,
    diagnostics that all satisfy [P]. *)
Definition adds (P : Diagnostic -> Prop) {A} (m : M A) (s : AnalyzerState)
    : Prop :=
  exists added,
    _results (snd (m s)) = _results s ++ added /\ Forall P added.

(** What every call of [append_diagnostics] in [_analyze_keyword_call] and
    in [_analyse_run_keyword] passes, for a diagnostic that the scan has
    let through: the source name, a severity, no code description and no
    data, and either no tag or the tag Deprecated on a hint. *)
Definition call_diagnostic {ext : Externals} (d : Diagnostic) : Prop :=
  source d = Some DIAGNOSTICS_SOURCE_NAME
  /\ severity d <> None
  /\ code_description d = None
  /\ data d = None
  /\ should_ignore document (range d) = inr false
  /\ (tags d = None
      \/ (tags d = Some [Deprecated] /\ severity d = Some HINT)).

(** What the visitor appends: a diagnostic of a call, or the hint for
    unreachable code. *)
Definition analyzer_diagnostic {ext : Externals} (d : Diagnostic) : Prop :=
  call_diagnostic d
  \/ (should_ignore document (range d) = inr false
      /\ d = mkDiagnostic (range d) "Code is unreachable." (Some HINT) None
               None (Some DIAGNOSTICS_SOURCE_NAME) (Some [Unnecessary])
               None None).

(** The token that a statement with a [visit_] method analyses as a
    keyword. *)
Definition keyword_token_of (n : Node) : option Token.t :=
  match n with
  | KeywordCall tokens _ => get_token Token.KEYWORD tokens
  | Fixture tokens _ | Template tokens _ | TestTemplate tokens _ =>
      get_token Token.NAME tokens
  | _ => None
  end.

(** The range on which [visit_TestCase] and [visit_Keyword] report on the
    name of the block. *)
Definition header_range (n : Node) : option Range :=
  match n with
  | TestCase header _ _ =>
      Some (range_from_node_or_token n
              (get_token Token.TESTCASE_NAME header))
  | Keyword header _ _ =>
      Some (range_from_node_or_token n
              (get_token Token.KEYWORD_NAME header))
  | _ => None
  end.

(** The same collaborators with another argument resolver. *)
Definition with_resolver (ext : Externals)
    (resolver : ArgSpec -> list string -> option nat -> bool -> option exn)
    : Externals := {|
  document := @document ext;
  find_keyword := @find_keyword ext;
  resolve := resolver;
  is_not_variable_token := @is_not_variable_token ext;
  none_token_error := @none_token_error ext;
  unescape := @unescape ext;
  is_embedded_keyword := @is_embedded_keyword ext;
  Uri_from_path := @Uri_from_path ext;
  canceled := @canceled ext;
  get_namespace := @get_namespace ext;
  KeywordDoc_range := @KeywordDoc_range ext;
  RUN_KEYWORD_NAMES := @RUN_KEYWORD_NAMES ext;
  RUN_KEYWORD_WITH_CONDITION_NAMES := @RUN_KEYWORD_WITH_CONDITION_NAMES ext;
  RUN_KEYWORD_IF_NAME := @RUN_KEYWORD_IF_NAME ext;
  RUN_KEYWORDS_NAME := @RUN_KEYWORDS_NAME ext
|}.

(** A run leaves [current_testcase_or_keyword_name] as it is, or sets it
    to [None]. *)
Definition keeps_or_clears_name {A} (m : M A) (s : AnalyzerState) : Prop :=
  current_testcase_or_keyword_name (snd (m s))
  = current_testcase_or_keyword_name s
  \/ current_testcase_or_keyword_name (snd (m s)) = None.

(** The state after these diagnostics have been appended. *)
Definition appended (s : AnalyzerState) (l : list Diagnostic)
    : AnalyzerState :=
  mkState (_results s ++ l) (current_testcase_or_keyword_name s).

(** The diagnostics that [_analyze_keyword_call] passes to
    [append_diagnostics] when the finder has answered with [result] and
    has filled its buffer with [diagnostics], in the order of the calls:
    one for each entry of the buffer, then the one for a definition with
    errors, the one for a deprecated keyword, the one for an error
    handler, and the one for the exception of the argument resolver. *)
Definition keyword_diagnostics {ext : Externals}
    (result : option KeywordDoc.t) (diagnostics : list DiagnosticsEntry.t)
    (node : Node) (keyword_token : Token.t) (argument_tokens : list Token.t)
    : list Diagnostic :=
  let r := range_from_node_or_token node (Some keyword_token) in
  map (fun e =>
         mkDiagnostic r (DiagnosticsEntry.message e)
           (Some (DiagnosticsEntry.severity e)) (DiagnosticsEntry.code e)
           None (Some DIAGNOSTICS_SOURCE_NAME) None None None)
      diagnostics
  ++ match result with
     | None => []
     | Some result =>
         (match KeywordDoc.errors result with
          | [] => []
          | _ :: _ =>
              [mkDiagnostic r "Keyword definition contains errors."
                 (Some ERROR) None None (Some DIAGNOSTICS_SOURCE_NAME) None
                 (Some (related_information_of result)) None]
          end)
         ++ (if KeywordDoc.is_deprecated result
             then [mkDiagnostic r (deprecated_text result) (Some HINT) None
                     None (Some DIAGNOSTICS_SOURCE_NAME) (Some [Deprecated])
                     None None]
             else [])
         ++ (if KeywordDoc.is_error_handler result
             then [mkDiagnostic r (error_handler_text result) (Some ERROR)
                     None None (Some DIAGNOSTICS_SOURCE_NAME) None None None]
             else [])
         ++ (if is_template node then []
             else
               match KeywordDoc.arguments result with
               | Some spec =>
                   match resolve spec (map Token.value argument_tokens)
                                 (KeywordDoc.args_to_process result)
                                 (negb (KeywordDoc.is_any_run_keyword result))
                   with
                   | Some e =>
                       [mkDiagnostic
                          (resolve_error_range keyword_token argument_tokens)
                          (exn_str e) (Some ERROR) (Some (exn_qualname e))
                          None (Some DIAGNOSTICS_SOURCE_NAME) None None None]
                   | None => []
                   end
               | None => []
               end)
     end.

(** A run that returns after appending exactly these diagnostics. *)
Definition appends (l : list Diagnostic) (m : M unit) : Prop :=
  forall s, m s = (Return tt, appended s l).

(** The same collaborators with another keyword finder. *)
Definition with_finder (ext : Externals)
    (finder : option string
              -> exn + (option KeywordDoc.t * list DiagnosticsEntry.t))
    : Externals := {|
  document := @document ext;
  find_keyword := finder;
  resolve := @resolve ext;
  is_not_variable_token := @is_not_variable_token ext;
  none_token_error := @none_token_error ext;
  unescape := @unescape ext;
  is_embedded_keyword := @is_embedded_keyword ext;
  Uri_from_path := @Uri_from_path ext;
  canceled := @canceled ext;
  get_namespace := @get_namespace ext;
  KeywordDoc_range := @KeywordDoc_range ext;
  RUN_KEYWORD_NAMES := @RUN_KEYWORD_NAMES ext;
  RUN_KEYWORD_WITH_CONDITION_NAMES := @RUN_KEYWORD_WITH_CONDITION_NAMES ext;
  RUN_KEYWORD_IF_NAME := @RUN_KEYWORD_IF_NAME ext;
  RUN_KEYWORDS_NAME := @RUN_KEYWORDS_NAME ext
|}.

(** The same collaborators with another document. *)
Definition with_document (ext : Externals) (lines : option (list string))
    : Externals := {|
  document := lines;
  find_keyword := @find_keyword ext;
  resolve := @resolve ext;
  is_not_variable_token := @is_not_variable_token ext;
  none_token_error := @none_token_error ext;
  unescape := @unescape ext;
  is_embedded_keyword := @is_embedded_keyword ext;
  Uri_from_path := @Uri_from_path ext;
  canceled := @canceled ext;
  get_namespace := @get_namespace ext;
  KeywordDoc_range := @KeywordDoc_range ext;
  RUN_KEYWORD_NAMES := @RUN_KEYWORD_NAMES ext;
  RUN_KEYWORD_WITH_CONDITION_NAMES := @RUN_KEYWORD_WITH_CONDITION_NAMES ext;
  RUN_KEYWORD_IF_NAME := @RUN_KEYWORD_IF_NAME ext;
  RUN_KEYWORDS_NAME := @RUN_KEYWORDS_NAME ext
|}.

(** The nodes of a tree: the node, then those of its children. *)
Fixpoint subnodes (n : Node) : list Node :=
  n :: match n with
       | TestCase _ _ body | Keyword _ _ body | Block _ body =>
           flat_map subnodes body
       | _ => []
       end.

(** The token lies on a line of the document, if there is one. *)
Definition token_in_document (document : option (list string))
    (t : Token.t) : Prop :=
  range_in_document document (range_from_token t).

(** Every node of the model has its declared range, and every token it
    carries, within the lines of the document, if there is one. *)
Definition model_in_document (document : option (list string))
    (model : Node) : Prop :=
  forall n,
    In n (subnodes model) ->
    range_in_document document (range_from_node n)
    /\ Forall (token_in_document document) (own_tokens n).

(* ================================================================== *)
(** ** Further examples                                                *)
(* ================================================================== *)

Module MoreExamples.

(** A deprecated keyword without arguments, whose definition has an
    error, and of which the suite holds two definitions. *)
Definition Old_Kw : KeywordDoc.t :=
  KeywordDoc.mk "Old Kw" "" (Some "/suite/keywords.resource") 20
                (Some (mkArgSpec [])) true (Some "use New Kw") false None
                [ImportError.mk None None "Invalid argument"]
                KeywordDoc.NoFamily None.

Definition legacy_finder (name : option string)
    : exn + (option KeywordDoc.t * list DiagnosticsEntry.t) :=
  match name with
  | Some "Old Kw" =>
      inr (Some Old_Kw,
           [DiagnosticsEntry.mk "Multiple keywords with name 'Old Kw' found."
                                WARNING (Some "KeywordError/multiple")])
  | _ => Examples.quiet_finder name
  end.

Definition legacy_environment : Externals :=
  with_finder Examples.quiet_environment legacy_finder.

Definition Old_Kw_call : Node := Examples.call_line 3 ["Old Kw"; "a"].

(** A keyword from a library without a source file, with two errors. *)
Definition Broken_Kw : KeywordDoc.t :=
  KeywordDoc.mk "Broken Kw" "Remote" None (-1) None false None false None
                [ImportError.mk None None "No connection";
                 ImportError.mk (Some "/lib/remote.py") (Some 3%Z) "Bad name"]
                KeywordDoc.NoFamily None.

(** Two libraries of a namespace, and the statement that imports the
    first of them. *)
Definition Collections : LibraryEntry.t :=
  LibraryEntry.mk "Collections" [] None
    (LibraryDoc.mk (Some "/robot/libraries/Collections.py")
                   (mkRange (mkPosition 0 0) (mkPosition 0 0))).

Definition Far : LibraryEntry.t :=
  LibraryEntry.mk "Remote" ["http://host"] (Some "Far")
    (LibraryDoc.mk None (mkRange (mkPosition 0 0) (mkPosition 0 0))).

Definition Collections_import : Node :=
  Statement [Token.mk Token.NAME "Collections" 2 11]
            (mkRange (mkPosition 1 0) (mkPosition 1 22)).

(** A setup that runs [My Kw] through Run Keyword. *)
Definition setup_tokens : list Token.t :=
  [Token.mk Token.NAME "Run Keyword" 2 15;
   Token.mk Token.ARGUMENT "My Kw" 2 30].

Definition setup : Node :=
  Fixture setup_tokens (mkRange (mkPosition 1 0) (mkPosition 1 35)).

(** The classes of the parser's nodes, as far as the examples need
    them: every statement derives from [Statement], a setup from
    [Fixture], every block from [Block]. *)
Definition Statement_class : PyClass := class_ "Statement" [ast_AST].

Definition Block_class : PyClass := class_ "Block" [ast_AST].

Definition robot_class (n : Node) : PyClass :=
  match n with
  | KeywordCall _ _ => class_ "KeywordCall" [Statement_class]
  | Fixture _ _ =>
      class_ "Setup" [class_ "Fixture" [Statement_class]]
  | Template _ _ => class_ "Template" [Statement_class]
  | TestTemplate _ _ => class_ "TestTemplate" [Statement_class]
  | Arguments _ _ => class_ "Arguments" [Statement_class]
  | Statement _ _ => Statement_class
  | TestCase _ _ _ => class_ "TestCase" [Block_class]
  | Keyword _ _ _ => class_ "Keyword" [Block_class]
  | Block _ _ => Block_class
  end.

(** A suite whose one test calls [One Arg]. *)
Definition One_Arg_call : Node := Examples.call_line 3 ["One Arg"; "a"].

Definition One_Arg_model : Node :=
  Block (mkRange (mkPosition 0 0) (mkPosition 2 16))
        [Examples.test_case 2 "TC" [One_Arg_call]].

(** The quiet environment with the document of scenario S5: its third
    line carries the pragma. *)
Definition S5_environment : Externals :=
  with_document Examples.quiet_environment
    (Some (Examples.suite_lines
             "    Unknown Kw    # robotcode: ignore")).

(** The quiet environment with a document whose third line is the call
    of [Examples.else_call]. *)
Definition else_environment : Externals :=
  with_document Examples.quiet_environment
    (Some (Examples.suite_lines
             "    Run Keyword If    ${x}    Log    hi    ELSE    One Arg    a    b")).

End MoreExamples.

(** Induction on classes, with the property known of every base. *)
Section PyClassInduction.

Variable P : PyClass -> Prop.

Hypothesis P_AST : P ast_AST.
Hypothesis P_class :
  forall name bases, Forall P bases -> P (class_ name bases).

Fixpoint PyClass_induction (cls : PyClass) : P cls :=
  match cls with
  | ast_AST => P_AST
  | class_ name bases =>
      P_class name bases
        ((fix all (l : list PyClass) : Forall P l :=
            match l with
            | [] => Forall_nil P
            | x :: l' => Forall_cons x (PyClass_induction x) (all l')
            end) bases)
  end.

End PyClassInduction.

(** [cls] is [base], or inherits from it through its [__bases__]. *)
Inductive inherits_from (base : PyClass) : PyClass -> Prop :=
| inherits_self : inherits_from base base
| inherits_base name bases b :
    In b bases -> inherits_from base b ->
    inherits_from base (class_ name bases).

(** The one link of [links] starts at a token of [candidates] that the
    position is in, and leads to a keyword that [find] gives and that has
    a source. *)
Definition link_from {ext : Externals}
    (find : option string -> option KeywordDoc.t) (node : Node)
    (position : Position) (candidates : list Token.t)
    (links : list LocationLink) : Prop :=
  exists t doc src name,
    links = [location_link node t doc src]
    /\ In t candidates
    /\ Position_is_in_range position (range_from_token t) true = true
    /\ find name = Some doc
    /\ KeywordDoc.source doc = Some src.

(* ================================================================== *)
(** * Properties                                                       *)
(* ================================================================== *)

(* ================================================================== *)
(** ** Position: the order and the range test                          *)
(* ================================================================== *)

Section PositionOrder.

Local Open Scope Z_scope.

Ltac unfold_cmp :=
  unfold Position__lt__, Position__le__, Position__gt__, Position__ge__,
         Position__eq__, Position_is_in_range;
  rewrite ?Z.gtb_ltb, ?Z.geb_leb.

Ltac split_cmp :=
  repeat match goal with
         | |- context [?a <? ?b] => destruct (Z.ltb_spec a b)
         | |- context [?a <=? ?b] => destruct (Z.leb_spec a b)
         | |- context [?a =? ?b] => destruct (Z.eqb_spec a b)
         end.

Lemma Position__lt__spec (p q : Position) :
  Position__lt__ p q = true <->
  line p < line q \/ (line p = line q /\ character p < character q).
Proof. unfold_cmp; cbv zeta; split_cmp; intuition (try discriminate; lia). Qed.

Lemma Position__le__spec (p q : Position) :
  Position__le__ p q = true <->
  line p < line q \/ (line p = line q /\ character p <= character q).
Proof. unfold_cmp; cbv zeta; split_cmp; intuition (try discriminate; lia). Qed.

Lemma Position__gt__spec (p q : Position) :
  Position__gt__ p q = true <->
  line p > line q \/ (line p = line q /\ character p > character q).
Proof. unfold_cmp; cbv zeta; split_cmp; intuition (try discriminate; lia). Qed.

Lemma Position__ge__spec (p q : Position) :
  Position__ge__ p q = true <->
  line p > line q \/ (line p = line q /\ character p >= character q).
Proof. unfold_cmp; cbv zeta; split_cmp; intuition (try discriminate; lia). Qed.

Lemma Position_eq_fields (p q : Position) :
  line p = line q -> character p = character q -> p = q.
Proof. destruct p, q; simpl; intros; subst; reflexivity. Qed.

(** C9.  The four comparison operators of [Position] are the strict and
    the non-strict lexicographic order on (line, character) and their
    converses; [<=] is a total order (reflexive, antisymmetric,
    transitive, total) of which [<] is the strict part; and
    [is_in_range] includes [range.start], and includes [range.end]
    exactly when [include_end] is true. *)
Theorem Position_comparisons_are_lexicographic :
  forall p q : Position,
    (Position__lt__ p q = true <->
       line p < line q \/ (line p = line q /\ character p < character q))
    /\ (Position__le__ p q = true <->
          line p < line q \/ (line p = line q /\ character p <= character q))
    /\ (Position__gt__ p q = true <->
          line p > line q \/ (line p = line q /\ character p > character q))
    /\ (Position__ge__ p q = true <->
          line p > line q \/ (line p = line q /\ character p >= character q))
    /\ Position__gt__ p q = Position__lt__ q p
    /\ Position__ge__ p q = Position__le__ q p
    /\ Position__le__ p p = true
    /\ (Position__le__ p q = true -> Position__le__ q p = true -> p = q)
    /\ (forall r, Position__le__ p q = true -> Position__le__ q r = true ->
                  Position__le__ p r = true)
    /\ (Position__le__ p q = true \/ Position__le__ q p = true)
    /\ (Position__lt__ p q = true <->
          Position__le__ p q = true /\ p <> q)
    /\ (forall r : Range,
          (Position_is_in_range p r true = true <->
             Position__le__ (start r) p = true
             /\ Position__le__ p (end_ r) = true)
          /\ (Position_is_in_range p r false = true <->
                Position__le__ (start r) p = true
                /\ Position__lt__ p (end_ r) = true)
          /\ Position_is_in_range (start r) r true
             = Position__le__ (start r) (end_ r)
          /\ Position_is_in_range (end_ r) r true
             = Position__le__ (start r) (end_ r)
          /\ Position_is_in_range (end_ r) r false = false).
Proof.
  intros p q.
  split; [apply Position__lt__spec|].
  split; [apply Position__le__spec|].
  split; [apply Position__gt__spec|].
  split; [apply Position__ge__spec|].
  split.
  { unfold_cmp; cbv zeta.
    destruct (Z.eqb_spec (line p) (line q)), (Z.eqb_spec (line q) (line p));
      try lia; reflexivity. }
  split.
  { unfold_cmp; cbv zeta.
    destruct (Z.eqb_spec (line p) (line q)), (Z.eqb_spec (line q) (line p));
      try lia; reflexivity. }
  split; [apply Position__le__spec; lia|].
  split.
  { intros H1 H2. apply Position__le__spec in H1, H2.
    apply Position_eq_fields; lia. }
  split.
  { intros r H1 H2. apply Position__le__spec in H1, H2.
    apply Position__le__spec. lia. }
  split.
  { rewrite !Position__le__spec. lia. }
  split.
  { rewrite Position__lt__spec, Position__le__spec. split.
    - intros H. split; [lia|]. intros ->. lia.
    - intros [H Hne].
      destruct (Z.eq_dec (character p) (character q)) as [Hc|Hc]; [|lia].
      destruct H as [H|[Hl _]]; [lia|].
      exfalso. apply Hne. apply Position_eq_fields; assumption. }
  intros r.
  split; [unfold Position_is_in_range; apply andb_true_iff|].
  split; [unfold Position_is_in_range; apply andb_true_iff|].
  assert (Hrefl : forall x, Position__le__ x x = true)
    by (intros x; apply Position__le__spec; lia).
  assert (Hirr : forall x, Position__lt__ x x = false).
  { intros x. destruct (Position__lt__ x x) eqn:E; [|reflexivity].
    apply Position__lt__spec in E. lia. }
  unfold Position_is_in_range.
  rewrite !Hrefl, Hirr, andb_true_r, andb_false_r. simpl.
  repeat split; reflexivity.
Qed.

End PositionOrder.

(* ================================================================== *)
(** ** Facts about the monad                                           *)
(* ================================================================== *)

Section MonadFacts.

Context {A B : Type}.

Lemma bind_Return_inv (m : M A) (k : A -> M B) s b s' :
  bind m k s = (Return b, s') ->
  exists a s1, m s = (Return a, s1) /\ k a s1 = (Return b, s').
Proof.
  unfold bind. destruct (m s) as [[a|e|] s1]; intros H; try discriminate.
  exists a, s1. split; [reflexivity|exact H].
Qed.

Lemma bind_Return (m : M A) (k : A -> M B) s a s1 :
  m s = (Return a, s1) -> bind m k s = k a s1.
Proof. unfold bind. intros ->. reflexivity. Qed.

Lemma bind_ext (m1 m2 : M A) (k1 k2 : A -> M B) s :
  m1 s = m2 s ->
  (forall a s1, m1 s = (Return a, s1) -> k1 a s1 = k2 a s1) ->
  bind m1 k1 s = bind m2 k2 s.
Proof.
  intros Hm Hk. unfold bind. rewrite <- Hm.
  destruct (m1 s) as [[a|e|] s1] eqn:E; try reflexivity.
  apply Hk. reflexivity.
Qed.

Lemma safe_bind (m : M A) (k : A -> M B) s :
  safe m s ->
  (forall a s1, m s = (Return a, s1) -> safe (k a) s1) ->
  safe (bind m k) s.
Proof.
  unfold safe, bind. intros Hm Hk.
  destruct (m s) as [[a|e|] s1] eqn:E; simpl in *.
  - apply Hk. reflexivity.
  - discriminate.
  - congruence.
Qed.

Lemma extends_bind (m : M A) (k : A -> M B) s :
  extends m s ->
  (forall a s1, m s = (Return a, s1) -> extends (k a) s1) ->
  extends (bind m k) s.
Proof.
  unfold extends, bind. intros [d1 H1] Hk.
  destruct (m s) as [[a|e|] s1] eqn:E; simpl in *; try (exists d1; exact H1).
  destruct (Hk a s1 eq_refl) as [d2 H2].
  exists (d1 ++ d2). rewrite H2, H1, app_assoc. reflexivity.
Qed.

Lemma state_eta (s : AnalyzerState) :
  s = mkState (_results s ++ []) (current_testcase_or_keyword_name s).
Proof. destruct s. simpl. rewrite app_nil_r. reflexivity. Qed.

End MonadFacts.

Lemma safe_ret {A} (a : A) s : safe (ret a) s.
Proof. unfold safe, ret. simpl. discriminate. Qed.

Lemma safe_raise {A} e s : safe (@raise A e) s.
Proof. unfold safe, raise. simpl. discriminate. Qed.

Lemma safe_lift_result {A} (r : exn + A) s : safe (lift_result r) s.
Proof. destruct r; [apply safe_raise|apply safe_ret]. Qed.

Lemma safe_try_except {A} (m : M A) h s :
  safe m s -> (forall e s1, safe (h e) s1) -> safe (try_except m h) s.
Proof.
  unfold safe, try_except. intros Hm Hh.
  destruct (m s) as [[a|e|] s1]; simpl in *; try congruence.
  destruct (is_reraised e); [simpl; discriminate|apply Hh].
Qed.

Lemma safe_for_each {A} (xs : list A) body :
  (forall x s, safe (body x) s) -> forall s, safe (for_each xs body) s.
Proof.
  intros Hb. induction xs as [|x xs IH]; intros s; simpl.
  - apply safe_ret.
  - apply safe_bind; [apply Hb|]. intros _ s1 _. apply IH.
Qed.

Lemma extends_ret {A} (a : A) s : extends (ret a) s.
Proof. exists []. apply state_eta. Qed.

Lemma extends_raise {A} e s : extends (@raise A e) s.
Proof. exists []. apply state_eta. Qed.

Lemma extends_lift_result {A} (r : exn + A) s : extends (lift_result r) s.
Proof. destruct r; [apply extends_raise|apply extends_ret]. Qed.

Lemma extends_out_of_fuel {A} s : extends (@out_of_fuel A) s.
Proof. exists []. apply state_eta. Qed.

Lemma extends_try_except {A} (m : M A) h s :
  extends m s -> (forall e s1, extends (h e) s1) ->
  extends (try_except m h) s.
Proof.
  unfold extends, try_except. intros [d1 H1] Hh.
  destruct (m s) as [[a|e|] s1]; simpl in *; try (exists d1; exact H1).
  destruct (is_reraised e); [exists d1; exact H1|].
  destruct (Hh e s1) as [d2 H2].
  exists (d1 ++ d2). rewrite H2, H1, app_assoc. reflexivity.
Qed.

Lemma extends_for_each {A} (xs : list A) body :
  (forall x s, extends (body x) s) -> forall s, extends (for_each xs body) s.
Proof.
  intros Hb. induction xs as [|x xs IH]; intros s; simpl.
  - apply extends_ret.
  - apply extends_bind; [apply Hb|]. intros _ s1 _. apply IH.
Qed.

Lemma for_each_ext {A} (xs : list A) (b1 b2 : A -> M unit) :
  (forall x s, In x xs -> b1 x s = b2 x s) ->
  forall s, for_each xs b1 s = for_each xs b2 s.
Proof.
  induction xs as [|x xs IH]; intros Hb s; simpl; [reflexivity|].
  apply bind_ext.
  - apply Hb. left. reflexivity.
  - intros _ s1 _. apply IH. intros y s2 Hy. apply Hb. right. exact Hy.
Qed.

(* ================================================================== *)
(** ** Lists of tokens                                                 *)
(* ================================================================== *)

Lemma is_suffix_refl {A} (l : list A) : is_suffix l l.
Proof. exists []. reflexivity. Qed.

Lemma is_suffix_trans {A} (l1 l2 l3 : list A) :
  is_suffix l1 l2 -> is_suffix l2 l3 -> is_suffix l1 l3.
Proof.
  intros [p1 ->] [p2 ->]. exists (p2 ++ p1). rewrite app_assoc. reflexivity.
Qed.

Lemma is_suffix_nil {A} (l : list A) : is_suffix [] l.
Proof. exists l. rewrite app_nil_r. reflexivity. Qed.

Lemma is_suffix_skipn {A} n (l : list A) : is_suffix (skipn n l) l.
Proof. exists (firstn n l). symmetry. apply firstn_skipn. Qed.

Lemma is_suffix_length {A} (l' l : list A) :
  is_suffix l' l -> List.length l' <= List.length l.
Proof. intros [p ->]. rewrite length_app. lia. Qed.

Lemma skip_args_split (l : list Token.t) :
  l = fst (skip_args l) ++ snd (skip_args l).
Proof.
  induction l as [|t l IH]; simpl; [reflexivity|].
  destruct ((Token.value t =? "ELSE") || (Token.value t =? "ELSE IF"));
    simpl; [reflexivity|].
  destruct (skip_args l) as [r lft]; simpl in *. rewrite <- IH. reflexivity.
Qed.

Lemma is_suffix_skip_args (l : list Token.t) : is_suffix (snd (skip_args l)) l.
Proof. exists (fst (skip_args l)). apply skip_args_split. Qed.

Lemma Token_eqb_value (a b : Token.t) :
  Token_eqb a b = true -> Token.value a = Token.value b.
Proof.
  unfold Token_eqb. rewrite !andb_true_iff. intros [[[_ H] _] _].
  apply String.eqb_eq. exact H.
Qed.

Lemma Token_eqb_refl (a : Token.t) : Token_eqb a a = true.
Proof.
  unfold Token_eqb. rewrite String.eqb_refl, !Z.eqb_refl, !andb_true_r.
  destruct (Token.type a); reflexivity.
Qed.

(** The first token with value AND is where [index] finds the token that
    [next] returned, and no token before it has that value. *)
Lemma find_AND_split (args rest : list Token.t) (a : Token.t) :
  forallb (fun e => negb (is_AND e)) args = true ->
  is_AND a = true ->
  find is_AND (args ++ a :: rest) = Some a
  /\ list_index a (args ++ a :: rest) = Some (List.length args).
Proof.
  intros Hargs Ha. induction args as [|y args IH]; simpl in *.
  - rewrite Ha, Token_eqb_refl. split; reflexivity.
  - apply andb_true_iff in Hargs as [Hy Hargs].
    apply negb_true_iff in Hy. rewrite Hy.
    destruct (IH Hargs) as [IH1 IH2]. split; [exact IH1|].
    destruct (Token_eqb y a) eqn:E.
    + apply Token_eqb_value in E. unfold is_AND in *. congruence.
    + rewrite IH2. reflexivity.
Qed.

Lemma find_AND_inv (l : list Token.t) (a : Token.t) :
  find is_AND l = Some a ->
  exists args rest,
    l = args ++ a :: rest
    /\ forallb (fun e => negb (is_AND e)) args = true
    /\ is_AND a = true.
Proof.
  induction l as [|y l IH]; simpl; [discriminate|].
  destruct (is_AND y) eqn:E.
  - intros [= ->]. exists [], l. repeat split. exact E.
  - intros H. destruct (IH H) as (args & rest & -> & Hargs & Ha).
    exists (y :: args), rest. simpl. rewrite E. repeat split; assumption.
Qed.


Lemma firstn_app_exact {A} (l1 l2 : list A) :
  firstn (List.length l1) (l1 ++ l2) = l1.
Proof.
  rewrite firstn_app, Nat.sub_diag, firstn_all. simpl. apply app_nil_r.
Qed.

Lemma skipn_app_exact {A} (l1 : list A) a (l2 : list A) :
  skipn (List.length l1 + 1) (l1 ++ a :: l2) = l2.
Proof.
  induction l1 as [|x l1 IH]; simpl; [reflexivity|exact IH].
Qed.

(* ================================================================== *)
(** ** The analyzer never stops on the bound, and only adds results    *)
(* ================================================================== *)

Section AnalyzerFacts.

Context {ext : Externals}.

Lemma safe_append_diagnostics r m sev c cd src t ri d s :
  safe (append_diagnostics r m sev c cd src t ri d) s.
Proof.
  unfold append_diagnostics. apply safe_bind; [apply safe_lift_result|].
  intros [|] s1 _; [apply safe_ret|]. unfold safe, append_result. simpl.
  discriminate.
Qed.

Lemma extends_append_diagnostics r m sev c cd src t ri d s :
  extends (append_diagnostics r m sev c cd src t ri d) s.
Proof.
  unfold append_diagnostics. apply extends_bind; [apply extends_lift_result|].
  intros [|] s1 _; [apply extends_ret|]. unfold extends, append_result.
  simpl. eexists. reflexivity.
Qed.

Lemma safe_report_exception node kt e s : safe (report_exception node kt e) s.
Proof. apply safe_append_diagnostics. Qed.

Lemma extends_report_exception node kt e s :
  extends (report_exception node kt e) s.
Proof. apply extends_append_diagnostics. Qed.

Lemma safe_resolve_arguments result kt args s :
  safe (resolve_arguments result kt args) s.
Proof.
  unfold resolve_arguments. apply safe_try_except.
  - destruct (KeywordDoc.arguments result); [|apply safe_ret].
    destruct (resolve _ _ _ _); [apply safe_raise|apply safe_ret].
  - intros; apply safe_append_diagnostics.
Qed.

Lemma extends_resolve_arguments result kt args s :
  extends (resolve_arguments result kt args) s.
Proof.
  unfold resolve_arguments. apply extends_try_except.
  - destruct (KeywordDoc.arguments result); [|apply extends_ret].
    destruct (resolve _ _ _ _); [apply extends_raise|apply extends_ret].
  - intros; apply extends_append_diagnostics.
Qed.

Lemma safe_report_keyword result diags node kt args s :
  safe (report_keyword result diags node kt args) s.
Proof.
  unfold report_keyword. apply safe_bind.
  { apply safe_for_each. intros; apply safe_append_diagnostics. }
  intros _ s1 _. destruct result as [result|]; [|apply safe_ret].
  apply safe_bind.
  { destruct (KeywordDoc.errors result);
      [apply safe_ret|apply safe_append_diagnostics]. }
  intros _ s2 _. apply safe_bind.
  { destruct (KeywordDoc.is_deprecated result);
      [apply safe_append_diagnostics|apply safe_ret]. }
  intros _ s3 _. apply safe_bind.
  { destruct (KeywordDoc.is_error_handler result);
      [apply safe_append_diagnostics|apply safe_ret]. }
  intros _ s4 _. destruct (negb (is_template node));
    [apply safe_resolve_arguments|apply safe_ret].
Qed.

Lemma extends_report_keyword result diags node kt args s :
  extends (report_keyword result diags node kt args) s.
Proof.
  unfold report_keyword. apply extends_bind.
  { apply extends_for_each. intros; apply extends_append_diagnostics. }
  intros _ s1 _. destruct result as [result|]; [|apply extends_ret].
  apply extends_bind.
  { destruct (KeywordDoc.errors result);
      [apply extends_ret|apply extends_append_diagnostics]. }
  intros _ s2 _. apply extends_bind.
  { destruct (KeywordDoc.is_deprecated result);
      [apply extends_append_diagnostics|apply extends_ret]. }
  intros _ s3 _. apply extends_bind.
  { destruct (KeywordDoc.is_error_handler result);
      [apply extends_append_diagnostics|apply extends_ret]. }
  intros _ s4 _. destruct (negb (is_template node));
    [apply extends_resolve_arguments|apply extends_ret].
Qed.

(** *** [_analyze_keyword_call], for any [_analyse_run_keyword] *)

Lemma call_with_ext rk1 rk2 kw node kt args flag s :
  (forall d s1, rk1 d node args s1 = rk2 d node args s1) ->
  _analyze_keyword_call_with rk1 kw node kt args flag s
  = _analyze_keyword_call_with rk2 kw node kt args flag s.
Proof.
  intros H. unfold _analyze_keyword_call_with.
  destruct (negb (is_not_variable_token kt)); [reflexivity|].
  apply bind_ext; [reflexivity|].
  intros [[result diags]|] s1 _; [|reflexivity].
  apply bind_ext; [reflexivity|]. intros _ s2 _.
  destruct result; [|reflexivity]. destruct flag; [|reflexivity].
  apply bind_ext; [apply H|reflexivity].
Qed.

Lemma call_with_no_nesting rk1 rk2 kw node kt args s :
  _analyze_keyword_call_with rk1 kw node kt args false s
  = _analyze_keyword_call_with rk2 kw node kt args false s.
Proof.
  unfold _analyze_keyword_call_with.
  destruct (negb (is_not_variable_token kt)); [reflexivity|].
  apply bind_ext; [reflexivity|].
  intros [[result diags]|] s1 _; [|reflexivity].
  apply bind_ext; [reflexivity|]. intros _ s2 _.
  destruct result; reflexivity.
Qed.

Lemma safe_call_with rk kw node kt args flag s :
  (forall d s1, safe (rk d node args) s1) ->
  safe (_analyze_keyword_call_with rk kw node kt args flag) s.
Proof.
  intros H. unfold _analyze_keyword_call_with.
  destruct (negb (is_not_variable_token kt)); [apply safe_ret|].
  apply safe_bind.
  { apply safe_try_except.
    - apply safe_bind; [apply safe_lift_result|]. intros; apply safe_ret.
    - intros e s1. apply safe_bind; [apply safe_report_exception|].
      intros; apply safe_ret. }
  intros [[result diags]|] s1 _; [|apply safe_ret].
  apply safe_bind.
  { apply safe_try_except; [apply safe_report_keyword|].
    intros; apply safe_report_exception. }
  intros _ s2 _. destruct result; [|apply safe_ret].
  destruct flag; [|apply safe_ret].
  apply safe_bind; [apply H|]. intros; apply safe_ret.
Qed.

Lemma extends_call_with rk kw node kt args flag s :
  (forall d s1, extends (rk d node args) s1) ->
  extends (_analyze_keyword_call_with rk kw node kt args flag) s.
Proof.
  intros H. unfold _analyze_keyword_call_with.
  destruct (negb (is_not_variable_token kt)); [apply extends_ret|].
  apply extends_bind.
  { apply extends_try_except.
    - apply extends_bind; [apply extends_lift_result|].
      intros; apply extends_ret.
    - intros e s1. apply extends_bind; [apply extends_report_exception|].
      intros; apply extends_ret. }
  intros [[result diags]|] s1 _; [|apply extends_ret].
  apply extends_bind.
  { apply extends_try_except; [apply extends_report_keyword|].
    intros; apply extends_report_exception. }
  intros _ s2 _. destruct result; [|apply extends_ret].
  destruct flag; [|apply extends_ret].
  apply extends_bind; [apply H|]. intros; apply extends_ret.
Qed.

End AnalyzerFacts.

(* ================================================================== *)
(** ** The loops of the run-keyword machine                            *)
(* ================================================================== *)

Section LoopFacts.

Context {ext : Externals}.

Variables (rk1 rk2 : run_keyword_analysis) (node : Node).

Lemma run_keywords_loop_ext fuel :
  forall has_and A s,
    (forall B d s1, List.length B < List.length A ->
                    rk1 d node B s1 = rk2 d node B s1) ->
    run_keywords_loop rk1 fuel node has_and A s
    = run_keywords_loop rk2 fuel node has_and A s.
Proof.
  induction fuel as [|fuel IH]; intros has_and A s H; [reflexivity|].
  destruct A as [|t rest]; [reflexivity|]. cbn [run_keywords_loop].
  assert (Hrest : forall B d s1, List.length B < List.length rest ->
                                 rk1 d node B s1 = rk2 d node B s1).
  { intros B d s1 HB. apply H. simpl. lia. }
  destruct (is_AND t).
  { apply bind_ext; [reflexivity|]. intros _ s1 _. apply IH, Hrest. }
  destruct (negb (is_not_variable_token t)); [apply IH, Hrest|].
  destruct (find is_AND rest) as [a|].
  - destruct (list_index a rest) as [i|]; [|reflexivity].
    apply bind_ext.
    + apply call_with_ext. intros d s1. apply H. simpl.
      rewrite length_firstn. lia.
    + intros _ s1 _. apply IH. intros B d s2 HB. apply H. simpl.
      rewrite length_skipn in HB. lia.
  - destruct has_and.
    + apply bind_ext.
      * apply call_with_ext. intros d s1. apply H. simpl. lia.
      * intros _ s1 _. apply IH. simpl. intros B d s2 HB. lia.
    + apply bind_ext.
      * apply call_with_ext. intros d s1. apply H. simpl. lia.
      * intros _ s1 _. apply IH, Hrest.
Qed.


Lemma safe_run_keywords_loop :
  forall fuel has_and A s,
    List.length A < fuel ->
    (forall B d s1, List.length B < List.length A -> safe (rk1 d node B) s1) ->
    safe (run_keywords_loop rk1 fuel node has_and A) s.
Proof.
  induction fuel as [|fuel IH]; intros has_and A s Hf H; [lia|].
  destruct A as [|t rest]; [apply safe_ret|]. cbn [run_keywords_loop].
  simpl in Hf.
  assert (Hrest : forall B d s1, List.length B < List.length rest ->
                                 safe (rk1 d node B) s1).
  { intros B d s1 HB. apply H. simpl. lia. }
  destruct (is_AND t).
  { apply safe_bind; [apply safe_append_diagnostics|].
    intros _ s1 _. apply IH; [lia|exact Hrest]. }
  destruct (negb (is_not_variable_token t)); [apply IH; [lia|exact Hrest]|].
  destruct (find is_AND rest) as [a|].
  - destruct (list_index a rest) as [i|]; [|apply safe_raise].
    apply safe_bind.
    + apply safe_call_with. intros d s1. apply H. simpl.
      rewrite length_firstn. lia.
    + intros _ s1 _. apply IH; [rewrite length_skipn; lia|].
      intros B d s2 HB. apply H. simpl. rewrite length_skipn in HB. lia.
  - destruct has_and.
    + apply safe_bind.
      * apply safe_call_with. intros d s1. apply H. simpl. lia.
      * intros _ s1 _. apply IH; simpl; [lia|]. intros B d s2 HB. lia.
    + apply safe_bind.
      * apply safe_call_with. intros d s1. apply H. simpl. lia.
      * intros _ s1 _. apply IH; [lia|exact Hrest].
Qed.

Lemma extends_run_keywords_loop :
  (forall d B s1, extends (rk1 d node B) s1) ->
  forall fuel has_and A s,
    extends (run_keywords_loop rk1 fuel node has_and A) s.
Proof.
  intros H. induction fuel as [|fuel IH]; intros has_and A s;
    [apply extends_out_of_fuel|].
  destruct A as [|t rest]; [apply extends_ret|]. cbn [run_keywords_loop].
  destruct (is_AND t).
  { apply extends_bind; [apply extends_append_diagnostics|].
    intros; apply IH. }
  destruct (negb (is_not_variable_token t)); [apply IH|].
  destruct (find is_AND rest) as [a|].
  - destruct (list_index a rest) as [i|]; [|apply extends_raise].
    apply extends_bind; [apply extends_call_with; intros; apply H|].
    intros; apply IH.
  - destruct has_and;
      (apply extends_bind; [apply extends_call_with; intros; apply H|]);
      intros; apply IH.
Qed.

(** *** The branch keyword of ELSE and ELSE IF *)

Lemma analyse_branch_keyword_suffix result A s A' s' :
  returns_suffix rk1 ->
  analyse_branch_keyword rk1 result node A s = (Return A', s') ->
  is_suffix A' A.
Proof.
  intros Hrk. unfold analyse_branch_keyword.
  destruct result as [r|].
  - destruct (KeywordDoc.is_any_run_keyword r).
    + apply Hrk.
    + intros [= <- _]. apply is_suffix_refl.
  - intros [= <- _]. apply is_suffix_refl.
Qed.

Lemma analyse_branch_keyword_ext result A s :
  (forall d s1, rk1 d node A s1 = rk2 d node A s1) ->
  analyse_branch_keyword rk1 result node A s
  = analyse_branch_keyword rk2 result node A s.
Proof.
  intros H. unfold analyse_branch_keyword.
  destruct result as [r|]; [|reflexivity].
  destruct (KeywordDoc.is_any_run_keyword r); [apply H|reflexivity].
Qed.

Lemma safe_analyse_branch_keyword result A s :
  (forall d s1, safe (rk1 d node A) s1) ->
  safe (analyse_branch_keyword rk1 result node A) s.
Proof.
  intros H. unfold analyse_branch_keyword.
  destruct result as [r|]; [|apply safe_ret].
  destruct (KeywordDoc.is_any_run_keyword r); [apply H|apply safe_ret].
Qed.

Lemma extends_analyse_branch_keyword result A s :
  (forall d B s1, extends (rk1 d node B) s1) ->
  extends (analyse_branch_keyword rk1 result node A) s.
Proof.
  intros H. unfold analyse_branch_keyword.
  destruct result as [r|]; [|apply extends_ret].
  destruct (KeywordDoc.is_any_run_keyword r); [apply H|apply extends_ret].
Qed.

(** *** The loop of the Run Keyword If branch *)

Lemma run_keyword_if_loop_suffix :
  returns_suffix rk1 ->
  forall fuel A s A' s',
    run_keyword_if_loop rk1 fuel node A s = (Return A', s') ->
    is_suffix A' A.
Proof.
  intros Hrk. induction fuel as [|fuel IH]; intros A s A' s' H;
    [discriminate|].
  destruct A as [|t0 rest]; cbn [run_keyword_if_loop] in H.
  { injection H as <- _. apply is_suffix_refl. }
  destruct ((Token.value t0 =? "ELSE")
            && (1 <? List.length (t0 :: rest))%nat).
  { destruct (nth_error (t0 :: rest) 1) as [t1|];
      [|injection H as <- _; apply is_suffix_refl].
    apply bind_Return_inv in H as (result & s1 & _ & H).
    apply bind_Return_inv in H as (A1 & s2 & H1 & H).
    injection H as <- _.
    apply analyse_branch_keyword_suffix in H1; [|exact Hrk].
    eapply is_suffix_trans; [apply is_suffix_skip_args|].
    eapply is_suffix_trans; [exact H1|apply is_suffix_skipn]. }
  destruct ((Token.value t0 =? "ELSE IF")
            && (2 <? List.length (t0 :: rest))%nat).
  { destruct (nth_error (t0 :: rest) 2) as [t2|];
      [|injection H as <- _; apply is_suffix_refl].
    apply bind_Return_inv in H as (result & s1 & _ & H).
    apply bind_Return_inv in H as (A1 & s2 & H1 & H).
    apply IH in H.
    apply analyse_branch_keyword_suffix in H1; [|exact Hrk].
    eapply is_suffix_trans; [exact H|].
    eapply is_suffix_trans; [apply is_suffix_skip_args|].
    eapply is_suffix_trans; [exact H1|apply is_suffix_skipn]. }
  injection H as <- _. apply is_suffix_refl.
Qed.

Lemma run_keyword_if_loop_ext :
  returns_suffix rk1 ->
  forall fuel A s,
    (forall B d s1, List.length B < List.length A ->
                    rk1 d node B s1 = rk2 d node B s1) ->
    run_keyword_if_loop rk1 fuel node A s
    = run_keyword_if_loop rk2 fuel node A s.
Proof.
  intros Hrk. induction fuel as [|fuel IH]; intros A s H; [reflexivity|].
  destruct A as [|t0 rest]; [reflexivity|]. cbn [run_keyword_if_loop].
  destruct ((Token.value t0 =? "ELSE")
            && (1 <? List.length (t0 :: rest))%nat).
  { destruct (nth_error (t0 :: rest) 1) as [t1|]; [|reflexivity].
    apply bind_ext; [apply call_with_no_nesting|]. intros result s1 _.
    apply bind_ext; [|reflexivity].
    apply analyse_branch_keyword_ext. intros d s2. apply H.
    rewrite length_skipn. simpl. lia. }
  destruct ((Token.value t0 =? "ELSE IF")
            && (2 <? List.length (t0 :: rest))%nat).
  { destruct (nth_error (t0 :: rest) 2) as [t2|]; [|reflexivity].
    apply bind_ext; [apply call_with_no_nesting|]. intros result s1 _.
    apply bind_ext.
    - apply analyse_branch_keyword_ext. intros d s2. apply H.
      rewrite length_skipn. simpl. lia.
    - intros A1 s2 H1. apply IH. intros B d s3 HB. apply H.
      apply analyse_branch_keyword_suffix in H1; [|exact Hrk].
      apply is_suffix_length in H1. rewrite length_skipn in H1.
      pose proof (is_suffix_length _ _ (is_suffix_skip_args A1)).
      simpl in *. lia. }
  reflexivity.
Qed.

Lemma safe_run_keyword_if_loop :
  returns_suffix rk1 ->
  forall fuel A s,
    List.length A < fuel ->
    (forall B d s1, List.length B < List.length A -> safe (rk1 d node B) s1) ->
    safe (run_keyword_if_loop rk1 fuel node A) s.
Proof.
  intros Hrk. induction fuel as [|fuel IH]; intros A s Hf H; [lia|].
  destruct A as [|t0 rest]; [apply safe_ret|]. cbn [run_keyword_if_loop].
  assert (Hskip : forall n d s1, 0 < n ->
                                 safe (rk1 d node (skipn n (t0 :: rest))) s1).
  { intros n d s1 Hn. apply H. rewrite length_skipn. cbn [List.length]. lia. }
  destruct ((Token.value t0 =? "ELSE")
            && (1 <? List.length (t0 :: rest))%nat).
  { destruct (nth_error (t0 :: rest) 1) as [t1|]; [|apply safe_ret].
    apply safe_bind; [apply safe_call_with; intros; apply Hskip; lia|].
    intros result s1 _.
    apply safe_bind;
      [apply safe_analyse_branch_keyword; intros; apply Hskip; lia|].
    intros; apply safe_ret. }
  destruct ((Token.value t0 =? "ELSE IF")
            && (2 <? List.length (t0 :: rest))%nat).
  { destruct (nth_error (t0 :: rest) 2) as [t2|]; [|apply safe_ret].
    apply safe_bind; [apply safe_call_with; intros; apply Hskip; lia|].
    intros result s1 _.
    apply safe_bind;
      [apply safe_analyse_branch_keyword; intros; apply Hskip; lia|].
    intros A1 s2 H1.
    apply analyse_branch_keyword_suffix in H1; [|exact Hrk].
    apply is_suffix_length in H1. rewrite length_skipn in H1.
    pose proof (is_suffix_length _ _ (is_suffix_skip_args A1)).
    simpl in *.
    apply IH; [lia|]. intros B d s3 HB. apply H. simpl. lia. }
  apply safe_ret.
Qed.

Lemma extends_run_keyword_if_loop :
  (forall d B s1, extends (rk1 d node B) s1) ->
  forall fuel A s, extends (run_keyword_if_loop rk1 fuel node A) s.
Proof.
  intros H. induction fuel as [|fuel IH]; intros A s;
    [apply extends_out_of_fuel|].
  destruct A as [|t0 rest]; [apply extends_ret|]. cbn [run_keyword_if_loop].
  destruct ((Token.value t0 =? "ELSE")
            && (1 <? List.length (t0 :: rest))%nat).
  { destruct (nth_error (t0 :: rest) 1) as [t1|]; [|apply extends_ret].
    apply extends_bind; [apply extends_call_with; intros; apply H|].
    intros result s1 _.
    apply extends_bind; [apply extends_analyse_branch_keyword, H|].
    intros; apply extends_ret. }
  destruct ((Token.value t0 =? "ELSE IF")
            && (2 <? List.length (t0 :: rest))%nat).
  { destruct (nth_error (t0 :: rest) 2) as [t2|]; [|apply extends_ret].
    apply extends_bind; [apply extends_call_with; intros; apply H|].
    intros result s1 _.
    apply extends_bind; [apply extends_analyse_branch_keyword, H|].
    intros; apply IH. }
  apply extends_ret.
Qed.

End LoopFacts.

(* ================================================================== *)
(** ** The run-keyword machine: what is returned, and the bound         *)
(* ================================================================== *)

Section MachineFacts.

Context {ext : Externals}.

Lemma nth_error_skipn_shorter {A} (l : list A) n x :
  nth_error l n = Some x -> List.length (skipn (n + 1) l) < List.length l.
Proof.
  intros H. assert (n < List.length l) by (apply nth_error_Some; congruence).
  rewrite length_skipn. lia.
Qed.

Lemma with_suffix rk :
  returns_suffix rk -> returns_suffix (_analyse_run_keyword_with rk).
Proof.
  intros Hrk d node A s A' s' H. unfold _analyse_run_keyword_with in H.
  destruct d as [doc|]; [|injection H as <- _; apply is_suffix_refl].
  destruct (negb (KeywordDoc.is_any_run_keyword doc));
    [injection H as <- _; apply is_suffix_refl|].
  destruct (KeywordDoc.is_run_keyword doc && _).
  { destruct (nth_error A 0) as [t|];
      [|injection H as <- _; apply is_suffix_refl].
    apply bind_Return_inv in H as (r & s1 & _ & H).
    injection H as <- _. apply (is_suffix_skipn 1). }
  destruct (KeywordDoc.is_run_keyword_with_condition doc && _).
  { cbv zeta in H.
    destruct (nth_error A (KeywordDoc.run_keyword_condition_count doc))
      as [t|]; [|injection H as <- _; apply is_suffix_refl].
    apply bind_Return_inv in H as (r & s1 & _ & H).
    injection H as <- _. apply is_suffix_skipn. }
  destruct (KeywordDoc.is_run_keywords doc).
  { apply bind_Return_inv in H as (r & s1 & _ & H).
    injection H as <- _. apply is_suffix_nil. }
  destruct (KeywordDoc.is_run_keyword_if doc && _);
    [|injection H as <- _; apply is_suffix_refl].
  destruct (nth_error A 1) as [kwt|];
    [|injection H as <- _; apply is_suffix_refl].
  apply bind_Return_inv in H as (found & s1 & _ & H).
  apply bind_Return_inv in H as (A1 & s2 & H1 & H).
  apply run_keyword_if_loop_suffix in H; [|exact Hrk].
  eapply is_suffix_trans; [exact H|].
  eapply is_suffix_trans; [|apply (is_suffix_skipn 2)].
  destruct (match fst found with
            | Some r => KeywordDoc.is_any_run_keyword r
            | None => false
            end).
  - eapply Hrk. exact H1.
  - pose proof (is_suffix_skip_args (skipn 2 A)) as Hs.
    destruct (skip_args (skipn 2 A)) as [args left]. simpl in Hs.
    apply bind_Return_inv in H1 as (u & s3 & _ & H1).
    injection H1 as <- _. exact Hs.
Qed.

Lemma with_ext rk1 rk2 d node A s :
  returns_suffix rk1 ->
  (forall B d' s1, List.length B < List.length A ->
                   rk1 d' node B s1 = rk2 d' node B s1) ->
  _analyse_run_keyword_with rk1 d node A s
  = _analyse_run_keyword_with rk2 d node A s.
Proof.
  intros Hrk H. unfold _analyse_run_keyword_with.
  destruct d as [doc|]; [|reflexivity].
  destruct (negb (KeywordDoc.is_any_run_keyword doc)); [reflexivity|].
  destruct (KeywordDoc.is_run_keyword doc && _).
  { destruct (nth_error A 0) as [t|] eqn:E; [|reflexivity].
    apply bind_ext; [|reflexivity]. apply call_with_ext. intros d s1.
    apply H. apply (nth_error_skipn_shorter A 0 t E). }
  destruct (KeywordDoc.is_run_keyword_with_condition doc && _).
  { cbv zeta.
    destruct (nth_error A (KeywordDoc.run_keyword_condition_count doc))
      as [t|] eqn:E; [|reflexivity].
    apply bind_ext; [|reflexivity]. apply call_with_ext. intros d s1.
    apply H. apply (nth_error_skipn_shorter A _ t E). }
  destruct (KeywordDoc.is_run_keywords doc).
  { apply bind_ext; [|reflexivity]. apply run_keywords_loop_ext. exact H. }
  destruct (KeywordDoc.is_run_keyword_if doc && _); [|reflexivity].
  destruct (nth_error A 1) as [kwt|] eqn:E; [|reflexivity].
  apply bind_ext; [reflexivity|]. intros found s1 _.
  pose proof (nth_error_skipn_shorter A 1 kwt E
              : List.length (skipn 2 A) < List.length A) as Hlen.
  assert (Hfirst :
            forall s1,
              (if match fst found with
                  | Some r => KeywordDoc.is_any_run_keyword r
                  | None => false
                  end
               then rk1 (fst found) node (skipn 2 A)
               else
                 let (args, left) := skip_args (skipn 2 A) in
                 (if is_not_variable_token kwt
                  then _analyze_keyword_call_with rk1
                         (Some (unescape (Token.value kwt))) node kwt
                         args false ;; ret tt
                  else ret tt) ;;
                 ret left) s1
              = (if match fst found with
                    | Some r => KeywordDoc.is_any_run_keyword r
                    | None => false
                    end
                 then rk2 (fst found) node (skipn 2 A)
                 else
                   let (args, left) := skip_args (skipn 2 A) in
                   (if is_not_variable_token kwt
                    then _analyze_keyword_call_with rk2
                           (Some (unescape (Token.value kwt))) node kwt
                           args false ;; ret tt
                    else ret tt) ;;
                   ret left) s1).
  { intros s2.
    destruct (match fst found with
              | Some r => KeywordDoc.is_any_run_keyword r
              | None => false
              end); [apply H; exact Hlen|].
    destruct (skip_args (skipn 2 A)) as [args left].
    apply bind_ext; [|reflexivity].
    destruct (is_not_variable_token kwt); [|reflexivity].
    apply bind_ext; [apply call_with_no_nesting|reflexivity]. }
  apply bind_ext; [apply Hfirst|]. intros A1 s2 H1.
  apply run_keyword_if_loop_ext; [exact Hrk|].
  intros B d' s3 HB. apply H.
  enough (is_suffix A1 (skipn 2 A)) as Hs
      by (apply is_suffix_length in Hs; lia).
  destruct (match fst found with
            | Some r => KeywordDoc.is_any_run_keyword r
            | None => false
            end).
  - eapply Hrk. exact H1.
  - pose proof (is_suffix_skip_args (skipn 2 A)) as Hs.
    destruct (skip_args (skipn 2 A)) as [args left]. simpl in Hs.
    apply bind_Return_inv in H1 as (u & s3' & _ & H1).
    injection H1 as <- _. exact Hs.
Qed.

Lemma with_safe rk d node A s :
  returns_suffix rk ->
  (forall B d' s1, List.length B < List.length A -> safe (rk d' node B) s1) ->
  safe (_analyse_run_keyword_with rk d node A) s.
Proof.
  intros Hrk H. unfold _analyse_run_keyword_with.
  destruct d as [doc|]; [|apply safe_ret].
  destruct (negb (KeywordDoc.is_any_run_keyword doc)); [apply safe_ret|].
  destruct (KeywordDoc.is_run_keyword doc && _).
  { destruct (nth_error A 0) as [t|] eqn:E; [|apply safe_ret].
    apply safe_bind; [|intros; apply safe_ret].
    apply safe_call_with. intros d s1.
    apply H. apply (nth_error_skipn_shorter A 0 t E). }
  destruct (KeywordDoc.is_run_keyword_with_condition doc && _).
  { cbv zeta.
    destruct (nth_error A (KeywordDoc.run_keyword_condition_count doc))
      as [t|] eqn:E; [|apply safe_ret].
    apply safe_bind; [|intros; apply safe_ret].
    apply safe_call_with. intros d s1.
    apply H. apply (nth_error_skipn_shorter A _ t E). }
  destruct (KeywordDoc.is_run_keywords doc).
  { apply safe_bind; [|intros; apply safe_ret].
    apply safe_run_keywords_loop; [lia|exact H]. }
  destruct (KeywordDoc.is_run_keyword_if doc && _); [|apply safe_ret].
  destruct (nth_error A 1) as [kwt|] eqn:E; [|apply safe_ret].
  apply safe_bind; [apply safe_lift_result|]. intros found s1 _.
  pose proof (nth_error_skipn_shorter A 1 kwt E
              : List.length (skipn 2 A) < List.length A) as Hlen.
  apply safe_bind.
  { destruct (match fst found with
              | Some r => KeywordDoc.is_any_run_keyword r
              | None => false
              end); [apply H; exact Hlen|].
    pose proof (skip_args_split (skipn 2 A)) as Hs.
    destruct (skip_args (skipn 2 A)) as [args left]. cbn [fst snd] in Hs.
    apply (f_equal (@List.length _)) in Hs. rewrite length_app in Hs.
    apply safe_bind; [|intros; apply safe_ret].
    destruct (is_not_variable_token kwt); [|apply safe_ret].
    apply safe_bind; [|intros; apply safe_ret].
    apply safe_call_with. intros d s2. apply H. lia. }
  intros A1 s2 H1.
  assert (Hs : is_suffix A1 (skipn 2 A)).
  { destruct (match fst found with
              | Some r => KeywordDoc.is_any_run_keyword r
              | None => false
              end).
    - eapply Hrk. exact H1.
    - pose proof (is_suffix_skip_args (skipn 2 A)) as Hs.
      destruct (skip_args (skipn 2 A)) as [args left]. simpl in Hs.
      apply bind_Return_inv in H1 as (u & s3' & _ & H1).
      injection H1 as <- _. exact Hs. }
  apply is_suffix_length in Hs.
  apply safe_run_keyword_if_loop; [exact Hrk|lia|].
  intros B d' s3 HB. apply H. lia.
Qed.

Lemma with_extends rk d node A s :
  (forall d' B s1, extends (rk d' node B) s1) ->
  extends (_analyse_run_keyword_with rk d node A) s.
Proof.
  intros H. unfold _analyse_run_keyword_with.
  destruct d as [doc|]; [|apply extends_ret].
  destruct (negb (KeywordDoc.is_any_run_keyword doc)); [apply extends_ret|].
  destruct (KeywordDoc.is_run_keyword doc && _).
  { destruct (nth_error A 0) as [t|]; [|apply extends_ret].
    apply extends_bind; [|intros; apply extends_ret].
    apply extends_call_with. intros; apply H. }
  destruct (KeywordDoc.is_run_keyword_with_condition doc && _).
  { cbv zeta.
    destruct (nth_error A (KeywordDoc.run_keyword_condition_count doc))
      as [t|]; [|apply extends_ret].
    apply extends_bind; [|intros; apply extends_ret].
    apply extends_call_with. intros; apply H. }
  destruct (KeywordDoc.is_run_keywords doc).
  { apply extends_bind; [|intros; apply extends_ret].
    apply extends_run_keywords_loop. exact H. }
  destruct (KeywordDoc.is_run_keyword_if doc && _); [|apply extends_ret].
  destruct (nth_error A 1) as [kwt|]; [|apply extends_ret].
  apply extends_bind; [apply extends_lift_result|]. intros found s1 _.
  apply extends_bind.
  { destruct (match fst found with
              | Some r => KeywordDoc.is_any_run_keyword r
              | None => false
              end); [apply H|].
    destruct (skip_args (skipn 2 A)) as [args left].
    apply extends_bind; [|intros; apply extends_ret].
    destruct (is_not_variable_token kwt); [|apply extends_ret].
    apply extends_bind; [|intros; apply extends_ret].
    apply extends_call_with. intros; apply H. }
  intros A1 s2 _. apply extends_run_keyword_if_loop. exact H.
Qed.

(** Whatever the bound, a returned list is what is left of the input. *)
Lemma analyse_suffix fuel : returns_suffix (_analyse_run_keyword_fuel fuel).
Proof.
  induction fuel as [|fuel IH].
  - intros d node B s B' s' H. discriminate.
  - apply with_suffix. exact IH.
Qed.

(** A bound above the length of the input is never reached. *)
Lemma analyse_safe fuel :
  forall A d node s,
    List.length A < fuel -> safe (_analyse_run_keyword_fuel fuel d node A) s.
Proof.
  induction fuel as [|fuel IH]; intros A d node s H; [lia|].
  apply with_safe; [apply analyse_suffix|].
  intros B d' s1 HB. apply IH. lia.
Qed.

(** Two bounds above the length of the input give the same run. *)
Lemma analyse_fuel n :
  forall m A d node s,
    List.length A < n -> List.length A < m ->
    _analyse_run_keyword_fuel n d node A s
    = _analyse_run_keyword_fuel m d node A s.
Proof.
  induction n as [|n IH]; intros m A d node s Hn Hm; [lia|].
  destruct m as [|m]; [lia|].
  apply with_ext; [apply analyse_suffix|].
  intros B d' s1 HB. apply IH; lia.
Qed.

Lemma analyse_extends fuel :
  forall d node A s, extends (_analyse_run_keyword_fuel fuel d node A) s.
Proof.
  induction fuel as [|fuel IH]; intros d node A s.
  - apply extends_out_of_fuel.
  - apply with_extends. intros; apply IH.
Qed.

(** [_analyze_keyword_call] with any bound above the number of
    arguments. *)
Lemma call_fuel n kw node kt args flag s :
  List.length args < n ->
  _analyze_keyword_call_with (_analyse_run_keyword_fuel n) kw node kt args
                             flag s
  = _analyze_keyword_call kw node kt args flag s.
Proof.
  intros H. apply call_with_ext. intros d s1. apply analyse_fuel; lia.
Qed.

Lemma safe_analyze_keyword_call kw node kt args flag s :
  safe (_analyze_keyword_call kw node kt args flag) s.
Proof.
  apply safe_call_with. intros d s1. apply analyse_safe. lia.
Qed.

Lemma extends_analyze_keyword_call kw node kt args flag s :
  extends (_analyze_keyword_call kw node kt args flag) s.
Proof. apply extends_call_with. intros; apply analyse_extends. Qed.


End MachineFacts.

(* ================================================================== *)
(** ** Runs that return                                                *)
(* ================================================================== *)

Section Returns.

Context {ext : Externals}.

Lemma returns_ret {A} (a : A) s : returns (ret a) s.
Proof. exists a, s. reflexivity. Qed.

Lemma returns_bind {A B} (m : M A) (k : A -> M B) s :
  returns m s -> (forall a s1, m s = (Return a, s1) -> returns (k a) s1) ->
  returns (bind m k) s.
Proof.
  intros (a & s1 & Hm) Hk. destruct (Hk a s1 Hm) as (b & s2 & Hb).
  exists b, s2. unfold bind. rewrite Hm. exact Hb.
Qed.

Lemma returns_for_each {A} (xs : list A) body :
  (forall x s, returns (body x) s) -> forall s, returns (for_each xs body) s.
Proof.
  intros Hb. induction xs as [|x xs IH]; intros s; cbn [for_each].
  - apply returns_ret.
  - apply returns_bind; [apply Hb|]. intros; apply IH.
Qed.

Lemma returns_try_except {A} (m : M A) h s :
  returns m s -> returns (try_except m h) s.
Proof.
  intros (a & s1 & H). exists a, s1. unfold try_except. rewrite H.
  reflexivity.
Qed.

Lemma returns_analyse_branch_keyword rk node result A s :
  (forall d s1, returns (rk d node A) s1) ->
  returns (analyse_branch_keyword rk result node A) s.
Proof.
  intros H. unfold analyse_branch_keyword.
  destruct result as [r|]; [|apply returns_ret].
  destruct (KeywordDoc.is_any_run_keyword r); [apply H|apply returns_ret].
Qed.

Lemma returns_named_block (m : M unit) name s :
  (forall s0, returns m s0) ->
  returns (fun s1 =>
             try_finally m (set_current_testcase_or_keyword_name None)
                         (set_current_testcase_or_keyword_name name s1)) s.
Proof.
  intros H. unfold returns, try_finally.
  destruct (H (set_current_testcase_or_keyword_name name s))
    as (a & s2 & ->).
  eexists _, _. reflexivity.
Qed.

Lemma returns_for_each_all {A} (xs : list A) body :
  Forall (fun x => forall s, returns (body x) s) xs ->
  forall s, returns (for_each xs body) s.
Proof.
  induction 1 as [|x xs Hx _ IH]; intros s; cbn [for_each].
  - apply returns_ret.
  - apply returns_bind; [apply Hx|]. intros; apply IH.
Qed.

End Returns.

(* ================================================================== *)
(** ** The run-keyword machine: the claims                             *)
(* ================================================================== *)

Section RunKeywordFamily.

Context {ext : Externals}.

Variables (doc : KeywordDoc.t) (node : Node).

Lemma run_keyword_literal t rest s :
  KeywordDoc.run_keyword_family doc = KeywordDoc.RunKeyword ->
  is_not_variable_token t = true ->
  _analyse_run_keyword (Some doc) node (t :: rest) s
  = (_analyze_keyword_call (Some (unescape (Token.value t))) node t rest
                           true ;;
     ret rest) s.
Proof.
  intros Hfam Ht. unfold _analyse_run_keyword. cbn [_analyse_run_keyword_fuel].
  unfold _analyse_run_keyword_with, KeywordDoc.is_any_run_keyword,
         KeywordDoc.is_run_keyword.
  rewrite Hfam. cbn [negb nth_error andb]. rewrite Ht. reflexivity.
Qed.

Lemma run_keyword_variable A s :
  KeywordDoc.run_keyword_family doc = KeywordDoc.RunKeyword ->
  match A with
  | t :: _ => is_not_variable_token t = false
  | [] => True
  end ->
  _analyse_run_keyword (Some doc) node A s = (Return A, s).
Proof.
  intros Hfam HA. unfold _analyse_run_keyword. cbn [_analyse_run_keyword_fuel].
  unfold _analyse_run_keyword_with, KeywordDoc.is_any_run_keyword,
         KeywordDoc.is_run_keyword, KeywordDoc.is_run_keyword_with_condition,
         KeywordDoc.is_run_keywords, KeywordDoc.is_run_keyword_if.
  rewrite Hfam. destruct A as [|t rest]; cbn [negb nth_error andb].
  - reflexivity.
  - rewrite HA. reflexivity.
Qed.

End RunKeywordFamily.

(** C1, as the code has it.  For a keyword of the Run Keyword family and
    argument tokens [A]: when [A[0]] is literal, the machine analyses the
    unescaped [A[0].value] as a keyword call with keyword token [A[0]] and
    arguments [A[1..]], and returns [A[1..]], so it consumes the keyword
    token alone; when [A] is empty or [A[0]] bears a variable, it does
    nothing and returns [A]. *)
Theorem run_keyword_consumes_the_keyword_token :
  forall (ext : Externals) (doc : KeywordDoc.t) (node : Node)
         (A : list Token.t) (s : AnalyzerState),
    KeywordDoc.run_keyword_family doc = KeywordDoc.RunKeyword ->
    match A with
    | t :: rest =>
        if is_not_variable_token t
        then _analyse_run_keyword (Some doc) node A s
             = (_analyze_keyword_call (Some (unescape (Token.value t))) node
                                      t rest true ;;
                ret rest) s
        else _analyse_run_keyword (Some doc) node A s = (Return A, s)
    | [] => _analyse_run_keyword (Some doc) node A s = (Return A, s)
    end.
Proof.
  intros ext doc node A s Hfam. destruct A as [|t rest].
  - apply run_keyword_variable; [exact Hfam|exact I].
  - destruct (is_not_variable_token t) eqn:Ht.
    + apply run_keyword_literal; assumption.
    + apply run_keyword_variable; assumption.
Qed.

Lemma run_keyword_consumes_the_keyword_token_witness :
  KeywordDoc.run_keyword_family Examples.Run_Keyword = KeywordDoc.RunKeyword
  /\ @_analyse_run_keyword (Examples.environment None)
       (Some Examples.Run_Keyword) Examples.S3_call
       (Examples.cells Token.ARGUMENT 3 20 ["Log"; "hi"]) (mkState [] None)
     = (@_analyze_keyword_call (Examples.environment None) (Some "Log")
          Examples.S3_call (Token.mk Token.ARGUMENT "Log" 3 20)
          (Examples.cells Token.ARGUMENT 3 27 ["hi"]) true ;;
        ret (Examples.cells Token.ARGUMENT 3 27 ["hi"])) (mkState [] None).
Proof.
  split; [reflexivity|].
  exact (run_keyword_consumes_the_keyword_token
           (Examples.environment None) Examples.Run_Keyword Examples.S3_call
           (Examples.cells Token.ARGUMENT 3 20 ["Log"; "hi"])
           (mkState [] None) eq_refl).
Defined.

(** C1, as the claim has it, fails: for [Run Keyword    Log    hi] the
    first argument is literal, and the machine returns the one token [hi],
    not the empty list. *)
Lemma run_keyword_does_not_consume_all :
  @is_not_variable_token (Examples.environment None)
    (Token.mk Token.ARGUMENT "Log" 3 20) = true
  /\ fst (@_analyse_run_keyword (Examples.environment None)
            (Some Examples.Run_Keyword) Examples.S3_call
            [Token.mk Token.ARGUMENT "Log" 3 20;
             Token.mk Token.ARGUMENT "hi" 3 27]
            (mkState [] None))
     = Return [Token.mk Token.ARGUMENT "hi" 3 27]
  /\ fst (@_analyse_run_keyword (Examples.environment None)
            (Some Examples.Run_Keyword) Examples.S3_call
            [Token.mk Token.ARGUMENT "Log" 3 20;
             Token.mk Token.ARGUMENT "hi" 3 27]
            (mkState [] None))
     <> Return [].
Proof.
  split; [reflexivity|]. split; [vm_compute; reflexivity|].
  vm_compute. discriminate.
Qed.


Section RunKeywordsFamily.

Context {ext : Externals}.

Variable node : Node.








End RunKeywordsFamily.



(* ================================================================== *)
(** ** Exceptions in [_analyze_keyword_call]                           *)
(* ================================================================== *)

Section CallHandlers.

Context {ext : Externals}.

(** An exception of the finder that is not re-raised becomes one call of
    [append_diagnostics], with severity Error and the type name as code,
    and the call returns [None]. *)
Lemma analyze_keyword_call_find_raises kw node kt args flag e s :
  is_not_variable_token kt = true ->
  find_keyword kw = inl e ->
  is_reraised e = false ->
  _analyze_keyword_call kw node kt args flag s
  = (append_diagnostics (range_from_node_or_token node (Some kt))
       (exn_str e) (Some ERROR) (Some (exn_qualname e)) None
       (Some "robotcode") None None None ;;
     ret None) s.
Proof.
  intros Hv Hf He. unfold _analyze_keyword_call, _analyze_keyword_call_with.
  rewrite Hv, Hf. cbn [negb]. unfold try_except, lift_result, raise, bind.
  rewrite He. unfold report_exception.
  destruct (append_diagnostics _ _ _ _ _ _ _ _ _ s) as [[u|e'|] s1];
    reflexivity.
Qed.

(** An exception of the argument resolver that is not re-raised becomes
    one call of [append_diagnostics], with severity Error and the type
    name as code, on the range from the keyword to the last argument. *)
Lemma resolve_arguments_raises result kt args spec e s :
  KeywordDoc.arguments result = Some spec ->
  resolve spec (map Token.value args) (KeywordDoc.args_to_process result)
          (negb (KeywordDoc.is_any_run_keyword result)) = Some e ->
  is_reraised e = false ->
  resolve_arguments result kt args s
  = append_diagnostics (resolve_error_range kt args) (exn_str e) (Some ERROR)
      (Some (exn_qualname e)) None (Some "robotcode") None None None s.
Proof.
  intros Ha Hr He. unfold resolve_arguments, try_except, raise.
  rewrite Ha, Hr, He. reflexivity.
Qed.

End CallHandlers.

(** C3, at the failing input.  The finder of the example raises
    [DataError], which is not re-raised by the handlers, when asked for
    [Boom].  Called on [Boom] itself, [_analyze_keyword_call] turns the
    exception into one Error diagnostic with code [DataError] and returns.
    Called on [Run Keyword If    ${x}    Boom], it lets the same exception
    escape from the lookup that the Run Keyword If branch makes outside any
    [try], so the exception leaves [_analyze_keyword_call] and ends the
    traversal of the suite. *)
Theorem nested_lookup_exception_escapes :
  @find_keyword (Examples.environment None) (Some "Boom")
  = inl (Exception "DataError" "Broken import")
  /\ is_reraised (Exception "DataError" "Broken import") = false
  /\ @_analyze_keyword_call (Examples.environment None) (Some "Boom")
       Examples.Boom_call (Token.mk Token.ARGUMENT "Boom" 3 30) [] true
       (mkState [] (Some "T"))
     = (Return None,
        mkState
          [mkDiagnostic
             (range_from_token (Token.mk Token.ARGUMENT "Boom" 3 30))
             "Broken import" (Some ERROR) (Some "DataError") None
             (Some "robotcode") None None None]
          (Some "T"))
  /\ @_analyze_keyword_call (Examples.environment None)
       (Some "Run Keyword If") Examples.Boom_call
       (Token.mk Token.KEYWORD "Run Keyword If" 3 4)
       [Token.mk Token.ARGUMENT "${x}" 3 22;
        Token.mk Token.ARGUMENT "Boom" 3 30]
       true (mkState [] (Some "T"))
     = (Raise (Exception "DataError" "Broken import"),
        mkState [] (Some "T"))
  /\ @get (Examples.environment None) Examples.Boom_model
     = (Raise (Exception "DataError" "Broken import"), []).
Proof.
  repeat split; vm_compute; reflexivity.
Qed.

(* ================================================================== *)
(** ** The suppression scan                                            *)
(* ================================================================== *)

Lemma span_app (p : ascii -> bool) (s : list ascii) :
  s = fst (span p s) ++ snd (span p s).
Proof.
  induction s as [|c s IH]; simpl; [reflexivity|].
  destruct (p c); [|reflexivity].
  destruct (span p s) as [a b]; simpl in *. rewrite <- IH. reflexivity.
Qed.

Lemma strip_prefix_app (lit s : list ascii) :
  strip_prefix lit (lit ++ s) = Some s.
Proof.
  induction lit as [|x lit IH]; simpl; [destruct s; reflexivity|].
  rewrite Ascii.eqb_refl. exact IH.
Qed.

Lemma list_ascii_eqb_eq (a : list ascii) (b : string) :
  list_ascii_eqb a (list_ascii_of_string b) = true ->
  a = list_ascii_of_string b.
Proof.
  unfold list_ascii_eqb. rewrite string_of_list_ascii_of_string.
  intros H. apply String.eqb_eq in H. rewrite <- H.
  symmetry. apply list_ascii_of_string_of_list_ascii.
Qed.

Lemma span_forallb (p : ascii -> bool) (s : list ascii) :
  forallb p (fst (span p s)) = true.
Proof.
  induction s as [|c s IH]; simpl; [reflexivity|].
  destruct (p c) eqn:E; [|reflexivity].
  destruct (span p s) as [a b]; simpl in *. rewrite E, IH. reflexivity.
Qed.

Lemma span_stops (p : ascii -> bool) (s : list ascii) x rest :
  snd (span p s) = x :: rest -> p x = false.
Proof.
  induction s as [|c s IH]; simpl; [discriminate|].
  destruct (p c) eqn:E.
  - destruct (span p s) as [a b]; simpl in *. exact IH.
  - intros [= <- _]. exact E.
Qed.

Lemma comment_group_shape rest c :
  comment_group rest = Some c ->
  exists tail,
    rest = c ++ tail
    /\ forallb re_dot c = true
    /\ (tail = [] \/ exists x, tail = [x] /\ re_dot x = false).
Proof.
  unfold comment_group.
  pose proof (span_app re_dot rest) as Happ.
  pose proof (span_forallb re_dot rest) as Hall.
  pose proof (span_stops re_dot rest) as Hstop.
  destruct (span re_dot rest) as [comment tail]; cbn [fst snd] in *.
  destruct tail as [|x [|y tail]]; intros [= <-].
  - exists []. repeat split; [exact Happ|exact Hall|left; reflexivity].
  - exists [x]. repeat split; [exact Happ|exact Hall|].
    right. exists x. split; [reflexivity|]. exact (Hstop x [] eq_refl).
Qed.

Lemma hash_then_comment_shape s c :
  hash_then_comment s = Some c ->
  exists tail,
    s = "#"%char :: c ++ tail
    /\ forallb re_dot c = true
    /\ (tail = [] \/ exists x, tail = [x] /\ re_dot x = false).
Proof.
  unfold hash_then_comment. destruct s as [|h rest]; [discriminate|].
  unfold is_char. destruct (Ascii.eqb_spec "#"%char h) as [<-|]; [|discriminate].
  intros H. destruct (comment_group_shape rest c H) as (tail & -> & Hc & Ht).
  exists tail. repeat split; assumption.
Qed.

Lemma after_dot_star_shape at_start s c :
  after_dot_star at_start s = Some c ->
  exists blanks tail,
    s = blanks ++ "#"%char :: c ++ tail
    /\ forallb re_dot c = true
    /\ (tail = [] \/ exists x, tail = [x] /\ re_dot x = false)
    /\ ((at_start = true /\ forallb (is_char " "%char) blanks = true)
        \/ (blanks <> [] /\ forallb (is_char "009"%char) blanks = true)
        \/ (2 <= List.length blanks
            /\ forallb (is_char " "%char) blanks = true)).
Proof.
  unfold after_dot_star.
  pose proof (span_app (is_char " "%char) s) as Hsp.
  pose proof (span_forallb (is_char " "%char) s) as Hspall.
  pose proof (span_app (is_char "009"%char) s) as Htb.
  pose proof (span_forallb (is_char "009"%char) s) as Htball.
  destruct (span (is_char " "%char) s) as [spaces r1].
  destruct (span (is_char "009"%char) s) as [tabs r2].
  cbn [fst snd] in *.
  destruct (if at_start then hash_then_comment r1 else None) as [c1|] eqn:E1.
  { intros [= <-]. destruct at_start; [|discriminate].
    destruct (hash_then_comment_shape r1 c1 E1) as (tail & -> & Hc & Ht).
    exists spaces, tail. repeat split; try assumption.
    left. split; [reflexivity|exact Hspall]. }
  destruct (if (1 <=? List.length tabs)%nat then hash_then_comment r2
            else None) as [c2|] eqn:E2.
  { intros [= <-]. destruct (Nat.leb_spec 1 (List.length tabs));
      [|discriminate].
    destruct (hash_then_comment_shape r2 c2 E2) as (tail & -> & Hc & Ht).
    exists tabs, tail. repeat split; try assumption.
    right. left. split; [|exact Htball].
    intros ->. simpl in *. lia. }
  destruct (Nat.leb_spec 2 (List.length spaces)); [|discriminate].
  intros E3.
  destruct (hash_then_comment_shape r1 c E3) as (tail & -> & Hc & Ht).
  exists spaces, tail. repeat split; try assumption.
  right. right. split; [assumption|exact Hspall].
Qed.

Lemma dot_star_then_shape s :
  forall at_start c,
    dot_star_then at_start s = Some c ->
    exists before blanks tail,
      s = before ++ blanks ++ "#"%char :: c ++ tail
      /\ forallb re_dot before = true
      /\ forallb re_dot c = true
      /\ (tail = [] \/ exists x, tail = [x] /\ re_dot x = false)
      /\ ((at_start = true /\ before = []
           /\ forallb (is_char " "%char) blanks = true)
          \/ (blanks <> [] /\ forallb (is_char "009"%char) blanks = true)
          \/ (2 <= List.length blanks
              /\ forallb (is_char " "%char) blanks = true)).
Proof.
  assert (Hhere : forall at_start s c,
             after_dot_star at_start s = Some c ->
             exists before blanks tail,
               s = before ++ blanks ++ "#"%char :: c ++ tail
               /\ forallb re_dot before = true
               /\ forallb re_dot c = true
               /\ (tail = [] \/ exists x, tail = [x] /\ re_dot x = false)
               /\ ((at_start = true /\ before = []
                    /\ forallb (is_char " "%char) blanks = true)
                   \/ (blanks <> []
                       /\ forallb (is_char "009"%char) blanks = true)
                   \/ (2 <= List.length blanks
                       /\ forallb (is_char " "%char) blanks = true))).
  { intros at_start s0 c H.
    destruct (after_dot_star_shape at_start s0 c H)
      as (blanks & tail & -> & Hc & Ht & Hb).
    exists [], blanks, tail. repeat split; try assumption.
    destruct Hb as [[Ha Hb]|[Hb|Hb]]; [left|right; left|right; right];
      try assumption.
    repeat split; assumption. }
  induction s as [|x s IH]; intros at_start c H; cbn [dot_star_then] in H.
  - apply Hhere. exact H.
  - destruct (re_dot x) eqn:Ex; [|apply Hhere; exact H].
    destruct (dot_star_then false s) as [r|] eqn:E; [|apply Hhere; exact H].
    injection H as ->.
    destruct (IH false c E) as (before & blanks & tail & -> & Hb & Hc & Ht & Hs).
    exists (x :: before), blanks, tail. repeat split; try assumption.
    + simpl. rewrite Ex. exact Hb.
    + destruct Hs as [[Hf _]|[Hs|Hs]];
        [discriminate|right; left; exact Hs|right; right; exact Hs].
Qed.

(** A line that the comment pattern matches has the shape the pattern
    describes. *)
Lemma comment_pattern_shape (l : string) c :
  EXTRACT_COMMENT_PATTERN_match l = Some c ->
  exists before blanks tail,
    comment_shape (list_ascii_of_string l) before blanks c tail.
Proof.
  intros H. unfold EXTRACT_COMMENT_PATTERN_match in H.
  destruct (dot_star_then_shape _ _ _ H)
    as (before & blanks & tail & Hl & Hb & Hc & Ht & Hs).
  exists before, blanks, tail. unfold comment_shape.
  repeat split; try assumption.
  destruct Hs as [(_ & Hbe & Hsp)|[Hs|Hs]];
    [left; split; assumption|right; left; exact Hs|right; right; exact Hs].
Qed.

(** A match of the analyzer's pattern whose rule is [ignore] is a match of
    the pattern of the specification. *)
Lemma match_at_ignore_is_spec_match prev s rule len :
  ROBOTCODE_PATTERN_match_at prev s = Some (rule, len) ->
  list_ascii_eqb rule (list_ascii_of_string "ignore") = true ->
  spec_ignore_match_at prev s = true.
Proof.
  unfold ROBOTCODE_PATTERN_match_at, spec_ignore_match_at.
  destruct (word_boundary prev (hd_error s)); [|discriminate].
  destruct (strip_prefix (list_ascii_of_string "robotcode") s) as [s1|];
    [|discriminate].
  destruct (word_boundary (Some "e"%char) (hd_error s1)); [|discriminate].
  destruct (span re_space s1) as [ws1 s2].
  destruct s2 as [|c s3]; [discriminate|].
  destruct (is_char ":" c); [|discriminate].
  destruct (span re_space s3) as [ws2 s4].
  destruct (word_boundary (Some (last ws2 c)) (hd_error s4)); [|discriminate].
  pose proof (span_app re_word s4) as Hs4.
  destruct (span re_word s4) as [r s5]. cbn [fst snd] in Hs4.
  destruct r as [|r0 r']; [discriminate|].
  destruct (word_boundary (Some (last (r0 :: r') r0)) (hd_error s5)) eqn:Hb;
    [|discriminate].
  intros [= <- _] Heq. apply list_ascii_eqb_eq in Heq.
  rewrite Hs4, Heq, strip_prefix_app. rewrite Heq in Hb. exact Hb.
Qed.

Lemma finditer_ignore_is_spec_search s :
  forall prev skip,
    existsb (fun rule => list_ascii_eqb rule (list_ascii_of_string "ignore"))
            (finditer_rules prev s skip) = true ->
    spec_ignore_search prev s = true.
Proof.
  induction s as [|c s IH]; intros prev skip H; [discriminate|].
  cbn [finditer_rules] in H. cbn [spec_ignore_search].
  apply orb_true_iff.
  destruct skip as [|k]; [|right; exact (IH _ _ H)].
  destruct (ROBOTCODE_PATTERN_match_at prev (c :: s)) as [[rule len]|] eqn:E;
    [|right; exact (IH _ _ H)].
  cbn [existsb] in H. apply orb_true_iff in H as [H|H].
  - left. exact (match_at_ignore_is_spec_match _ _ _ _ E H).
  - right. exact (IH _ _ H).
Qed.

(** What [should_ignore] accepts, the specification accepts. *)
Lemma line_is_ignored_qualifies (l : string) :
  line_is_ignored l = true -> spec_line_qualifies l = true.
Proof.
  unfold line_is_ignored, spec_line_qualifies.
  destruct (EXTRACT_COMMENT_PATTERN_match l) as [[|c body]|];
    try discriminate.
  apply finditer_ignore_is_spec_search.
Qed.

Lemma In_builtins_range (lo hi i : Z) :
  In i (builtins_range lo hi) <-> (lo <= i < hi)%Z.
Proof.
  unfold builtins_range. rewrite in_map_iff. split.
  - intros (k & <- & Hk). apply in_seq in Hk. lia.
  - intros H. exists (Z.to_nat (i - lo)). split; [lia|].
    apply in_seq. lia.
Qed.

Lemma list_getitem_within {A} (l : list A) (i : Z) :
  (0 <= i < Z.of_nat (List.length l))%Z ->
  exists x, nth_error l (Z.to_nat i) = Some x /\ list_getitem l i = inr x.
Proof.
  intros H. unfold list_getitem.
  destruct (Z.ltb_spec i 0); [lia|].
  destruct (Z.leb_spec 0 i); [|lia].
  destruct (Z.ltb_spec i (Z.of_nat (List.length l))); [|lia]. cbn [andb].
  destruct (nth_error l (Z.to_nat i)) as [x|] eqn:E.
  - exists x. split; reflexivity.
  - apply nth_error_None in E. lia.
Qed.

Lemma should_ignore_lines_within (lines : list string) (line_nos : list Z) :
  (forall i, In i line_nos -> (0 <= i < Z.of_nat (List.length lines))%Z) ->
  exists b,
    should_ignore_lines lines line_nos = inr b
    /\ (b = true <->
        exists i l, In i line_nos
                    /\ nth_error lines (Z.to_nat i) = Some l
                    /\ line_is_ignored l = true).
Proof.
  induction line_nos as [|i rest IH]; intros H.
  - exists false. split; [reflexivity|]. split; [discriminate|].
    intros (i & l & [] & _).
  - cbn [should_ignore_lines].
    destruct (list_getitem_within lines i (H i (or_introl eq_refl)))
      as (x & Hx & ->).
    destruct (line_is_ignored x) eqn:E.
    + exists true. split; [reflexivity|]. split; [|reflexivity].
      intros _. exists i, x. repeat split; [left; reflexivity|assumption..].
    + destruct IH as (b & Hb & Hiff).
      { intros j Hj. apply H. right. exact Hj. }
      exists b. split; [exact Hb|]. rewrite Hiff. split.
      * intros (j & l & Hj & Hl & Hi). exists j, l.
        repeat split; [right; exact Hj|assumption..].
      * intros (j & l & [<-|Hj] & Hl & Hi).
        -- congruence.
        -- exists j, l. repeat split; assumption.
Qed.

Lemma should_ignore_within (document : option (list string)) (r : Range) :
  range_in_document document r ->
  exists b,
    should_ignore document r = inr b
    /\ (b = true <-> covered_line_is_ignored document r).
Proof.
  destruct document as [lines|]; simpl.
  - intros [Hlo Hhi].
    destruct (should_ignore_lines_within lines
                (builtins_range (line (start r)) (line (end_ r) + 1)))
      as (b & Hb & Hiff).
    { intros i Hi. apply In_builtins_range in Hi. lia. }
    exists b. split; [exact Hb|]. rewrite Hiff. split.
    + intros (i & l & Hi & H). exists i, l. split; [|exact H].
      apply In_builtins_range in Hi. lia.
    + intros (i & l & Hi & H). exists i, l. split; [|exact H].
      apply In_builtins_range. lia.
  - intros _. exists false. split; [reflexivity|]. split; [discriminate|].
    intros [].
Qed.

(** Scenarios S1 and S5: the unknown keyword is reported on its token,
    and is not reported when the line carries the pragma. *)
Example S1_S5_unknown_keyword :
  @get (Examples.environment
          (Some (Examples.suite_lines "    Unknown Kw")))
       Examples.unknown_keyword_model
  = (Return tt,
     [mkDiagnostic (mkRange (mkPosition 2 4) (mkPosition 2 14))
        "No keyword with name 'Unknown Kw' found." (Some ERROR)
        (Some "KeywordError/not_found") None (Some "robotcode") None None
        None])
  /\ @get (Examples.environment
             (Some (Examples.suite_lines
                      "    Unknown Kw    # robotcode: ignore")))
          Examples.unknown_keyword_model
     = (Return tt, []).
Proof. split; vm_compute; reflexivity. Qed.

(** C4, as the code has it.  When the lines from [range.start.line] to
    [range.end.line] are lines of the document, [append_diagnostics] drops
    the diagnostic if and only if one of these lines matches the comment
    pattern with a non-empty comment in which, reading the occurrences of
    [robotcode], blanks, a colon, blanks and a word from left to right
    without overlap, one occurrence has the word [ignore]; otherwise, and
    when the namespace has no document, the diagnostic is appended to the
    results.  Every line that the code accepts in this way has the shape
    of the comment pattern (text, then spaces from the start of the line
    or a run of tabs or two spaces and more, then the hash and the
    comment) and its comment holds the body pattern of the
    specification. *)
Theorem append_diagnostics_drops_iff_a_covered_line_is_ignored :
  forall (ext : Externals) (r : Range) (m : string)
         (sev : option DiagnosticSeverity) (c : option string)
         (cd : option CodeDescription) (src : option string)
         (tags : option (list DiagnosticTag))
         (ri : option (list DiagnosticRelatedInformation))
         (data : option string) (s : AnalyzerState),
    range_in_document document r ->
    (covered_line_is_ignored document r ->
     append_diagnostics r m sev c cd src tags ri data s = (Return tt, s))
    /\ (~ covered_line_is_ignored document r ->
        append_diagnostics r m sev c cd src tags ri data s
        = (Return tt,
           mkState (_results s
                    ++ [mkDiagnostic r m sev c cd src tags ri data])
                   (current_testcase_or_keyword_name s)))
    /\ (forall l,
           line_is_ignored l = true ->
           spec_line_qualifies l = true
           /\ exists before blanks comment tail,
                comment_shape (list_ascii_of_string l) before blanks comment
                              tail
                /\ spec_ignore_search None comment = true).
Proof.
  intros ext r m sev c cd src tags ri data s Hr.
  destruct (should_ignore_within document r Hr) as (b & Hb & Hiff).
  unfold append_diagnostics, bind, lift_result. rewrite Hb. cbn [ret].
  split; [|split].
  - intros H. apply Hiff in H. subst b. reflexivity.
  - intros H. destruct b; [exfalso; apply H, Hiff; reflexivity|reflexivity].
  - intros l Hl. split; [apply line_is_ignored_qualifies; exact Hl|].
    pose proof (line_is_ignored_qualifies l Hl) as Hq.
    unfold line_is_ignored in Hl. unfold spec_line_qualifies in Hq.
    destruct (EXTRACT_COMMENT_PATTERN_match l) as [comment|] eqn:E;
      [|discriminate].
    destruct (comment_pattern_shape l comment E)
      as (before & blanks & tail & Hshape).
    exists before, blanks, comment, tail. split; assumption.
Qed.

Lemma append_diagnostics_drops_iff_a_covered_line_is_ignored_witness :
  range_in_document (Some Examples.S5_lines) Examples.Unknown_Kw_range
  /\ covered_line_is_ignored (Some Examples.S5_lines)
                             Examples.Unknown_Kw_range
  /\ @append_diagnostics (Examples.environment (Some Examples.S5_lines))
       Examples.Unknown_Kw_range "No keyword with name 'Unknown Kw' found."
       (Some ERROR) (Some "KeywordError/not_found") None (Some "robotcode")
       None None None (mkState [] (Some "TC"))
     = (Return tt, mkState [] (Some "TC")).
Proof.
  assert (Hr : range_in_document (Some Examples.S5_lines)
                                 Examples.Unknown_Kw_range)
    by (simpl; lia).
  assert (Hc : covered_line_is_ignored (Some Examples.S5_lines)
                                       Examples.Unknown_Kw_range).
  { exists 0%Z, "    Unknown Kw    # robotcode: ignore".
    split; [simpl; lia|]. split; [reflexivity|vm_compute; reflexivity]. }
  split; [exact Hr|]. split; [exact Hc|].
  exact (proj1 (append_diagnostics_drops_iff_a_covered_line_is_ignored
                  (Examples.environment (Some Examples.S5_lines))
                  Examples.Unknown_Kw_range
                  "No keyword with name 'Unknown Kw' found."
                  (Some ERROR) (Some "KeywordError/not_found") None
                  (Some "robotcode") None None None
                  (mkState [] (Some "TC")) Hr) Hc).
Defined.

(** C4, as the claim has it, fails: the line
    [    Unknown Kw    # robotcode: robotcode: ignore] matches the comment
    pattern and its body holds [robotcode: ignore], so the claim has the
    diagnostic dropped; the scan reads [robotcode: robotcode] as one
    occurrence with the rule [robotcode], goes on after it, and the
    diagnostic is appended. *)
Lemma pragma_after_another_rule_is_not_honoured :
  range_in_document (Some Examples.nested_pragma_lines)
                    Examples.Unknown_Kw_range
  /\ (line (start Examples.Unknown_Kw_range) <= 0
      <= line (end_ Examples.Unknown_Kw_range))%Z
  /\ spec_line_qualifies (nth 0 Examples.nested_pragma_lines "") = true
  /\ @append_diagnostics
       (Examples.environment (Some Examples.nested_pragma_lines))
       Examples.Unknown_Kw_range "No keyword with name 'Unknown Kw' found."
       (Some ERROR) (Some "KeywordError/not_found") None (Some "robotcode")
       None None None (mkState [] (Some "TC"))
     = (Return tt,
        mkState
          [mkDiagnostic Examples.Unknown_Kw_range
             "No keyword with name 'Unknown Kw' found." (Some ERROR)
             (Some "KeywordError/not_found") None (Some "robotcode") None
             None None]
          (Some "TC")).
Proof.
  split; [simpl; lia|]. split; [simpl; lia|].
  split; vm_compute; reflexivity.
Qed.

(* ================================================================== *)
(** ** The definition resolver                                         *)
(* ================================================================== *)

(** C6, as the code has it.  For a keyword name that the namespace's
    [find_keyword] resolves to a descriptor [doc], a definition request at
    a position on the keyword-name token of a call of that keyword returns
    exactly one [LocationLink] when [doc.source] is a path: its
    [target_uri] is the URI built from [doc.source], its target ranges are
    [doc.range()] and its origin is the range of the token; and it returns
    [None] when [doc.source] is [None].  This is what
    [definition_KeywordCall] and [definition_Fixture] answer, and what
    [collect_definitions] answers when the statement is the last of the
    walked nodes whose range holds the position and its class is given
    the method of a keyword call or of a fixture. *)
Theorem definition_on_keyword_token_links_to_source :
  forall (ext : Externals) (keyword : option string)
         (token_type : Token.kind) (node : Node) (tokens : list Token.t)
         (position : Position)
         (find : option string -> option KeywordDoc.t)
         (keyword_token : Token.t) (doc : KeywordDoc.t),
    truthy keyword = true ->
    get_token token_type tokens = Some keyword_token ->
    get_namespace = Some find ->
    find keyword = Some doc ->
    Position_is_in_range position (range_from_token keyword_token) true
    = true ->
    match KeywordDoc.source doc with
    | Some path =>
        exists link,
          _definition_KeywordCall_or_Fixture keyword token_type node tokens
                                             position
          = Some [link]
          /\ target_uri link = Uri_from_path path
          /\ target_range link = KeywordDoc_range doc
          /\ target_selection_range link = KeywordDoc_range doc
          /\ origin_selection_range link
             = Some (range_from_token keyword_token)
    | None =>
        _definition_KeywordCall_or_Fixture keyword token_type node tokens
                                           position
        = None
    end
    /\ forall (walked : list Node) (class_of : Node -> PyClass)
              (get_libraries get_resources : list LibraryEntry.t)
              (alias_of : Node -> option string),
        own_tokens node = tokens ->
        (exists before, result_nodes walked position = before ++ [node]) ->
        (token_type = Token.KEYWORD
         /\ keyword = get_value Token.KEYWORD tokens
         /\ _find_method (class_of node) = Some "definition_KeywordCall")
        \/ (token_type = Token.NAME
            /\ keyword = get_value Token.NAME tokens
            /\ _find_method (class_of node) = Some "definition_Fixture") ->
        collect_definitions walked class_of get_libraries get_resources
                            alias_of position
        = _definition_KeywordCall_or_Fixture keyword token_type node tokens
                                             position.
Proof.
  intros ext keyword token_type node tokens position find keyword_token doc
         Hk Ht Hn Hf Hp.
  split.
  - unfold _definition_KeywordCall_or_Fixture. rewrite Hk, Ht, Hn, Hf.
    destruct (KeywordDoc.source doc) as [path|]; [|reflexivity].
    rewrite Hp. exists (location_link node keyword_token doc path).
    repeat split; reflexivity.
  - intros walked class_of get_libraries get_resources alias_of Htokens
           [before Hlast] Hmethod.
    unfold collect_definitions. rewrite Hlast.
    assert (E : forall d, last (before ++ [node]) d = node)
      by (intros d; apply last_last).
    destruct (before ++ [node]) as [|first rest] eqn:Hb.
    { destruct before; discriminate. }
    cbv zeta. rewrite E.
    destruct Hmethod as [(-> & -> & ->)|(-> & -> & ->)];
      unfold call_definition_method; cbv zeta; rewrite Htokens;
      reflexivity.
Qed.

Lemma definition_on_keyword_token_links_to_source_witness :
  truthy (Some "One Arg") = true
  /\ get_token Token.KEYWORD
       (Examples.cells Token.KEYWORD 3 4 ["One Arg"; "a"])
     = Some (Token.mk Token.KEYWORD "One Arg" 3 4)
  /\ @get_namespace (Examples.environment None) = Some Examples.lookup
  /\ Examples.lookup (Some "One Arg") = Some Examples.One_Arg
  /\ KeywordDoc.source Examples.One_Arg = Some "/suite/keywords.resource"
  /\ Position_is_in_range (mkPosition 2 6)
       (range_from_token (Token.mk Token.KEYWORD "One Arg" 3 4)) true = true
  /\ (exists link,
        @_definition_KeywordCall_or_Fixture (Examples.environment None)
          (Some "One Arg") Token.KEYWORD MoreExamples.One_Arg_call
          (Examples.cells Token.KEYWORD 3 4 ["One Arg"; "a"])
          (mkPosition 2 6)
        = Some [link]
        /\ target_uri link = "file:///suite/keywords.resource"
        /\ target_range link = mkRange (mkPosition 11 0) (mkPosition 11 0)
        /\ target_selection_range link
           = mkRange (mkPosition 11 0) (mkPosition 11 0)
        /\ origin_selection_range link
           = Some (mkRange (mkPosition 2 4) (mkPosition 2 11)))
  /\ result_nodes (subnodes MoreExamples.One_Arg_model) (mkPosition 2 6)
     = [MoreExamples.One_Arg_model] ++ [MoreExamples.One_Arg_call]
  /\ _find_method (MoreExamples.robot_class MoreExamples.One_Arg_call)
     = Some "definition_KeywordCall"
  /\ @collect_definitions (Examples.environment None)
       (subnodes MoreExamples.One_Arg_model) MoreExamples.robot_class [] []
       (fun _ => None) (mkPosition 2 6)
     = @_definition_KeywordCall_or_Fixture (Examples.environment None)
         (Some "One Arg") Token.KEYWORD MoreExamples.One_Arg_call
         (Examples.cells Token.KEYWORD 3 4 ["One Arg"; "a"])
         (mkPosition 2 6).
Proof.
  repeat (split; [reflexivity|]).
  pose proof (definition_on_keyword_token_links_to_source
                (Examples.environment None) (Some "One Arg") Token.KEYWORD
                MoreExamples.One_Arg_call
                (Examples.cells Token.KEYWORD 3 4 ["One Arg"; "a"])
                (mkPosition 2 6) Examples.lookup
                (Token.mk Token.KEYWORD "One Arg" 3 4) Examples.One_Arg
                eq_refl eq_refl eq_refl eq_refl eq_refl) as [Hlink Hrequest].
  split; [exact Hlink|].
  split; [reflexivity|]. split; [reflexivity|].
  apply (Hrequest (subnodes MoreExamples.One_Arg_model)
                  MoreExamples.robot_class [] [] (fun _ => None)).
  - reflexivity.
  - exists [MoreExamples.One_Arg_model]. reflexivity.
  - left. repeat split; reflexivity.
Defined.

(** C6, as the claim has it, fails: [Remote Kw] is resolved by the
    namespace's [find_keyword] to a descriptor without a source path, and a
    request on its keyword-name token returns no link at all. *)
Lemma definition_of_keyword_without_source_is_none :
  @get_namespace (Examples.environment None) = Some Examples.lookup
  /\ Examples.lookup (Some "Remote Kw") = Some Examples.Remote_Kw
  /\ get_token Token.KEYWORD (Examples.tokens_of Examples.Remote_call)
     = Some (Token.mk Token.KEYWORD "Remote Kw" 3 4)
  /\ Position_is_in_range (mkPosition 2 6)
       (range_from_token (Token.mk Token.KEYWORD "Remote Kw" 3 4)) true
     = true
  /\ @definition_KeywordCall (Examples.environment None) Examples.Remote_call
       (Examples.tokens_of Examples.Remote_call) (mkPosition 2 6)
     = None.
Proof. repeat split; vm_compute; reflexivity. Qed.

(** C7, at the failing inputs.  In
    [Run Keyword If  ${x}  Log  hi  ELSE  One Arg  a  b] the analyzer
    follows ELSE and analyses [One Arg] as a keyword call with the
    arguments [a] and [b] (its one diagnostic spans these three tokens),
    while a definition request on the token [One Arg] returns nothing,
    although a request on [Log] is answered.  In
    [Wait Until Keyword Succeeds  3x  1s  One Arg  a  b], of a family with
    two condition arguments, the analyzer takes the third argument
    [One Arg] as the keyword, while the definition resolver looks up the
    second argument [1s] and returns nothing for a request on
    [One Arg]. *)
Theorem definition_resolver_departs_from_analyzer :
  Examples.lookup (Some "One Arg") = Some Examples.One_Arg
  /\ _results
       (snd (@_analyse_run_keyword (Examples.environment None)
               (Some Examples.Run_Keyword_If) Examples.else_call
               (get_tokens Token.ARGUMENT
                           (Examples.tokens_of Examples.else_call))
               (mkState [] (Some "T"))))
     = [mkDiagnostic
          (mkRange
             (start (range_from_token
                       (Token.mk Token.ARGUMENT "One Arg" 3 51)))
             (end_ (range_from_token (Token.mk Token.ARGUMENT "b" 3 67))))
          "Too many positional arguments." (Some ERROR) (Some "DataError")
          None (Some "robotcode") None None None]
  /\ Position_is_in_range (mkPosition 2 53)
       (range_from_token (Token.mk Token.ARGUMENT "One Arg" 3 51)) true
     = true
  /\ @definition_KeywordCall (Examples.environment None) Examples.else_call
       (Examples.tokens_of Examples.else_call) (mkPosition 2 53)
     = None
  /\ (exists link,
         @definition_KeywordCall (Examples.environment None)
           Examples.else_call (Examples.tokens_of Examples.else_call)
           (mkPosition 2 31)
         = Some [link]
         /\ target_uri link = "file:///robot/libraries/BuiltIn.py")
  /\ KeywordDoc.run_keyword_family Examples.Wait_Until_Keyword_Succeeds
     = KeywordDoc.RunKeywordWithCondition 2
  /\ _results
       (snd (@_analyse_run_keyword (Examples.environment None)
               (Some Examples.Wait_Until_Keyword_Succeeds)
               Examples.wait_call
               (get_tokens Token.ARGUMENT
                           (Examples.tokens_of Examples.wait_call))
               (mkState [] (Some "T"))))
     = [mkDiagnostic
          (mkRange
             (start (range_from_token
                       (Token.mk Token.ARGUMENT "One Arg" 3 47)))
             (end_ (range_from_token (Token.mk Token.ARGUMENT "b" 3 63))))
          "Too many positional arguments." (Some ERROR) (Some "DataError")
          None (Some "robotcode") None None None]
  /\ Position_is_in_range (mkPosition 2 49)
       (range_from_token (Token.mk Token.ARGUMENT "One Arg" 3 47)) true
     = true
  /\ @definition_KeywordCall (Examples.environment None) Examples.wait_call
       (Examples.tokens_of Examples.wait_call) (mkPosition 2 49)
     = None.
Proof.
  split; [reflexivity|]. split; [vm_compute; reflexivity|].
  split; [reflexivity|]. split; [vm_compute; reflexivity|].
  split; [eexists; split; vm_compute; reflexivity|].
  split; [reflexivity|]. split; [vm_compute; reflexivity|].
  split; [reflexivity|]. vm_compute; reflexivity.
Qed.

(* ================================================================== *)
(** ** The visitor                                                     *)
(* ================================================================== *)

Section VisitorFacts.

Context {ext : Externals}.

Lemma append_diagnostics_Return r m sev c cd src t ri d s s' :
  append_diagnostics r m sev c cd src t ri d s = (Return tt, s') ->
  (should_ignore document r = inr true /\ s' = s)
  \/ (should_ignore document r = inr false
      /\ s' = mkState
                (_results s ++ [mkDiagnostic r m sev c cd src t ri d])
                (current_testcase_or_keyword_name s)).
Proof.
  unfold append_diagnostics, bind, lift_result.
  destruct (should_ignore document r) as [e|[|]]; simpl.
  - discriminate.
  - intros [= <-]. left. split; reflexivity.
  - intros [= <-]. right. split; reflexivity.
Qed.

Lemma append_diagnostics_emitted r m sev c cd src t ri d s s' :
  append_diagnostics r m sev c cd src t ri d s = (Return tt, s') ->
  emitted (mkDiagnostic r m sev c cd src t ri d) s'.
Proof.
  intros H. apply append_diagnostics_Return in H as [[H _]|[_ ->]].
  - left. exact H.
  - right. simpl. apply in_or_app. right. left. reflexivity.
Qed.

Lemma emitted_grows d s s' added :
  _results s' = _results s ++ added -> emitted d s -> emitted d s'.
Proof.
  intros H [Hi|Hin]; [left; exact Hi|right].
  rewrite H. apply in_or_app. left. exact Hin.
Qed.

Lemma extends_Return {A} (m : M A) s a s' :
  extends m s -> m s = (Return a, s') ->
  current_testcase_or_keyword_name s' = current_testcase_or_keyword_name s
  /\ exists added, _results s' = _results s ++ added.
Proof.
  intros [added H] E. rewrite E in H. simpl in H. subst s'. simpl.
  split; [reflexivity|exists added; reflexivity].
Qed.

Lemma extends_analyze_then_unit kw node kt args s :
  extends (_analyze_keyword_call kw node kt args true ;; ret tt) s.
Proof.
  apply extends_bind; [apply extends_analyze_keyword_call|].
  intros; apply extends_ret.
Qed.

Lemma extends_visit_Fixture node tokens s :
  extends (visit_Fixture node tokens) s.
Proof.
  unfold visit_Fixture.
  destruct (get_token Token.NAME tokens) as [kt|]; [|apply extends_ret].
  destruct (is_not_variable_token kt);
    [apply extends_analyze_then_unit|apply extends_ret].
Qed.

Lemma extends_visit_Template node tokens s :
  extends (visit_Template node tokens) s.
Proof.
  unfold visit_Template.
  destruct (get_token Token.NAME tokens) as [kt|]; [|apply extends_ret].
  destruct (is_not_variable_token kt);
    [apply extends_analyze_then_unit|apply extends_ret].
Qed.

Lemma extends_visit_TestTemplate node tokens s :
  extends (visit_TestTemplate node tokens) s.
Proof.
  unfold visit_TestTemplate.
  destruct (get_token Token.NAME tokens) as [kt|]; [|apply extends_ret].
  destruct (is_not_variable_token kt);
    [apply extends_analyze_then_unit|apply extends_ret].
Qed.

(** The statements of [visit_KeywordCall] before the unreachable test. *)
Lemma visit_KeywordCall_split node tokens s :
  exists first : M unit,
    (forall s0, extends first s0)
    /\ visit_KeywordCall node tokens s
       = (first ;;
          fun s1 =>
            (if negb (truthy (current_testcase_or_keyword_name s1))
             then report_unreachable node tokens
             else ret tt) s1) s.
Proof.
  unfold visit_KeywordCall. eexists. split; [|reflexivity].
  intros s0. destruct (assigns_without_keyword tokens).
  - apply extends_append_diagnostics.
  - destruct (get_token Token.KEYWORD tokens) as [kt|].
    + apply extends_analyze_then_unit.
    + apply extends_try_except; [apply extends_raise|].
      intros; apply extends_report_exception.
Qed.

Lemma extends_visit_KeywordCall node tokens s :
  extends (visit_KeywordCall node tokens) s.
Proof.
  unfold visit_KeywordCall. apply extends_bind.
  - destruct (assigns_without_keyword tokens).
    + apply extends_append_diagnostics.
    + destruct (get_token Token.KEYWORD tokens) as [kt|].
      * apply extends_analyze_then_unit.
      * apply extends_try_except; [apply extends_raise|].
        intros; apply extends_report_exception.
  - intros _ s1 _. unfold extends. cbv beta.
    destruct (negb (truthy (current_testcase_or_keyword_name s1)));
      [apply extends_append_diagnostics|apply extends_ret].
Qed.

(** In a state whose block name is empty or absent, a keyword call that
    is visited to its end has had its hint emitted. *)
Lemma visit_KeywordCall_unreachable node tokens s s' :
  truthy (current_testcase_or_keyword_name s) = false ->
  visit_KeywordCall node tokens s = (Return tt, s') ->
  emitted (unreachable_hint node tokens) s'.
Proof.
  intros Hname H.
  destruct (visit_KeywordCall_split node tokens s) as (first & Hf & E).
  rewrite E in H. apply bind_Return_inv in H as (u & s1 & H1 & H).
  destruct (extends_Return _ _ _ _ (Hf s) H1) as [Hcur _].
  rewrite Hcur, Hname in H. cbn [negb] in H.
  exact (append_diagnostics_emitted _ _ _ _ _ _ _ _ _ _ _ H).
Qed.

(** [generic_visit] is the loop over the children. *)
Lemma visit_children_for_each (body : list Node) :
  (fix visit_all (children : list Node) : M unit :=
     match children with
     | [] => ret tt
     | child :: rest => visit child ;; visit_all rest
     end) body
  = for_each body visit.
Proof.
  induction body as [|child rest IH]; [reflexivity|].
  cbn [for_each]. rewrite <- IH. reflexivity.
Qed.

Lemma visit_Block r body :
  visit (Block r body)
  = if canceled (Block r body) then raise CancelledError
    else for_each body visit.
Proof.
  rewrite <- visit_children_for_each. reflexivity.
Qed.

Lemma visit_TestCase_eq header r body :
  visit (TestCase header r body)
  = if canceled (TestCase header r body) then raise CancelledError
    else visit_TestCase (for_each body visit) (TestCase header r body)
                        header.
Proof.
  rewrite <- visit_children_for_each. reflexivity.
Qed.

Lemma visit_Keyword_eq header r body :
  visit (Keyword header r body)
  = if canceled (Keyword header r body) then raise CancelledError
    else visit_Keyword (for_each body visit) (Keyword header r body)
                       header body.
Proof.
  rewrite <- visit_children_for_each. reflexivity.
Qed.

Lemma extends_grows {A} (m : M A) s : extends m s -> grows m s.
Proof. intros [added H]. exists added. rewrite H. reflexivity. Qed.

Lemma grows_bind {A B} (m : M A) (k : A -> M B) s :
  grows m s -> (forall a s1, grows (k a) s1) -> grows (bind m k) s.
Proof.
  unfold grows, bind. intros [d1 H1] Hk.
  destruct (m s) as [[a|e|] s1]; simpl in *; try (exists d1; exact H1).
  destruct (Hk a s1) as [d2 H2].
  exists (d1 ++ d2). rewrite H2, H1, app_assoc. reflexivity.
Qed.

Lemma grows_for_each {A} (xs : list A) body :
  Forall (fun x => forall s, grows (body x) s) xs ->
  forall s, grows (for_each xs body) s.
Proof.
  induction 1 as [|x xs Hx _ IH]; intros s; cbn [for_each].
  - apply extends_grows, extends_ret.
  - apply grows_bind; [apply Hx|]. intros; apply IH.
Qed.

Lemma grows_named_block (m : M unit) name s :
  (forall s0, grows m s0) ->
  grows (fun s1 =>
           try_finally m (set_current_testcase_or_keyword_name None)
                       (set_current_testcase_or_keyword_name name s1)) s.
Proof.
  intros H. unfold grows, try_finally.
  destruct (H (set_current_testcase_or_keyword_name name s)) as [added Ha].
  destruct (m (set_current_testcase_or_keyword_name name s)) as [o s2].
  exists added. exact Ha.
Qed.

Lemma grows_visit (n : Node) : forall s, grows (visit n) s.
Proof.
  induction n using Node_induction; intros s.
  - cbn [visit]. destruct (canceled _);
      [apply extends_grows, extends_raise|].
    apply extends_grows, extends_visit_KeywordCall.
  - cbn [visit]. destruct (canceled _);
      [apply extends_grows, extends_raise|].
    apply extends_grows, extends_visit_Fixture.
  - cbn [visit]. destruct (canceled _);
      [apply extends_grows, extends_raise|].
    apply extends_grows, extends_visit_Template.
  - cbn [visit]. destruct (canceled _);
      [apply extends_grows, extends_raise|].
    apply extends_grows, extends_visit_TestTemplate.
  - cbn [visit]. destruct (canceled _);
      apply extends_grows; [apply extends_raise|apply extends_ret].
  - cbn [visit]. destruct (canceled _);
      apply extends_grows; [apply extends_raise|apply extends_ret].
  - rewrite visit_TestCase_eq. destruct (canceled _);
      [apply extends_grows, extends_raise|].
    unfold visit_TestCase. apply grows_bind.
    + destruct (negb (truthy _)); apply extends_grows;
        [apply extends_append_diagnostics|apply extends_ret].
    + intros _ s1. apply grows_named_block. apply grows_for_each. exact H.
  - rewrite visit_Keyword_eq. destruct (canceled _);
      [apply extends_grows, extends_raise|].
    unfold visit_Keyword. apply grows_bind.
    + destruct (truthy _);
        [destruct (is_embedded_keyword _ && has_arguments body)|];
        apply extends_grows;
        try apply extends_append_diagnostics; apply extends_ret.
    + intros _ s1. apply grows_named_block. apply grows_for_each. exact H.
  - rewrite visit_Block. destruct (canceled _);
      [apply extends_grows, extends_raise|].
    apply grows_for_each. exact H.
Qed.

Lemma safe_named_block (m : M unit) name s :
  (forall s0, safe m s0) ->
  safe (fun s1 =>
          try_finally m (set_current_testcase_or_keyword_name None)
                      (set_current_testcase_or_keyword_name name s1)) s.
Proof.
  intros H. unfold safe, try_finally.
  pose proof (H (set_current_testcase_or_keyword_name name s)) as Hs.
  unfold safe in Hs.
  destruct (m (set_current_testcase_or_keyword_name name s)) as [o s2].
  exact Hs.
Qed.

Lemma safe_for_each_all {A} (xs : list A) body :
  Forall (fun x => forall s, safe (body x) s) xs ->
  forall s, safe (for_each xs body) s.
Proof.
  induction 1 as [|x xs Hx _ IH]; intros s; cbn [for_each].
  - apply safe_ret.
  - apply safe_bind; [apply Hx|]. intros; apply IH.
Qed.

Lemma safe_analyze_then_unit kw node kt args s :
  safe (_analyze_keyword_call kw node kt args true ;; ret tt) s.
Proof.
  apply safe_bind; [apply safe_analyze_keyword_call|].
  intros; apply safe_ret.
Qed.

(** The visit of a node never stops on the bound of the embedding. *)
Lemma safe_visit (n : Node) : forall s, safe (visit n) s.
Proof.
  induction n using Node_induction; intros s.
  - cbn [visit]. destruct (canceled _); [apply safe_raise|].
    unfold visit_KeywordCall. apply safe_bind.
    + destruct (assigns_without_keyword tokens);
        [apply safe_append_diagnostics|].
      destruct (get_token Token.KEYWORD tokens) as [kt|];
        [apply safe_analyze_then_unit|].
      apply safe_try_except; [apply safe_raise|].
      intros; apply safe_report_exception.
    + intros _ s1 _. unfold safe. cbv beta.
      destruct (negb _); [apply safe_append_diagnostics|apply safe_ret].
  - cbn [visit]. destruct (canceled _); [apply safe_raise|].
    unfold visit_Fixture.
    destruct (get_token Token.NAME tokens) as [kt|]; [|apply safe_ret].
    destruct (is_not_variable_token kt);
      [apply safe_analyze_then_unit|apply safe_ret].
  - cbn [visit]. destruct (canceled _); [apply safe_raise|].
    unfold visit_Template.
    destruct (get_token Token.NAME tokens) as [kt|]; [|apply safe_ret].
    destruct (is_not_variable_token kt);
      [apply safe_analyze_then_unit|apply safe_ret].
  - cbn [visit]. destruct (canceled _); [apply safe_raise|].
    unfold visit_TestTemplate.
    destruct (get_token Token.NAME tokens) as [kt|]; [|apply safe_ret].
    destruct (is_not_variable_token kt);
      [apply safe_analyze_then_unit|apply safe_ret].
  - cbn [visit]. destruct (canceled _); [apply safe_raise|apply safe_ret].
  - cbn [visit]. destruct (canceled _); [apply safe_raise|apply safe_ret].
  - rewrite visit_TestCase_eq. destruct (canceled _); [apply safe_raise|].
    unfold visit_TestCase. apply safe_bind.
    + destruct (negb (truthy _));
        [apply safe_append_diagnostics|apply safe_ret].
    + intros _ s1 _. apply safe_named_block. apply safe_for_each_all.
      exact H.
  - rewrite visit_Keyword_eq. destruct (canceled _); [apply safe_raise|].
    unfold visit_Keyword. apply safe_bind.
    + destruct (truthy _);
        [destruct (is_embedded_keyword _ && has_arguments body)|];
        try apply safe_append_diagnostics; apply safe_ret.
    + intros _ s1 _. apply safe_named_block. apply safe_for_each_all.
      exact H.
  - rewrite visit_Block. destruct (canceled _); [apply safe_raise|].
    apply safe_for_each_all. exact H.
Qed.

End VisitorFacts.

(* ================================================================== *)
(** ** The analysis returns when the model lies in the document        *)
(* ================================================================== *)

Lemma get_token_In (type : Token.kind) (tokens : list Token.t) (t : Token.t) :
  get_token type tokens = Some t -> In t tokens.
Proof.
  unfold get_token, get_tokens. intros H.
  assert (Hin : In t (filter (fun t0 => Token.kind_eqb (Token.type t0) type)
                             tokens)).
  { destruct (filter _ tokens) as [|x l]; [discriminate|].
    injection H as ->. left. reflexivity. }
  apply filter_In in Hin. exact (proj1 Hin).
Qed.

Lemma Forall_skipn_of {A} (P : A -> Prop) (n : nat) (l : list A) :
  Forall P l -> Forall P (skipn n l).
Proof.
  intros H. rewrite <- (firstn_skipn n l) in H.
  apply Forall_app in H. exact (proj2 H).
Qed.

Lemma Forall_suffix {A} (P : A -> Prop) (l' l : list A) :
  is_suffix l' l -> Forall P l -> Forall P l'.
Proof. intros [p ->] H. apply Forall_app in H. exact (proj2 H). Qed.

Lemma Forall_nth_error {A} (P : A -> Prop) (l : list A) (n : nat) (x : A) :
  Forall P l -> nth_error l n = Some x -> P x.
Proof.
  intros H E. rewrite Forall_forall in H. apply H.
  exact (nth_error_In _ _ E).
Qed.

Lemma last_In {A} (l : list A) (d : A) : l <> [] -> In (last l d) l.
Proof.
  induction l as [|x l IH]; [congruence|]. intros _.
  destruct l as [|y l]; [left; reflexivity|].
  right. apply IH. discriminate.
Qed.

Section DocumentedReturns.

Context {ext : Externals}.

Hypothesis finder_answers :
  forall keyword, exists r, find_keyword keyword = inr r.
Hypothesis resolver_caught :
  forall spec values until named e,
    resolve spec values until named = Some e -> is_reraised e = false.

Local Abbreviation ok := (token_in_document document).

Lemma returns_append_in_document r m sev c cd src t ri d s :
  range_in_document document r ->
  returns (append_diagnostics r m sev c cd src t ri d) s.
Proof.
  intros H. destruct (should_ignore_within document r H) as (b & Hb & _).
  unfold returns, append_diagnostics, bind, lift_result. rewrite Hb.
  destruct b; eexists _, _; reflexivity.
Qed.

Lemma resolve_error_range_in_document kt args :
  ok kt -> Forall ok args ->
  range_in_document document (resolve_error_range kt args).
Proof.
  unfold token_in_document, range_in_document.
  destruct document as [lines|]; [|trivial].
  intros [Hs He] Hargs. unfold resolve_error_range. cbn [start end_].
  split; [exact Hs|].
  destruct args as [|t0 rest]; [exact He|].
  rewrite Forall_forall in Hargs.
  destruct (Hargs (last (t0 :: rest) t0)) as [_ Hlast];
    [apply last_In; discriminate|exact Hlast].
Qed.

Lemma returns_resolve_arguments_in result kt args s :
  ok kt -> Forall ok args ->
  returns (resolve_arguments result kt args) s.
Proof.
  intros Hkt Hargs. unfold resolve_arguments, try_except, raise.
  destruct (KeywordDoc.arguments result) as [spec|]; [|apply returns_ret].
  destruct (resolve _ _ _ _) as [e|] eqn:E; [|apply returns_ret].
  rewrite (resolver_caught _ _ _ _ _ E).
  apply returns_append_in_document, resolve_error_range_in_document;
    assumption.
Qed.

Lemma returns_report_keyword_in result diags node kt args s :
  ok kt -> Forall ok args ->
  returns (report_keyword result diags node kt args) s.
Proof.
  intros Hkt Hargs. unfold report_keyword. apply returns_bind.
  { apply returns_for_each. intros e s0.
    apply returns_append_in_document. exact Hkt. }
  intros _ s1 _. destruct result as [result|]; [|apply returns_ret].
  apply returns_bind.
  { destruct (KeywordDoc.errors result); [apply returns_ret|].
    apply returns_append_in_document. exact Hkt. }
  intros _ s2 _. apply returns_bind.
  { destruct (KeywordDoc.is_deprecated result); [|apply returns_ret].
    apply returns_append_in_document. exact Hkt. }
  intros _ s3 _. apply returns_bind.
  { destruct (KeywordDoc.is_error_handler result); [|apply returns_ret].
    apply returns_append_in_document. exact Hkt. }
  intros _ s4 _. destruct (negb (is_template node)); [|apply returns_ret].
  apply returns_resolve_arguments_in; assumption.
Qed.

Lemma returns_call_with_in rk kw node kt args flag s :
  ok kt -> Forall ok args ->
  (forall d s1, returns (rk d node args) s1) ->
  returns (_analyze_keyword_call_with rk kw node kt args flag) s.
Proof.
  intros Hkt Hargs H. unfold _analyze_keyword_call_with.
  destruct (negb (is_not_variable_token kt)); [apply returns_ret|].
  apply returns_bind.
  { apply returns_try_except. destruct (finder_answers kw) as [r ->].
    apply returns_bind; [apply returns_ret|]. intros; apply returns_ret. }
  intros [[result diags]|] s1 _; [|apply returns_ret].
  apply returns_bind.
  { apply returns_try_except, returns_report_keyword_in; assumption. }
  intros _ s2 _. destruct result; [|apply returns_ret].
  destruct flag; [|apply returns_ret].
  apply returns_bind; [apply H|]. intros; apply returns_ret.
Qed.

Lemma returns_run_keywords_loop_in rk node :
  forall fuel has_and A s,
    List.length A < fuel ->
    Forall ok A ->
    (forall B d s1, List.length B < List.length A -> Forall ok B ->
                    returns (rk d node B) s1) ->
    returns (run_keywords_loop rk fuel node has_and A) s.
Proof.
  induction fuel as [|fuel IH]; intros has_and A s Hf Hok H; [lia|].
  destruct A as [|t rest]; [apply returns_ret|]. cbn [run_keywords_loop].
  simpl in Hf. inversion Hok as [|t' rest' Ht Hrest_ok]; subst t' rest'.
  assert (Hrest : forall B d s1, List.length B < List.length rest ->
                                 Forall ok B -> returns (rk d node B) s1).
  { intros B d s1 HB HokB. apply H; [simpl; lia|exact HokB]. }
  destruct (is_AND t).
  { apply returns_bind; [apply returns_append_in_document; exact Ht|].
    intros _ s1 _. apply IH; [lia|exact Hrest_ok|exact Hrest]. }
  destruct (negb (is_not_variable_token t));
    [apply IH; [lia|exact Hrest_ok|exact Hrest]|].
  destruct (find is_AND rest) as [a|] eqn:E.
  - destruct (find_AND_inv rest a E) as (args & rest' & -> & Hargs & Ha).
    destruct (find_AND_split args rest' a Hargs Ha) as [_ ->].
    rewrite firstn_app_exact, skipn_app_exact.
    rewrite length_app in Hf. simpl in Hf.
    apply Forall_app in Hrest_ok as [Hargs_ok Htail_ok].
    inversion Htail_ok as [|a' r' Ha_ok Hrest'_ok]; subst a' r'.
    apply returns_bind.
    + apply returns_call_with_in; [exact Ht|exact Hargs_ok|].
      intros d s1. apply H; [|exact Hargs_ok].
      simpl. rewrite length_app. simpl. lia.
    + intros _ s1 _. apply IH; [lia|exact Hrest'_ok|].
      intros B d s2 HB HokB. apply H; [|exact HokB].
      simpl. rewrite length_app. simpl. lia.
  - destruct has_and.
    + apply returns_bind.
      * apply returns_call_with_in; [exact Ht|exact Hrest_ok|].
        intros d s1. apply H; [simpl; lia|exact Hrest_ok].
      * intros _ s1 _. apply IH; simpl; [lia|constructor|].
        intros B d s2 HB. lia.
    + apply returns_bind.
      * apply returns_call_with_in; [exact Ht|constructor|].
        intros d s1. apply H; [simpl; lia|constructor].
      * intros _ s1 _. apply IH; [lia|exact Hrest_ok|exact Hrest].
Qed.

Lemma returns_run_keyword_if_loop_in rk node :
  returns_suffix rk ->
  forall fuel A s,
    List.length A < fuel ->
    Forall ok A ->
    (forall B d s1, List.length B < List.length A -> Forall ok B ->
                    returns (rk d node B) s1) ->
    returns (run_keyword_if_loop rk fuel node A) s.
Proof.
  intros Hrk. induction fuel as [|fuel IH]; intros A s Hf Hok H; [lia|].
  destruct A as [|t0 rest]; [apply returns_ret|]. cbn [run_keyword_if_loop].
  assert (Hskip_ok : forall n, Forall ok (skipn n (t0 :: rest)))
    by (intros n; apply Forall_skipn_of; exact Hok).
  assert (Hskip : forall n d s1,
             0 < n -> returns (rk d node (skipn n (t0 :: rest))) s1).
  { intros n d s1 Hn. apply H; [|apply Hskip_ok].
    rewrite length_skipn. cbn [List.length]. lia. }
  destruct ((Token.value t0 =? "ELSE")
            && (1 <? List.length (t0 :: rest))%nat).
  { destruct (nth_error (t0 :: rest) 1) as [t1|] eqn:E1;
      [|apply returns_ret].
    apply returns_bind.
    { apply returns_call_with_in;
        [exact (Forall_nth_error _ _ _ _ Hok E1)|apply Hskip_ok|].
      intros; apply Hskip; lia. }
    intros result s1 _.
    apply returns_bind;
      [apply returns_analyse_branch_keyword; intros; apply Hskip; lia|].
    intros; apply returns_ret. }
  destruct ((Token.value t0 =? "ELSE IF")
            && (2 <? List.length (t0 :: rest))%nat).
  { destruct (nth_error (t0 :: rest) 2) as [t2|] eqn:E2;
      [|apply returns_ret].
    apply returns_bind.
    { apply returns_call_with_in;
        [exact (Forall_nth_error _ _ _ _ Hok E2)|apply Hskip_ok|].
      intros; apply Hskip; lia. }
    intros result s1 _.
    apply returns_bind;
      [apply returns_analyse_branch_keyword; intros; apply Hskip; lia|].
    intros A1 s2 H1.
    apply analyse_branch_keyword_suffix in H1; [|exact Hrk].
    pose proof (Forall_suffix _ _ _ H1 (Hskip_ok 3)) as HA1.
    pose proof (Forall_suffix _ _ _ (is_suffix_skip_args A1) HA1) as Hleft.
    apply is_suffix_length in H1. rewrite length_skipn in H1.
    pose proof (is_suffix_length _ _ (is_suffix_skip_args A1)).
    simpl in *.
    apply IH; [lia|exact Hleft|].
    intros B d s3 HB HokB. apply H; [simpl; lia|exact HokB]. }
  apply returns_ret.
Qed.

Lemma returns_with_in rk d node A s :
  returns_suffix rk ->
  Forall ok A ->
  (forall B d' s1, List.length B < List.length A -> Forall ok B ->
                   returns (rk d' node B) s1) ->
  returns (_analyse_run_keyword_with rk d node A) s.
Proof.
  intros Hrk Hok H. unfold _analyse_run_keyword_with.
  assert (Hskip_ok : forall n, Forall ok (skipn n A))
    by (intros n; apply Forall_skipn_of; exact Hok).
  destruct d as [doc|]; [|apply returns_ret].
  destruct (negb (KeywordDoc.is_any_run_keyword doc)); [apply returns_ret|].
  destruct (KeywordDoc.is_run_keyword doc && _).
  { destruct (nth_error A 0) as [t|] eqn:E; [|apply returns_ret].
    apply returns_bind; [|intros; apply returns_ret].
    apply returns_call_with_in;
      [exact (Forall_nth_error _ _ _ _ Hok E)|apply Hskip_ok|].
    intros d s1.
    apply H; [apply (nth_error_skipn_shorter A 0 t E)|apply Hskip_ok]. }
  destruct (KeywordDoc.is_run_keyword_with_condition doc && _).
  { cbv zeta.
    destruct (nth_error A (KeywordDoc.run_keyword_condition_count doc))
      as [t|] eqn:E; [|apply returns_ret].
    apply returns_bind; [|intros; apply returns_ret].
    apply returns_call_with_in;
      [exact (Forall_nth_error _ _ _ _ Hok E)|apply Hskip_ok|].
    intros d s1.
    apply H; [apply (nth_error_skipn_shorter A _ t E)|apply Hskip_ok]. }
  destruct (KeywordDoc.is_run_keywords doc).
  { apply returns_bind; [|intros; apply returns_ret].
    apply returns_run_keywords_loop_in; [lia|exact Hok|exact H]. }
  destruct (KeywordDoc.is_run_keyword_if doc && _); [|apply returns_ret].
  destruct (nth_error A 1) as [kwt|] eqn:E; [|apply returns_ret].
  destruct (finder_answers (Some (Token.value kwt))) as [found Hfound].
  rewrite Hfound.
  apply returns_bind; [apply returns_ret|]. intros found' s1 _.
  pose proof (nth_error_skipn_shorter A 1 kwt E
              : List.length (skipn 2 A) < List.length A) as Hlen.
  apply returns_bind.
  { destruct (match fst found' with
              | Some r => KeywordDoc.is_any_run_keyword r
              | None => false
              end); [apply H; [exact Hlen|apply Hskip_ok]|].
    pose proof (skip_args_split (skipn 2 A)) as Hs.
    pose proof (Hskip_ok 2) as Hok2.
    destruct (skip_args (skipn 2 A)) as [args left]. cbn [fst snd] in Hs.
    rewrite Hs in Hok2. apply Forall_app in Hok2 as [Hargs_ok _].
    apply (f_equal (@List.length _)) in Hs. rewrite length_app in Hs.
    apply returns_bind; [|intros; apply returns_ret].
    destruct (is_not_variable_token kwt); [|apply returns_ret].
    apply returns_bind; [|intros; apply returns_ret].
    apply returns_call_with_in;
      [exact (Forall_nth_error _ _ _ _ Hok E)|exact Hargs_ok|].
    intros d s2. apply H; [lia|exact Hargs_ok]. }
  intros A1 s2 H1.
  assert (Hs : is_suffix A1 (skipn 2 A)).
  { destruct (match fst found' with
              | Some r => KeywordDoc.is_any_run_keyword r
              | None => false
              end).
    - eapply Hrk. exact H1.
    - pose proof (is_suffix_skip_args (skipn 2 A)) as Hs.
      destruct (skip_args (skipn 2 A)) as [args left]. simpl in Hs.
      apply bind_Return_inv in H1 as (u & s3' & _ & H1).
      injection H1 as <- _. exact Hs. }
  pose proof (Forall_suffix _ _ _ Hs (Hskip_ok 2)) as HA1.
  apply is_suffix_length in Hs.
  apply returns_run_keyword_if_loop_in; [exact Hrk|lia|exact HA1|].
  intros B d' s3 HB HokB. apply H; [lia|exact HokB].
Qed.

(** With a bound above the length of the input, the machine returns on
    tokens that lie in the document. *)
Lemma analyse_returns_in fuel :
  forall A d node s,
    List.length A < fuel -> Forall ok A ->
    returns (_analyse_run_keyword_fuel fuel d node A) s.
Proof.
  induction fuel as [|fuel IH]; intros A d node s H Hok; [lia|].
  apply returns_with_in; [apply analyse_suffix|exact Hok|].
  intros B d' s1 HB HokB. apply IH; [lia|exact HokB].
Qed.

Lemma returns_analyze_then_unit_in kw node kt args s :
  ok kt -> Forall ok args ->
  returns (_analyze_keyword_call kw node kt args true ;; ret tt) s.
Proof.
  intros Hkt Hargs. apply returns_bind; [|intros; apply returns_ret].
  apply returns_call_with_in; [exact Hkt|exact Hargs|].
  intros d s1. apply analyse_returns_in; [lia|exact Hargs].
Qed.

Lemma only_reraises_append_in_document r m sev c cd src t ri d s :
  range_in_document document r ->
  only_reraises (append_diagnostics r m sev c cd src t ri d) s.
Proof.
  intros H.
  destruct (returns_append_in_document r m sev c cd src t ri d s H)
    as ([] & s' & E).
  unfold only_reraises. rewrite E. exact I.
Qed.

Lemma only_reraises_try_except {A} (m : M A) h s :
  safe m s -> (forall e s1, only_reraises (h e) s1) ->
  only_reraises (try_except m h) s.
Proof.
  unfold safe, only_reraises, try_except. intros Hm Hh.
  destruct (m s) as [[a|e|] s1]; simpl in *; try congruence; [exact I|].
  destruct (is_reraised e) eqn:E; [exact E|apply Hh].
Qed.

Lemma only_reraises_bind {A B} (m : M A) (k : A -> M B) s :
  only_reraises m s ->
  (forall a s1, only_reraises (k a) s1) ->
  only_reraises (bind m k) s.
Proof.
  unfold only_reraises, bind. intros Hm Hk.
  destruct (m s) as [[a|e|] s1]; simpl in *;
    [apply Hk|exact Hm|exact Hm].
Qed.

(** With [analyse_run_keywords=False] the two [try] statements decide how
    the call ends when its keyword token lies in the document: it
    returns, or it raises what the handlers re-raise. *)
Lemma analyze_keyword_call_reraises_only kw node kt args s :
  ok kt ->
  only_reraises (_analyze_keyword_call kw node kt args false) s.
Proof.
  intros Hkt. unfold _analyze_keyword_call, _analyze_keyword_call_with.
  destruct (negb (is_not_variable_token kt)); [exact I|].
  apply only_reraises_bind.
  { apply only_reraises_try_except.
    - apply safe_bind; [apply safe_lift_result|]. intros; apply safe_ret.
    - intros e s1. apply only_reraises_bind;
        [apply only_reraises_append_in_document; exact Hkt|].
      intros; exact I. }
  intros [[result diags]|] s1; [|exact I].
  apply only_reraises_bind.
  { apply only_reraises_try_except; [apply safe_report_keyword|].
    intros; apply only_reraises_append_in_document; exact Hkt. }
  intros _ s2. destruct result; exact I.
Qed.

Hypothesis never_canceled : forall n, canceled n = false.
Hypothesis none_token_caught : is_reraised none_token_error = false.

Local Abbreviation node_ok n :=
  (range_in_document document (range_from_node n)
   /\ Forall ok (own_tokens n)).

Lemma range_from_node_or_token_in_document node type :
  node_ok node ->
  range_in_document document
    (range_from_node_or_token node (get_token type (own_tokens node))).
Proof.
  intros [Hr Ht]. destruct (get_token type (own_tokens node)) as [t|] eqn:E.
  - rewrite Forall_forall in Ht. exact (Ht t (get_token_In _ _ _ E)).
  - exact Hr.
Qed.

Lemma get_tokens_in_document type tokens :
  Forall ok tokens -> Forall ok (get_tokens type tokens).
Proof.
  rewrite !Forall_forall. intros H t Ht. apply H.
  unfold get_tokens in Ht. apply filter_In in Ht. exact (proj1 Ht).
Qed.

Lemma get_token_in_document type tokens t :
  Forall ok tokens -> get_token type tokens = Some t -> ok t.
Proof.
  rewrite Forall_forall. intros H E. exact (H t (get_token_In _ _ _ E)).
Qed.

Lemma subnodes_self (n : Node) : In n (subnodes n).
Proof. destruct n; left; reflexivity. Qed.

Lemma subnodes_child (m child : Node) (body : list Node) (n : Node) :
  In child body -> In m (subnodes child) ->
  (exists header r, n = TestCase header r body)
  \/ (exists header r, n = Keyword header r body)
  \/ (exists r, n = Block r body) ->
  In m (subnodes n).
Proof.
  intros Hc Hm [(h & r & ->)|[(h & r & ->)|(r & ->)]];
    cbn [subnodes]; right; apply in_flat_map; exists child;
    split; assumption.
Qed.

Lemma returns_visit_in (n : Node) :
  (forall m, In m (subnodes n) -> node_ok m) ->
  forall s, returns (visit n) s.
Proof.
  induction n as [tokens r|tokens r|tokens r|tokens r|tokens r|tokens r
                  |header r body IH|header r body IH|r body IH]
    using Node_induction; intros Hin s;
    pose proof (Hin _ (subnodes_self _)) as Hself.
  - cbn [visit]. rewrite never_canceled. destruct Hself as [Hr Ht].
    cbn [own_tokens] in Ht.
    unfold visit_KeywordCall. apply returns_bind.
    + destruct (assigns_without_keyword tokens).
      * apply returns_append_in_document.
        exact (range_from_node_or_token_in_document
                 (KeywordCall tokens r) Token.ASSIGN (conj Hr Ht)).
      * destruct (get_token Token.KEYWORD tokens) as [kt|] eqn:E.
        -- apply returns_analyze_then_unit_in.
           ++ exact (get_token_in_document _ _ _ Ht E).
           ++ apply get_tokens_in_document. exact Ht.
        -- unfold try_except, raise. rewrite none_token_caught.
           apply returns_append_in_document. exact Hr.
    + intros _ s1 _. unfold returns. cbv beta.
      destruct (negb _); [|apply returns_ret].
      apply returns_append_in_document.
      exact (range_from_node_or_token_in_document
               (KeywordCall tokens r) Token.ASSIGN (conj Hr Ht)).
  - cbn [visit]. rewrite never_canceled. destruct Hself as [Hr Ht].
    cbn [own_tokens] in Ht. unfold visit_Fixture.
    destruct (get_token Token.NAME tokens) as [kt|] eqn:E;
      [|apply returns_ret].
    destruct (is_not_variable_token kt); [|apply returns_ret].
    apply returns_analyze_then_unit_in.
    + exact (get_token_in_document _ _ _ Ht E).
    + apply get_tokens_in_document. exact Ht.
  - cbn [visit]. rewrite never_canceled. destruct Hself as [Hr Ht].
    cbn [own_tokens] in Ht. unfold visit_Template.
    destruct (get_token Token.NAME tokens) as [kt|] eqn:E;
      [|apply returns_ret].
    destruct (is_not_variable_token kt); [|apply returns_ret].
    apply returns_analyze_then_unit_in;
      [exact (get_token_in_document _ _ _ Ht E)|constructor].
  - cbn [visit]. rewrite never_canceled. destruct Hself as [Hr Ht].
    cbn [own_tokens] in Ht. unfold visit_TestTemplate.
    destruct (get_token Token.NAME tokens) as [kt|] eqn:E;
      [|apply returns_ret].
    destruct (is_not_variable_token kt); [|apply returns_ret].
    apply returns_analyze_then_unit_in;
      [exact (get_token_in_document _ _ _ Ht E)|constructor].
  - cbn [visit]. rewrite never_canceled. apply returns_ret.
  - cbn [visit]. rewrite never_canceled. apply returns_ret.
  - rewrite visit_TestCase_eq, never_canceled.
    unfold visit_TestCase. apply returns_bind.
    + destruct (negb (truthy _)); [|apply returns_ret].
      apply returns_append_in_document.
      exact (range_from_node_or_token_in_document
               (TestCase header r body) Token.TESTCASE_NAME Hself).
    + intros _ s1 _. apply returns_named_block. apply returns_for_each_all.
      rewrite Forall_forall in IH. apply Forall_forall.
      intros child Hc s0. apply (IH child Hc).
      intros m Hm. apply Hin.
      apply (subnodes_child m child body); [exact Hc|exact Hm|].
      left. exists header, r. reflexivity.
  - rewrite visit_Keyword_eq, never_canceled.
    unfold visit_Keyword. apply returns_bind.
    + destruct (truthy _);
        [destruct (is_embedded_keyword _ && has_arguments body)|];
        try apply returns_ret;
        apply returns_append_in_document;
        exact (range_from_node_or_token_in_document
                 (Keyword header r body) Token.KEYWORD_NAME Hself).
    + intros _ s1 _. apply returns_named_block. apply returns_for_each_all.
      rewrite Forall_forall in IH. apply Forall_forall.
      intros child Hc s0. apply (IH child Hc).
      intros m Hm. apply Hin.
      apply (subnodes_child m child body); [exact Hc|exact Hm|].
      right. left. exists header, r. reflexivity.
  - rewrite visit_Block, never_canceled. apply returns_for_each_all.
    rewrite Forall_forall in IH. apply Forall_forall.
    intros child Hc s0. apply (IH child Hc).
    intros m Hm. apply Hin.
    apply (subnodes_child m child body); [exact Hc|exact Hm|].
    right. right. exists r. reflexivity.
Qed.

End DocumentedReturns.

Lemma quiet_example : quiet Examples.quiet_environment.
Proof.
  split.
  - intros keyword. simpl. unfold Examples.quiet_finder.
    destruct (Examples.lookup keyword); eexists; reflexivity.
  - intros [names] values until named e. simpl.
    destruct (_ <? _)%nat; intros [= <-]. reflexivity.
Qed.

(** C5.  For every keyword descriptor (of any run-keyword family, of
    none, or absent) and every list [A] of argument tokens,
    [_analyse_run_keyword] never exhausts the bound of the embedding, and
    when it returns, the list it returns is a suffix of [A]: the machine
    consumes a prefix of at most [|A|] tokens and returns no token that is
    not in [A].  In an environment where the finder always answers and the
    resolver raises nothing that is re-raised, and on tokens that lie
    within the lines of the document, so that the suppression scan reads
    only lines that exist (nothing is asked of the tokens when there is no
    document), it does return. *)
Theorem analyse_run_keyword_returns_suffix :
  forall (ext : Externals) (keyword_doc : option KeywordDoc.t) (node : Node)
         (A : list Token.t) (s : AnalyzerState),
    match fst (_analyse_run_keyword keyword_doc node A s) with
    | Return A' =>
        (exists consumed, A = consumed ++ A'
                          /\ List.length consumed <= List.length A)
        /\ List.length A' <= List.length A
    | Raise _ => True
    | OutOfFuel => False
    end
    /\ (quiet ext -> Forall (token_in_document document) A ->
        exists A' s' consumed,
          _analyse_run_keyword keyword_doc node A s = (Return A', s')
          /\ A = consumed ++ A').
Proof.
  intros ext keyword_doc node A s. unfold _analyse_run_keyword. split.
  - pose proof (analyse_safe (S (List.length A)) A keyword_doc node s
                             (Nat.lt_succ_diag_r _)) as Hsafe.
    unfold safe in Hsafe.
    destruct (_analyse_run_keyword_fuel (S (List.length A)) keyword_doc node
                                        A s) as [[A'|e|] s'] eqn:E;
      cbn [fst] in *; [|exact I|congruence].
    apply analyse_suffix in E. split.
    + destruct E as [consumed ->]. exists consumed. split; [reflexivity|].
      rewrite length_app. lia.
    + apply is_suffix_length. exact E.
  - intros (Hfind & Hresolve) Hin.
    destruct (analyse_returns_in Hfind Hresolve (S (List.length A)) A
                                 keyword_doc node s (Nat.lt_succ_diag_r _)
                                 Hin)
      as (A' & s' & E).
    exists A', s'. destruct (analyse_suffix _ _ _ _ _ _ _ E) as [consumed Hc].
    exists consumed. split; [exact E|exact Hc].
Qed.

Lemma analyse_run_keyword_returns_suffix_witness :
  quiet MoreExamples.else_environment
  /\ Forall (token_in_document (@document MoreExamples.else_environment))
            (get_tokens Token.ARGUMENT (Examples.tokens_of Examples.else_call))
  /\ exists A' s' consumed,
       @_analyse_run_keyword MoreExamples.else_environment
         (Some Examples.Run_Keyword_If) Examples.else_call
         (get_tokens Token.ARGUMENT (Examples.tokens_of Examples.else_call))
         (mkState [] (Some "T"))
       = (Return A', s')
       /\ get_tokens Token.ARGUMENT (Examples.tokens_of Examples.else_call)
          = consumed ++ A'.
Proof.
  assert (Hin : Forall (token_in_document
                          (@document MoreExamples.else_environment))
                       (get_tokens Token.ARGUMENT
                          (Examples.tokens_of Examples.else_call))).
  { repeat constructor; simpl; lia. }
  split; [exact quiet_example|]. split; [exact Hin|].
  exact (proj2 (analyse_run_keyword_returns_suffix
                  MoreExamples.else_environment (Some Examples.Run_Keyword_If)
                  Examples.else_call
                  (get_tokens Token.ARGUMENT
                              (Examples.tokens_of Examples.else_call))
                  (mkState [] (Some "T")))
               quiet_example Hin).
Defined.


Section UnreachableHint.

Context {ext : Externals}.

Lemma grows_Return {A} (m : M A) s a s' :
  grows m s -> m s = (Return a, s') ->
  exists added, _results s' = _results s ++ added.
Proof. intros [added H] E. rewrite E in H. exists added. exact H. Qed.

Lemma for_each_visit_hints (body : list Node) :
  Forall hints_when_unnamed body ->
  forall s s',
    truthy (current_testcase_or_keyword_name s) = false ->
    for_each body visit s = (Return tt, s') ->
    truthy (current_testcase_or_keyword_name s') = false
    /\ forall tokens kr,
         occurs_in (KeywordCall tokens kr) body ->
         emitted (unreachable_hint (KeywordCall tokens kr) tokens) s'.
Proof.
  induction 1 as [|x xs Hx Hxs IH]; intros s s' Hname H.
  - injection H as <-. split; [exact Hname|].
    intros tokens kr (child & [] & _).
  - cbn [for_each] in H. apply bind_Return_inv in H as ([] & s1 & H1 & H2).
    destruct (Hx s s1 Hname H1) as [Hname1 Hhint1].
    destruct (IH s1 s' Hname1 H2) as [Hname' Hhint'].
    split; [exact Hname'|].
    intros tokens kr (child & [<-|Hin] & Hreach).
    + destruct (grows_Return _ _ _ _
                  (grows_for_each xs visit
                     (proj2 (Forall_forall _ _)
                            (fun n _ => grows_visit n)) s1) H2)
        as [added Ha].
      eapply emitted_grows; [exact Ha|]. apply Hhint1. exact Hreach.
    + apply Hhint'. exists child. split; assumption.
Qed.

Lemma named_block_Return (m : M unit) name s s' :
  try_finally m (set_current_testcase_or_keyword_name None)
              (set_current_testcase_or_keyword_name name s)
  = (Return tt, s') ->
  exists s2,
    m (set_current_testcase_or_keyword_name name s) = (Return tt, s2)
    /\ s' = set_current_testcase_or_keyword_name None s2.
Proof.
  unfold try_finally.
  destruct (m (set_current_testcase_or_keyword_name name s)) as [o s2].
  intros [= -> <-]. exists s2. split; reflexivity.
Qed.

Lemma hints_when_unnamed_all (n : Node) : hints_when_unnamed n.
Proof.
  induction n using Node_induction; intros s s' Hname Hv.
  - cbn [visit] in Hv. destruct (canceled _); [discriminate|].
    destruct (extends_Return _ _ _ _
                (extends_visit_KeywordCall _ tokens s) Hv) as [Hcur _].
    split; [rewrite Hcur; exact Hname|].
    intros tokens' kr Hreach. inversion Hreach; subst.
    exact (visit_KeywordCall_unreachable _ _ _ _ Hname Hv).
  - cbn [visit] in Hv. destruct (canceled _); [discriminate|].
    destruct (extends_Return _ _ _ _
                (extends_visit_Fixture _ tokens s) Hv) as [Hcur _].
    split; [rewrite Hcur; exact Hname|].
    intros tokens' kr Hreach. inversion Hreach.
  - cbn [visit] in Hv. destruct (canceled _); [discriminate|].
    destruct (extends_Return _ _ _ _
                (extends_visit_Template _ tokens s) Hv) as [Hcur _].
    split; [rewrite Hcur; exact Hname|].
    intros tokens' kr Hreach. inversion Hreach.
  - cbn [visit] in Hv. destruct (canceled _); [discriminate|].
    destruct (extends_Return _ _ _ _
                (extends_visit_TestTemplate _ tokens s) Hv) as [Hcur _].
    split; [rewrite Hcur; exact Hname|].
    intros tokens' kr Hreach. inversion Hreach.
  - cbn [visit] in Hv. destruct (canceled _); [discriminate|].
    injection Hv as <-. split; [exact Hname|].
    intros tokens' kr Hreach. inversion Hreach.
  - cbn [visit] in Hv. destruct (canceled _); [discriminate|].
    injection Hv as <-. split; [exact Hname|].
    intros tokens' kr Hreach. inversion Hreach.
  - rewrite visit_TestCase_eq in Hv. destruct (canceled _); [discriminate|].
    unfold visit_TestCase in Hv.
    apply bind_Return_inv in Hv as (u & s1 & _ & Hv).
    apply named_block_Return in Hv as (s2 & _ & ->).
    split; [reflexivity|]. intros tokens' kr Hreach. inversion Hreach.
  - rewrite visit_Keyword_eq in Hv. destruct (canceled _); [discriminate|].
    unfold visit_Keyword in Hv.
    apply bind_Return_inv in Hv as (u & s1 & _ & Hv).
    apply named_block_Return in Hv as (s2 & _ & ->).
    split; [reflexivity|]. intros tokens' kr Hreach. inversion Hreach.
  - rewrite visit_Block in Hv. destruct (canceled _); [discriminate|].
    destruct (for_each_visit_hints body H s s' Hname Hv) as [Hname' Hhint].
    split; [exact Hname'|].
    intros tokens' kr Hreach. inversion Hreach; subst.
    apply Hhint. exists child. split; assumption.
Qed.

(** The body of a block without a name, visited to its end. *)
Lemma unnamed_block_body body name s s' d :
  truthy name = false ->
  emitted d s ->
  try_finally (for_each body visit)
              (set_current_testcase_or_keyword_name None)
              (set_current_testcase_or_keyword_name name s)
  = (Return tt, s') ->
  emitted d s'
  /\ forall tokens kr,
       occurs_in (KeywordCall tokens kr) body ->
       emitted (unreachable_hint (KeywordCall tokens kr) tokens) s'.
Proof.
  intros Hname Hd H. apply named_block_Return in H as (s2 & H & ->).
  destruct (for_each_visit_hints body
              (proj2 (Forall_forall _ _) (fun n _ => hints_when_unnamed_all n))
              (set_current_testcase_or_keyword_name name s) s2 Hname H)
    as [_ Hhint].
  destruct (grows_Return _ _ _ _
              (grows_for_each body visit
                 (proj2 (Forall_forall _ _) (fun n _ => grows_visit n)) _) H)
    as [added Ha].
  split.
  - eapply emitted_grows; [|exact Hd]. exact Ha.
  - intros tokens kr Ho. destruct (Hhint tokens kr Ho) as [Hi|Hin];
      [left; exact Hi|right; exact Hin].
Qed.

End UnreachableHint.

(** C10.  A keyword call that occurs in the body of a test case or of a
    keyword whose name is empty, directly or inside its loops and branches,
    has the Hint "Code is unreachable.", tagged Unnecessary, emitted for
    it whenever the block is visited to its end, next to the Error for the
    empty name of the block: the analyzer stores the block's name, and
    [visit_KeywordCall] emits the hint for an empty stored name as it does
    for an absent one.  A diagnostic is emitted when it is in the results,
    unless the suppression scan has dropped it.  The visit ends by
    returning or by raising, never on the bound of the embedding; without
    cancellation, in an environment where the finder always answers and
    the resolver raises nothing that is re-raised, and on a block whose
    nodes and tokens lie within the lines of the document, so that the
    suppression scan reads only lines that exist, it returns. *)
Theorem keyword_call_in_unnamed_block_is_unreachable :
  forall (ext : Externals) (header : list Token.t) (r : Range)
         (body : list Node) (tokens : list Token.t) (kr : Range)
         (s s' : AnalyzerState),
    occurs_in (KeywordCall tokens kr) body ->
    (truthy (get_value Token.TESTCASE_NAME header) = false ->
     visit (TestCase header r body) s = (Return tt, s') ->
     emitted (empty_name_error (TestCase header r body) Token.TESTCASE_NAME
                               header "Test case name cannot be empty.") s'
     /\ emitted (unreachable_hint (KeywordCall tokens kr) tokens) s')
    /\ (truthy (get_value Token.KEYWORD_NAME header) = false ->
        visit (Keyword header r body) s = (Return tt, s') ->
        emitted (empty_name_error (Keyword header r body) Token.KEYWORD_NAME
                                  header "Keyword name cannot be empty.") s'
        /\ emitted (unreachable_hint (KeywordCall tokens kr) tokens) s')
    /\ (forall name results s'',
           truthy name = false ->
           visit_KeywordCall (KeywordCall tokens kr) tokens
                             (mkState results name)
           = (Return tt, s'') ->
           emitted (unreachable_hint (KeywordCall tokens kr) tokens) s'')
    /\ fst (visit (TestCase header r body) s) <> OutOfFuel
    /\ fst (visit (Keyword header r body) s) <> OutOfFuel
    /\ (quiet ext -> (forall n, canceled n = false) ->
        is_reraised none_token_error = false ->
        (model_in_document document (TestCase header r body) ->
         exists s1, visit (TestCase header r body) s = (Return tt, s1))
        /\ (model_in_document document (Keyword header r body) ->
            exists s1, visit (Keyword header r body) s = (Return tt, s1))).
Proof.
  intros ext header r body tokens kr s s' Ho.
  split; [|split; [|split; [|split; [apply safe_visit|split;
                                     [apply safe_visit|]]]]];
    [| | |intros [Hfind Hresolve] Hc Hn; split; intros Hin;
          [destruct (returns_visit_in Hfind Hresolve Hc Hn
                       (TestCase header r body) Hin s) as ([] & s1 & E)
          |destruct (returns_visit_in Hfind Hresolve Hc Hn
                       (Keyword header r body) Hin s) as ([] & s1 & E)];
          exists s1; exact E].
  - intros Hname Hv. rewrite visit_TestCase_eq in Hv.
    destruct (canceled _); [discriminate|].
    unfold visit_TestCase in Hv. rewrite Hname in Hv. cbn [negb] in Hv.
    apply bind_Return_inv in Hv as ([] & s1 & H1 & Hv).
    apply append_diagnostics_emitted in H1.
    destruct (unnamed_block_body body _ s1 s' _ Hname H1 Hv) as [He Hh].
    split; [exact He|]. apply Hh. exact Ho.
  - intros Hname Hv. rewrite visit_Keyword_eq in Hv.
    destruct (canceled _); [discriminate|].
    unfold visit_Keyword in Hv. rewrite Hname in Hv.
    apply bind_Return_inv in Hv as ([] & s1 & H1 & Hv).
    apply append_diagnostics_emitted in H1.
    destruct (unnamed_block_body body _ s1 s' _ Hname H1 Hv) as [He Hh].
    split; [exact He|]. apply Hh. exact Ho.
  - intros name results s'' Hname Hv.
    exact (visit_KeywordCall_unreachable _ _ (mkState results name) s''
                                         Hname Hv).
Qed.

Lemma keyword_call_in_unnamed_block_is_unreachable_witness :
  occurs_in (Examples.call_line 3 ["Log"; "hi"])
            [Examples.call_line 3 ["Log"; "hi"]]
  /\ truthy (get_value Token.TESTCASE_NAME
                       [Token.mk Token.TESTCASE_NAME "" 2 0]) = false
  /\ @visit (Examples.environment None) Examples.unnamed_test
       (mkState [] None)
     = (Return tt,
        mkState
          [empty_name_error Examples.unnamed_test Token.TESTCASE_NAME
             [Token.mk Token.TESTCASE_NAME "" 2 0]
             "Test case name cannot be empty.";
           unreachable_hint (Examples.call_line 3 ["Log"; "hi"])
             (Examples.cells Token.KEYWORD 3 4 ["Log"; "hi"])]
          None)
  /\ @emitted (Examples.environment None)
       (empty_name_error Examples.unnamed_test Token.TESTCASE_NAME
          [Token.mk Token.TESTCASE_NAME "" 2 0]
          "Test case name cannot be empty.")
       (mkState
          [empty_name_error Examples.unnamed_test Token.TESTCASE_NAME
             [Token.mk Token.TESTCASE_NAME "" 2 0]
             "Test case name cannot be empty.";
           unreachable_hint (Examples.call_line 3 ["Log"; "hi"])
             (Examples.cells Token.KEYWORD 3 4 ["Log"; "hi"])]
          None)
  /\ @emitted (Examples.environment None)
       (unreachable_hint (Examples.call_line 3 ["Log"; "hi"])
          (Examples.cells Token.KEYWORD 3 4 ["Log"; "hi"]))
       (mkState
          [empty_name_error Examples.unnamed_test Token.TESTCASE_NAME
             [Token.mk Token.TESTCASE_NAME "" 2 0]
             "Test case name cannot be empty.";
           unreachable_hint (Examples.call_line 3 ["Log"; "hi"])
             (Examples.cells Token.KEYWORD 3 4 ["Log"; "hi"])]
          None).
Proof.
  assert (Ho : occurs_in (Examples.call_line 3 ["Log"; "hi"])
                         [Examples.call_line 3 ["Log"; "hi"]]).
  { exists (Examples.call_line 3 ["Log"; "hi"]).
    split; [left; reflexivity|apply reaches_self]. }
  assert (Hv : @visit (Examples.environment None) Examples.unnamed_test
                 (mkState [] None)
               = (Return tt,
                  mkState
                    [empty_name_error Examples.unnamed_test
                       Token.TESTCASE_NAME
                       [Token.mk Token.TESTCASE_NAME "" 2 0]
                       "Test case name cannot be empty.";
                     unreachable_hint (Examples.call_line 3 ["Log"; "hi"])
                       (Examples.cells Token.KEYWORD 3 4 ["Log"; "hi"])]
                    None))
    by (vm_compute; reflexivity).
  split; [exact Ho|]. split; [reflexivity|]. split; [exact Hv|].
  exact (proj1 (keyword_call_in_unnamed_block_is_unreachable
                  (Examples.environment None)
                  [Token.mk Token.TESTCASE_NAME "" 2 0]
                  (range_from_node Examples.unnamed_test)
                  [Examples.call_line 3 ["Log"; "hi"]]
                  (Examples.cells Token.KEYWORD 3 4 ["Log"; "hi"])
                  (range_from_node (Examples.call_line 3 ["Log"; "hi"]))
                  (mkState [] None) _ Ho)
               eq_refl Hv).
Defined.

(* ================================================================== *)
(** ** An assignment without a keyword                                 *)
(* ================================================================== *)

Lemma append_diagnostics_same_document (ext1 ext2 : Externals)
    r m sev c cd src t ri d s :
  @document ext1 = @document ext2 ->
  @append_diagnostics ext1 r m sev c cd src t ri d s
  = @append_diagnostics ext2 r m sev c cd src t ri d s.
Proof. intros H. unfold append_diagnostics. rewrite H. reflexivity. Qed.

Lemma get_token_of_values type tokens :
  get_values type tokens <> [] ->
  exists t, get_token type tokens = Some t.
Proof.
  unfold get_values, get_token.
  destruct (get_tokens type tokens) as [|t rest]; [intros H; now elim H|].
  intros _. exists t. reflexivity.
Qed.

(** C8.  For a keyword call whose assign list is not empty and whose
    keyword name is empty or absent, [visit_KeywordCall] first emits, on
    the range of the ASSIGN token, a diagnostic with message
    "Keyword name cannot be empty.", severity Error and code
    "KeywordError" (it is the first new result unless the suppression scan
    drops it), then goes on to the unreachable test; and what it does is
    the same for every finder, resolver and token classifier, so no
    keyword is resolved for the node. *)
Theorem assignment_without_keyword_is_reported :
  forall (ext : Externals) (node : Node) (tokens : list Token.t)
         (s : AnalyzerState),
    get_values Token.ASSIGN tokens <> [] ->
    truthy (get_value Token.KEYWORD tokens) = false ->
    exists assign_token,
      get_token Token.ASSIGN tokens = Some assign_token
      /\ visit_KeywordCall node tokens s
         = (append_diagnostics (range_from_token assign_token)
              "Keyword name cannot be empty." (Some ERROR)
              (Some "KeywordError") None (Some "robotcode") None None None ;;
            fun s1 =>
              (if negb (truthy (current_testcase_or_keyword_name s1))
               then report_unreachable node tokens
               else ret tt) s1) s
      /\ (should_ignore document (range_from_token assign_token) = inr false ->
          exists more,
            _results (snd (visit_KeywordCall node tokens s))
            = _results s
              ++ mkDiagnostic (range_from_token assign_token)
                   "Keyword name cannot be empty." (Some ERROR)
                   (Some "KeywordError") None (Some "robotcode") None None
                   None
                 :: more)
      /\ (forall ext' : Externals,
             @document ext' = @document ext ->
             @visit_KeywordCall ext' node tokens s
             = @visit_KeywordCall ext node tokens s).
Proof.
  intros ext node tokens s Hassign Hkeyword.
  destruct (get_token_of_values _ _ Hassign) as [assign_token Ht].
  exists assign_token. split; [exact Ht|].
  assert (Hbranch : assigns_without_keyword tokens = true).
  { unfold assigns_without_keyword.
    destruct (get_values Token.ASSIGN tokens); [now elim Hassign|].
    rewrite Hkeyword. reflexivity. }
  assert (Heq : forall ext0 : Externals,
             @visit_KeywordCall ext0 node tokens s
             = (@append_diagnostics ext0 (range_from_token assign_token)
                  "Keyword name cannot be empty." (Some ERROR)
                  (Some "KeywordError") None (Some "robotcode") None None
                  None ;;
                fun s1 =>
                  (if negb (truthy (current_testcase_or_keyword_name s1))
                   then @report_unreachable ext0 node tokens
                   else ret tt) s1) s).
  { intros ext0. unfold visit_KeywordCall. rewrite Hbranch, Ht.
    reflexivity. }
  split; [apply Heq|]. split.
  - intros Hscan. rewrite Heq. unfold bind at 1.
    unfold append_diagnostics at 1. unfold bind at 1, lift_result.
    rewrite Hscan. cbn [ret append_result].
    match goal with
    | |- context [(if ?b then ?x else ?y) ?s1] =>
        assert (Hext : extends (if b then x else y) s1)
    end.
    { destruct (negb _);
        [apply extends_append_diagnostics|apply extends_ret]. }
    destruct Hext as [added Ha]. exists added.
    cbv beta. rewrite Ha. cbn [_results]. rewrite <- app_assoc. reflexivity.
  - intros ext' Hdoc. rewrite (Heq ext'), (Heq ext).
    apply bind_ext; [apply append_diagnostics_same_document; exact Hdoc|].
    intros _ s1 _. destruct (negb _); [|reflexivity].
    apply append_diagnostics_same_document. exact Hdoc.
Qed.

Lemma assignment_without_keyword_is_reported_witness :
  get_values Token.ASSIGN [Token.mk Token.ASSIGN "${x}=" 3 4] <> []
  /\ truthy (get_value Token.KEYWORD [Token.mk Token.ASSIGN "${x}=" 3 4])
     = false
  /\ exists assign_token,
       get_token Token.ASSIGN [Token.mk Token.ASSIGN "${x}=" 3 4]
       = Some assign_token
       /\ @visit_KeywordCall (Examples.environment None) Examples.S6_call
            [Token.mk Token.ASSIGN "${x}=" 3 4] (mkState [] (Some "TC"))
          = (@append_diagnostics (Examples.environment None)
               (range_from_token assign_token)
               "Keyword name cannot be empty." (Some ERROR)
               (Some "KeywordError") None (Some "robotcode") None None None ;;
             fun s1 =>
               (if negb (truthy (current_testcase_or_keyword_name s1))
                then @report_unreachable (Examples.environment None)
                       Examples.S6_call [Token.mk Token.ASSIGN "${x}=" 3 4]
                else ret tt) s1) (mkState [] (Some "TC"))
       /\ (@should_ignore None (range_from_token assign_token) = inr false ->
           exists more,
             _results
               (snd (@visit_KeywordCall (Examples.environment None)
                       Examples.S6_call [Token.mk Token.ASSIGN "${x}=" 3 4]
                       (mkState [] (Some "TC"))))
             = [] ++ mkDiagnostic (range_from_token assign_token)
                       "Keyword name cannot be empty." (Some ERROR)
                       (Some "KeywordError") None (Some "robotcode") None
                       None None
                     :: more)
       /\ (forall ext' : Externals,
              @document ext' = None ->
              @visit_KeywordCall ext' Examples.S6_call
                [Token.mk Token.ASSIGN "${x}=" 3 4] (mkState [] (Some "TC"))
              = @visit_KeywordCall (Examples.environment None)
                  Examples.S6_call [Token.mk Token.ASSIGN "${x}=" 3 4]
                  (mkState [] (Some "TC"))).
Proof.
  assert (H1 : get_values Token.ASSIGN [Token.mk Token.ASSIGN "${x}=" 3 4]
               <> []) by (simpl; discriminate).
  split; [exact H1|]. split; [reflexivity|].
  exact (assignment_without_keyword_is_reported
           (Examples.environment None) Examples.S6_call
           [Token.mk Token.ASSIGN "${x}=" 3 4] (mkState [] (Some "TC"))
           H1 eq_refl).
Defined.

(** Scenario S6: the diagnostic of [    ${x}=] in a named test case. *)
Example S6_diagnostic :
  @get (Examples.environment (Some ["*** Test Cases ***"; "TC"; "    ${x}="]))
       (Block (mkRange (mkPosition 0 0) (mkPosition 2 9))
              [Examples.test_case 2 "TC" [Examples.S6_call]])
  = (Return tt,
     [mkDiagnostic (mkRange (mkPosition 2 4) (mkPosition 2 9))
        "Keyword name cannot be empty." (Some ERROR) (Some "KeywordError")
        None (Some "robotcode") None None None]).
Proof. vm_compute. reflexivity. Qed.

(* ================================================================== *)
(** * Further properties                                               *)
(* ================================================================== *)

(* ================================================================== *)
(** ** Range: containment and extension                                *)
(* ================================================================== *)

Section RangeFacts.

Local Open Scope Z_scope.

Lemma Position_in_range_spec (p : Position) (r : Range) (include_end : bool) :
  Position_is_in_range p r include_end = true <->
  Position__le__ (start r) p = true
  /\ (if include_end then Position__le__ p (end_ r)
      else Position__lt__ p (end_ r)) = true.
Proof.
  unfold Position_is_in_range. destruct include_end; apply andb_true_iff.
Qed.

Lemma Position__le__trans (p q r : Position) :
  Position__le__ p q = true -> Position__le__ q r = true ->
  Position__le__ p r = true.
Proof. rewrite !Position__le__spec. lia. Qed.

Lemma Position__lt__le__trans (p q r : Position) :
  Position__lt__ p q = true -> Position__le__ q r = true ->
  Position__lt__ p r = true.
Proof. rewrite !Position__lt__spec, Position__le__spec. lia. Qed.

Lemma Position_in_wider_range (p : Position) (r1 r2 : Range) (b : bool) :
  Position_is_in_range p r1 b = true ->
  Position__le__ (start r2) (start r1) = true ->
  Position__le__ (end_ r1) (end_ r2) = true ->
  Position_is_in_range p r2 b = true.
Proof.
  rewrite !Position_in_range_spec. intros [Hs He] H1 H2. split.
  - exact (Position__le__trans _ _ _ H1 Hs).
  - destruct b.
    + exact (Position__le__trans _ _ _ He H2).
    + exact (Position__lt__le__trans _ _ _ He H2).
Qed.

Lemma Range_is_in_range_bounds (r1 r2 : Range) :
  Range_is_in_range r1 r2 = true ->
  Position__le__ (start r2) (start r1) = true
  /\ Position__le__ (end_ r1) (end_ r2) = true.
Proof.
  unfold Range_is_in_range. rewrite andb_true_iff, !Position_in_range_spec.
  tauto.
Qed.

(** X1.  Containment composes: when [x in r1] holds for a position or a
    range [x], and [r1 in r2] holds, then [x in r2] holds.  An operand of
    another class is in no range. *)
Theorem Range_containment_composes :
  forall (x : object) (r1 r2 : Range),
    Range__contains__ r1 x = true ->
    Range__contains__ r2 (a_Range r1) = true ->
    Range__contains__ r2 x = true.
Proof.
  intros x r1 r2 Hx H12. cbn [Range__contains__] in H12.
  destruct (Range_is_in_range_bounds _ _ H12) as [Hs He].
  destruct x as [p|r|]; cbn [Range__contains__] in *.
  - exact (Position_in_wider_range _ _ _ _ Hx Hs He).
  - unfold Range_is_in_range in *. apply andb_true_iff in Hx as [Ha Hb].
    apply andb_true_iff. split.
    + exact (Position_in_wider_range _ _ _ _ Ha Hs He).
    + exact (Position_in_wider_range _ _ _ _ Hb Hs He).
  - discriminate.
Qed.

Lemma Range_containment_composes_witness :
  Range__contains__ (mkRange (mkPosition 2 4) (mkPosition 2 14))
                    (a_Position (mkPosition 2 9)) = true
  /\ Range__contains__ (mkRange (mkPosition 1 0) (mkPosition 3 0))
       (a_Range (mkRange (mkPosition 2 4) (mkPosition 2 14))) = true
  /\ Range__contains__ (mkRange (mkPosition 1 0) (mkPosition 3 0))
                       (a_Position (mkPosition 2 9)) = true.
Proof.
  split; [reflexivity|]. split; [reflexivity|].
  apply (Range_containment_composes
           (a_Position (mkPosition 2 9))
           (mkRange (mkPosition 2 4) (mkPosition 2 14))
           (mkRange (mkPosition 1 0) (mkPosition 3 0)));
    reflexivity.
Defined.

(** X2.  A range is in itself exactly when its start is not after its
    end.  A range whose start is its end, as [Range.zero()] and
    [Range.invalid()] are, holds that one position and no other, and
    holds none when the end is excluded. *)
Theorem Range_contains_itself_iff_ordered :
  forall r : Range,
    Range__contains__ r (a_Range r) = Position__le__ (start r) (end_ r)
    /\ (start r = end_ r ->
        forall p : Position,
          (Range__contains__ r (a_Position p) = true <-> p = start r)
          /\ Position_is_in_range p r false = false).
Proof.
  intros r. split.
  - cbn [Range__contains__]. unfold Range_is_in_range, Position_is_in_range.
    assert (Hrefl : forall x, Position__le__ x x = true)
      by (intros x; apply Position__le__spec; lia).
    rewrite !Hrefl, andb_true_r. cbn [andb].
    destruct (Position__le__ (start r) (end_ r)); reflexivity.
  - intros Heq p. cbn [Range__contains__]. split.
    + rewrite Position_in_range_spec, <- Heq, !Position__le__spec. split.
      * intros [H1 H2]. apply Position_eq_fields; lia.
      * intros ->. lia.
    + destruct (Position_is_in_range p r false) eqn:E; [|reflexivity].
      apply Position_in_range_spec in E. rewrite <- Heq in E.
      rewrite Position__le__spec, Position__lt__spec in E. lia.
Qed.

(** X3.  [Range.extend] adds its four arguments to the four coordinates:
    extending by zeros changes nothing, two extensions are the extension
    by the sums, and extending by the opposite numbers gives the range
    back. *)
Theorem Range_extend_is_additive :
  forall (r : Range) (a b c d a' b' c' d' : Z),
    Range_extend r 0 0 0 0 = r
    /\ Range_extend (Range_extend r a b c d) a' b' c' d'
       = Range_extend r (a + a') (b + b') (c + c') (d + d')
    /\ Range_extend (Range_extend r a b c d) (- a) (- b) (- c) (- d) = r.
Proof.
  intros [[sl sc] [el ec]] a b c d a' b' c' d'.
  unfold Range_extend; cbn [start end_ line character].
  repeat split; f_equal; f_equal; lia.
Qed.

(** X4.  A range extended outwards, its start moved to an earlier or the
    same position and its end to a later or the same one, holds every
    position the range held, and the range itself when that is ordered. *)
Theorem Range_extend_outwards_keeps_positions :
  forall (r : Range) (start_line start_character end_line end_character : Z)
         (p : Position) (include_end : bool),
    start_line < 0 \/ (start_line = 0 /\ start_character <= 0) ->
    end_line > 0 \/ (end_line = 0 /\ end_character >= 0) ->
    Position_is_in_range p r include_end = true ->
    Position_is_in_range p
      (Range_extend r start_line start_character end_line end_character)
      include_end = true.
Proof.
  intros r sl sc el ec p b Hs He H.
  apply (Position_in_wider_range p r _ b H).
  - apply Position__le__spec. unfold Range_extend; cbn [start line character].
    lia.
  - apply Position__le__spec. unfold Range_extend; cbn [end_ line character].
    lia.
Qed.

Lemma Range_extend_outwards_keeps_positions_witness :
  (-1 < 0 \/ (-1 = 0 /\ 0 <= 0))
  /\ (1 > 0 \/ (1 = 0 /\ 0 >= 0))
  /\ Position_is_in_range (mkPosition 2 9)
       (mkRange (mkPosition 2 4) (mkPosition 2 14)) false = true
  /\ Position_is_in_range (mkPosition 2 9)
       (Range_extend (mkRange (mkPosition 2 4) (mkPosition 2 14)) (-1) 0 1 0)
       false = true.
Proof.
  split; [left; lia|]. split; [left; lia|]. split; [reflexivity|].
  apply (Range_extend_outwards_keeps_positions
           (mkRange (mkPosition 2 4) (mkPosition 2 14)) (-1) 0 1 0
           (mkPosition 2 9) false).
  - left. lia.
  - left. lia.
  - reflexivity.
Defined.

End RangeFacts.

(* ================================================================== *)
(** ** The suppression scan: bounds                                    *)
(* ================================================================== *)

Section ScanBounds.

Local Open Scope Z_scope.

Lemma builtins_range_cons (lo hi : Z) :
  lo < hi -> builtins_range lo hi = lo :: builtins_range (lo + 1) hi.
Proof.
  intros H. unfold builtins_range.
  replace (Z.to_nat (hi - lo)) with (S (Z.to_nat (hi - (lo + 1)))) by lia.
  cbn [seq map]. f_equal; [lia|].
  rewrite <- seq_shift, map_map. apply map_ext. intros k. lia.
Qed.

Lemma builtins_range_shift (lo hi n : Z) :
  builtins_range (lo + n) (hi + n)
  = map (fun i => i + n) (builtins_range lo hi).
Proof.
  unfold builtins_range. rewrite map_map.
  replace (hi + n - (lo + n)) with (hi - lo) by lia.
  apply map_ext. intros k. lia.
Qed.

Lemma list_getitem_outside {A} (l : list A) (i : Z) :
  Z.of_nat (List.length l) <= i \/ i < - Z.of_nat (List.length l) ->
  list_getitem l i = inl IndexError.
Proof.
  intros H. unfold list_getitem.
  destruct (Z.ltb_spec i 0).
  - destruct (Z.leb_spec 0 (i + Z.of_nat (List.length l))); [lia|reflexivity].
  - destruct (Z.ltb_spec i (Z.of_nat (List.length l))); [lia|].
    rewrite andb_false_r. reflexivity.
Qed.

Lemma list_getitem_negative {A} (l : list A) (i : Z) :
  - Z.of_nat (List.length l) <= i < 0 ->
  list_getitem l i = list_getitem l (i + Z.of_nat (List.length l)).
Proof.
  intros H. unfold list_getitem.
  destruct (Z.ltb_spec i 0); [|lia].
  destruct (Z.ltb_spec (i + Z.of_nat (List.length l)) 0); [lia|].
  reflexivity.
Qed.

Lemma should_ignore_lines_negative (lines : list string) (line_nos : list Z) :
  Forall (fun i => - Z.of_nat (List.length lines) <= i < 0) line_nos ->
  should_ignore_lines lines
    (map (fun i => i + Z.of_nat (List.length lines)) line_nos)
  = should_ignore_lines lines line_nos.
Proof.
  induction 1 as [|i rest Hi _ IH]; [reflexivity|].
  cbn [map should_ignore_lines].
  rewrite <- (list_getitem_negative lines i Hi), IH. reflexivity.
Qed.

(** X5.  The scan reads [lines[line_no]] for the first line of the range
    before anything else: when the range covers a line and its first line
    is outside the document, at or after its length or before minus its
    length, [should_ignore] raises [IndexError], so [append_diagnostics]
    raises it too and appends nothing. *)
Theorem append_diagnostics_raises_outside_document :
  forall (ext : Externals) (lines : list string) (r : Range) (m : string)
         (sev : option DiagnosticSeverity) (c : option string)
         (cd : option CodeDescription) (src : option string)
         (t : option (list DiagnosticTag))
         (ri : option (list DiagnosticRelatedInformation))
         (d : option string) (s : AnalyzerState),
    document = Some lines ->
    line (start r) <= line (end_ r) ->
    Z.of_nat (List.length lines) <= line (start r)
    \/ line (start r) < - Z.of_nat (List.length lines) ->
    should_ignore document r = inl IndexError
    /\ append_diagnostics r m sev c cd src t ri d s = (Raise IndexError, s).
Proof.
  intros ext lines r m sev c cd src t ri d s Hdoc Hle Hout.
  assert (E : should_ignore document r = inl IndexError).
  { rewrite Hdoc. unfold should_ignore.
    rewrite builtins_range_cons by lia. cbn [should_ignore_lines].
    rewrite (list_getitem_outside lines _ Hout). reflexivity. }
  split; [exact E|].
  unfold append_diagnostics, bind. rewrite E. reflexivity.
Qed.

Lemma append_diagnostics_raises_outside_document_witness :
  @document (Examples.environment (Some Examples.S3_lines))
  = Some Examples.S3_lines
  /\ 3 <= 3
  /\ (Z.of_nat (List.length Examples.S3_lines) <= 3
      \/ 3 < - Z.of_nat (List.length Examples.S3_lines))
  /\ @append_diagnostics (Examples.environment (Some Examples.S3_lines))
       (mkRange (mkPosition 3 0) (mkPosition 3 5)) "Late" (Some ERROR) None
       None (Some "robotcode") None None None (mkState [] None)
     = (Raise IndexError, mkState [] None).
Proof.
  split; [reflexivity|]. split; [lia|]. split; [left; simpl; lia|].
  apply (append_diagnostics_raises_outside_document
           (Examples.environment (Some Examples.S3_lines)) Examples.S3_lines
           (mkRange (mkPosition 3 0) (mkPosition 3 5)) "Late" (Some ERROR)
           None None (Some "robotcode") None None None (mkState [] None)).
  - reflexivity.
  - simpl. lia.
  - left. simpl. lia.
Defined.

(** X6.  A negative line number counts from the end of the document, as
    a negative index does: for a range whose lines all lie between minus
    the length of the document and minus one, the scan gives what it gives
    for the range moved down by the length of the document.  So the range
    of [Range.invalid()] is tested against the last line. *)
Theorem should_ignore_negative_lines_count_from_the_end :
  forall (lines : list string) (r : Range),
    - Z.of_nat (List.length lines) <= line (start r) ->
    line (end_ r) < 0 ->
    should_ignore (Some lines) r
    = should_ignore (Some lines)
        (Range_extend r (Z.of_nat (List.length lines)) 0
                        (Z.of_nat (List.length lines)) 0).
Proof.
  intros lines r Hlo Hhi. unfold should_ignore, Range_extend.
  cbn [start end_ line].
  replace (line (end_ r) + Z.of_nat (List.length lines) + 1)
    with (line (end_ r) + 1 + Z.of_nat (List.length lines)) by lia.
  rewrite builtins_range_shift. symmetry.
  apply should_ignore_lines_negative.
  apply Forall_forall. intros i Hi. apply In_builtins_range in Hi. lia.
Qed.

Lemma should_ignore_negative_lines_count_from_the_end_witness :
  - Z.of_nat (List.length Examples.S5_lines) <= line (start Range_invalid)
  /\ line (end_ Range_invalid) < 0
  /\ should_ignore (Some Examples.S5_lines) Range_invalid
     = should_ignore (Some Examples.S5_lines)
         (mkRange (mkPosition 0 (-1)) (mkPosition 0 (-1)))
  /\ should_ignore (Some Examples.S5_lines) Range_invalid = inr true.
Proof.
  split; [simpl; lia|]. split; [simpl; lia|]. split; [|reflexivity].
  apply (should_ignore_negative_lines_count_from_the_end
           Examples.S5_lines Range_invalid); simpl; lia.
Defined.

End ScanBounds.

(* ================================================================== *)
(** ** The comment pattern: what it finds                              *)
(* ================================================================== *)

Section CommentPattern.

Lemma span_exact (p : ascii -> bool) (a b : list ascii) :
  forallb p a = true ->
  match b with
  | x :: _ => p x = false
  | [] => True
  end ->
  span p (a ++ b) = (a, b).
Proof.
  intros Ha Hb. induction a as [|c a IH]; cbn [app span].
  - destruct b as [|x b]; [reflexivity|]. cbn [span]. rewrite Hb. reflexivity.
  - cbn [forallb] in Ha. apply andb_true_iff in Ha as [Hc Ha].
    rewrite Hc, (IH Ha). reflexivity.
Qed.

Lemma span_snd_forallb (p q : ascii -> bool) (s : list ascii) :
  forallb q s = true -> forallb q (snd (span p s)) = true.
Proof.
  induction s as [|c s IH]; [reflexivity|]. intros H. cbn [span].
  destruct (p c); [|exact H].
  cbn [forallb] in H. apply andb_true_iff in H as [_ H].
  destruct (span p s) as [a b]; cbn [snd] in *. exact (IH H).
Qed.

Lemma hash_then_comment_hash_free (s : list ascii) :
  hash_free s = true -> hash_then_comment s = None.
Proof.
  destruct s as [|c s]; [reflexivity|]. unfold hash_free. cbn [forallb].
  intros H. apply andb_true_iff in H as [H _]. apply negb_true_iff in H.
  unfold hash_then_comment. rewrite H. reflexivity.
Qed.

Lemma after_dot_star_hash_free (b : bool) (s : list ascii) :
  hash_free s = true -> after_dot_star b s = None.
Proof.
  intros H. unfold after_dot_star.
  pose proof (span_snd_forallb (is_char " "%char) _ s H) as H1.
  pose proof (span_snd_forallb (is_char "009"%char) _ s H) as H2.
  destruct (span (is_char " "%char) s) as [sp r1].
  destruct (span (is_char "009"%char) s) as [tb r2]. cbn [snd] in *.
  rewrite (hash_then_comment_hash_free r1 H1),
          (hash_then_comment_hash_free r2 H2).
  destruct b, (1 <=? List.length tb)%nat, (2 <=? List.length sp)%nat;
    reflexivity.
Qed.

(** Without a hash in the text, the pattern fails at every position. *)
Lemma dot_star_then_hash_free (s : list ascii) :
  hash_free s = true -> forall b, dot_star_then b s = None.
Proof.
  induction s as [|c s IH]; intros H b; cbn [dot_star_then].
  - apply after_dot_star_hash_free. exact H.
  - rewrite (after_dot_star_hash_free b (c :: s) H).
    assert (Hs : hash_free s = true).
    { unfold hash_free in *. cbn [forallb] in H.
      apply andb_true_iff in H as [_ H]. exact H. }
    rewrite (IH Hs false). destruct (re_dot c); reflexivity.
Qed.

(** Text that the star of the pattern can cross is carried in front of a
    match. *)
Lemma dot_star_then_prefix (pre s c : list ascii) :
  forallb re_dot pre = true ->
  dot_star_then false s = Some c ->
  dot_star_then false (pre ++ s) = Some c.
Proof.
  intros Hpre H. induction pre as [|x pre IH]; [exact H|].
  cbn [forallb] in Hpre. apply andb_true_iff in Hpre as [Hx Hpre].
  cbn [app dot_star_then]. rewrite Hx, (IH Hpre). reflexivity.
Qed.

Section AtTheHash.

(** The hash, a comment without a hash or a line feed, and at most a
    final line feed. *)
Variables comment tail : list ascii.

Hypothesis comment_on_one_line : forallb re_dot comment = true.
Hypothesis comment_hash_free : hash_free comment = true.
Hypothesis tail_is_line_feed :
  tail = [] \/ exists x, tail = [x] /\ re_dot x = false.

Local Abbreviation R := ("#"%char :: comment ++ tail).

Lemma tail_hash_free : hash_free (comment ++ tail) = true.
Proof.
  unfold hash_free in *. rewrite forallb_app, comment_hash_free.
  destruct tail_is_line_feed as [->|(x & -> & Hx)]; [reflexivity|].
  cbn [forallb andb]. rewrite andb_true_r.
  unfold is_char. destruct (Ascii.eqb_spec "#"%char x) as [<-|]; [|reflexivity].
  discriminate Hx.
Qed.

Lemma hash_then_comment_here : hash_then_comment R = Some comment.
Proof.
  unfold hash_then_comment, comment_group. cbn [is_char].
  rewrite Ascii.eqb_refl, span_exact.
  - destruct tail_is_line_feed as [->|(x & -> & _)]; reflexivity.
  - exact comment_on_one_line.
  - destruct tail_is_line_feed as [->|(x & -> & Hx)]; [exact I|exact Hx].
Qed.

Lemma span_spaces_here (sp : list ascii) :
  forallb (is_char " "%char) sp = true ->
  span (is_char " "%char) (sp ++ R) = (sp, R).
Proof. intros H. apply span_exact; [exact H|reflexivity]. Qed.

Lemma span_tabs_here (tb : list ascii) :
  forallb (is_char "009"%char) tb = true ->
  span (is_char "009"%char) (tb ++ R) = (tb, R).
Proof. intros H. apply span_exact; [exact H|reflexivity]. Qed.

Lemma span_tabs_of_spaces (sp : list ascii) :
  forallb (is_char " "%char) sp = true ->
  span (is_char "009"%char) (sp ++ R) = ([], sp ++ R).
Proof.
  destruct sp as [|x sp]; [reflexivity|]. cbn [forallb]. intros H.
  apply andb_true_iff in H as [H _]. unfold is_char in H.
  apply Ascii.eqb_eq in H. subst x. reflexivity.
Qed.

Lemma span_spaces_of_tabs (tb : list ascii) :
  forallb (is_char "009"%char) tb = true ->
  span (is_char " "%char) (tb ++ R) = ([], tb ++ R).
Proof.
  destruct tb as [|x tb]; [reflexivity|]. cbn [forallb]. intros H.
  apply andb_true_iff in H as [H _]. unfold is_char in H.
  apply Ascii.eqb_eq in H. subst x. reflexivity.
Qed.

Lemma after_dot_star_spaces (b : bool) (sp : list ascii) :
  forallb (is_char " "%char) sp = true ->
  after_dot_star b (sp ++ R)
  = if b || (2 <=? List.length sp)%nat then Some comment else None.
Proof.
  intros H. unfold after_dot_star.
  rewrite (span_spaces_here sp H), (span_tabs_of_spaces sp H),
          hash_then_comment_here.
  cbn [List.length Nat.leb].
  destruct b, (2 <=? List.length sp)%nat; reflexivity.
Qed.

Lemma spaces_cross (sp : list ascii) :
  forallb (is_char " "%char) sp = true -> forallb re_dot sp = true.
Proof.
  induction sp as [|x sp IH]; [reflexivity|]. cbn [forallb]. intros H.
  apply andb_true_iff in H as [Hx H]. rewrite (IH H), andb_true_r.
  unfold is_char in Hx. apply Ascii.eqb_eq in Hx. subst x. reflexivity.
Qed.

Lemma tabs_cross (tb : list ascii) :
  forallb (is_char "009"%char) tb = true -> forallb re_dot tb = true.
Proof.
  induction tb as [|x tb IH]; [reflexivity|]. cbn [forallb]. intros H.
  apply andb_true_iff in H as [Hx H]. rewrite (IH H), andb_true_r.
  unfold is_char in Hx. apply Ascii.eqb_eq in Hx. subst x. reflexivity.
Qed.

(** After a run of spaces that ends at the hash: the pattern matches at
    the start of the line, or when the run has two spaces or more. *)
Lemma dot_star_then_spaces (sp : list ascii) :
  forallb (is_char " "%char) sp = true ->
  forall b,
    dot_star_then b (sp ++ R)
    = if b || (2 <=? List.length sp)%nat then Some comment else None.
Proof.
  induction sp as [|x sp IH]; intros H b.
  - cbn [app dot_star_then].
    change (re_dot "#"%char) with true. cbv iota.
    rewrite (dot_star_then_hash_free _ tail_hash_free false).
    exact (after_dot_star_spaces b [] eq_refl).
  - pose proof H as Hall. cbn [forallb] in H.
    apply andb_true_iff in H as [Hx H].
    pose proof (spaces_cross [x]) as Hc. cbn [forallb] in Hc.
    rewrite Hx in Hc. specialize (Hc eq_refl). rewrite andb_true_r in Hc.
    cbn [app dot_star_then]. rewrite Hc, (IH H false). cbn [orb].
    destruct (2 <=? List.length sp)%nat eqn:E.
    + apply Nat.leb_le in E.
      destruct (Nat.leb_spec 2 (List.length (x :: sp))) as [_|E'];
        [rewrite orb_true_r; reflexivity|cbn [List.length] in E'; lia].
    + exact (after_dot_star_spaces b (x :: sp) Hall).
Qed.

(** After a run of tabs that ends at the hash. *)
Lemma dot_star_then_tabs (tb : list ascii) :
  forallb (is_char "009"%char) tb = true -> tb <> [] ->
  forall b, dot_star_then b (tb ++ R) = Some comment.
Proof.
  induction tb as [|x tb IH]; intros H Hne b; [congruence|].
  pose proof H as Hall. cbn [forallb] in H.
  apply andb_true_iff in H as [Hx H].
  pose proof (tabs_cross [x]) as Hc. cbn [forallb] in Hc.
  rewrite Hx in Hc. specialize (Hc eq_refl). rewrite andb_true_r in Hc.
  cbn [app dot_star_then]. rewrite Hc.
  destruct tb as [|y tb].
  - cbn [app]. cbn [dot_star_then].
    change (re_dot "#"%char) with true. cbv iota.
    rewrite (dot_star_then_hash_free _ tail_hash_free false).
    replace (after_dot_star false R) with (@None (list ascii)).
    + change (x :: R) with ([x] ++ R). unfold after_dot_star.
      rewrite (span_spaces_of_tabs [x] Hall), (span_tabs_here [x] Hall),
              hash_then_comment_here.
      cbn [List.length Nat.leb app].
      assert (Hh : hash_then_comment (x :: R) = None).
      { unfold hash_then_comment. unfold is_char in Hx.
        apply Ascii.eqb_eq in Hx. subst x. reflexivity. }
      rewrite Hh. destruct b; reflexivity.
    + symmetry. exact (after_dot_star_spaces false [] eq_refl).
  - rewrite (IH H ltac:(discriminate) false). reflexivity.
Qed.

(** The converse of [dot_star_then_shape], for a comment without a
    hash. *)
Lemma dot_star_then_complete (before blanks : list ascii) :
  forallb re_dot before = true ->
  (before = [] /\ forallb (is_char " "%char) blanks = true)
  \/ (blanks <> [] /\ forallb (is_char "009"%char) blanks = true)
  \/ (2 <= List.length blanks /\ forallb (is_char " "%char) blanks = true) ->
  dot_star_then true (before ++ blanks ++ R) = Some comment.
Proof.
  intros Hbefore [[-> Hsp]|[[Hne Htb]|[Hlen Hsp]]].
  - cbn [app]. rewrite (dot_star_then_spaces blanks Hsp true). reflexivity.
  - destruct before as [|x before].
    + cbn [app]. exact (dot_star_then_tabs blanks Htb Hne true).
    + cbn [forallb] in Hbefore. apply andb_true_iff in Hbefore as [Hx Hb].
      cbn [app dot_star_then]. rewrite Hx.
      rewrite (dot_star_then_prefix before (blanks ++ R) comment Hb
                 (dot_star_then_tabs blanks Htb Hne false)).
      reflexivity.
  - assert (E : forall b, dot_star_then b (blanks ++ R) = Some comment).
    { intros b. rewrite (dot_star_then_spaces blanks Hsp b).
      destruct (Nat.leb_spec 2 (List.length blanks)); [|lia].
      rewrite orb_true_r. reflexivity. }
    destruct before as [|x before].
    + cbn [app]. apply E.
    + cbn [forallb] in Hbefore. apply andb_true_iff in Hbefore as [Hx Hb].
      cbn [app dot_star_then]. rewrite Hx.
      rewrite (dot_star_then_prefix before (blanks ++ R) comment Hb
                 (E false)).
      reflexivity.
Qed.

End AtTheHash.

Lemma comment_pattern_complete (l : string)
    (before blanks c tail : list ascii) :
  comment_shape (list_ascii_of_string l) before blanks c tail ->
  hash_free c = true ->
  EXTRACT_COMMENT_PATTERN_match l = Some c.
Proof.
  intros (Hl & Hb & Hc & Ht & Hs) Hfree.
  unfold EXTRACT_COMMENT_PATTERN_match. rewrite Hl.
  apply dot_star_then_complete; assumption.
Qed.

Lemma list_ascii_of_string_app (a b : string) :
  list_ascii_of_string (a ++ b)
  = list_ascii_of_string a ++ list_ascii_of_string b.
Proof.
  induction a as [|x a IH]; [reflexivity|].
  cbn [String.append list_ascii_of_string app]. rewrite IH. reflexivity.
Qed.

End CommentPattern.

(** X7.  For a comment without a hash, [EXTRACT_COMMENT_PATTERN] matches
    a line and gives that comment exactly when the line is: text without a
    line feed, then spaces from the start of the line or one tab or more
    or two spaces or more, then the hash, then the comment without a line
    feed, then at most one final line feed. *)
Theorem comment_pattern_extracts_the_hash_free_comment :
  forall (l : string) (c : list ascii),
    hash_free c = true ->
    (EXTRACT_COMMENT_PATTERN_match l = Some c <->
     exists before blanks tail,
       comment_shape (list_ascii_of_string l) before blanks c tail).
Proof.
  intros l c Hfree. split.
  - apply comment_pattern_shape.
  - intros (before & blanks & tail & H).
    exact (comment_pattern_complete l before blanks c tail H Hfree).
Qed.

Lemma comment_pattern_extracts_the_hash_free_comment_witness :
  hash_free (list_ascii_of_string " robotcode: ignore") = true
  /\ (EXTRACT_COMMENT_PATTERN_match "    Unknown Kw    # robotcode: ignore"
      = Some (list_ascii_of_string " robotcode: ignore") <->
      exists before blanks tail,
        comment_shape
          (list_ascii_of_string "    Unknown Kw    # robotcode: ignore")
          before blanks (list_ascii_of_string " robotcode: ignore") tail).
Proof.
  split; [reflexivity|].
  apply (comment_pattern_extracts_the_hash_free_comment
           "    Unknown Kw    # robotcode: ignore"
           (list_ascii_of_string " robotcode: ignore")).
  reflexivity.
Defined.

(** X8.  A line that ends in [# robotcode: ignore] asks for suppression
    whatever stands before the hash, as long as that is text without a
    line feed followed by one tab or more or by two spaces or more, or is
    nothing but spaces. *)
Theorem trailing_pragma_is_honoured :
  forall (code : string) (blanks : list ascii),
    forallb re_dot (list_ascii_of_string code) = true ->
    (code = "" /\ forallb (is_char " "%char) blanks = true)
    \/ (blanks <> [] /\ forallb (is_char "009"%char) blanks = true)
    \/ (2 <= List.length blanks
        /\ forallb (is_char " "%char) blanks = true) ->
    line_is_ignored
      (code ++ string_of_list_ascii blanks ++ "# robotcode: ignore") = true.
Proof.
  intros code blanks Hcode Hblanks.
  assert (E : EXTRACT_COMMENT_PATTERN_match
                (code ++ string_of_list_ascii blanks ++ "# robotcode: ignore")
              = Some (list_ascii_of_string " robotcode: ignore")).
  { apply (comment_pattern_complete _ (list_ascii_of_string code) blanks
             (list_ascii_of_string " robotcode: ignore") []);
      [|reflexivity].
    unfold comment_shape.
    rewrite !list_ascii_of_string_app, list_ascii_of_string_of_list_ascii.
    split; [reflexivity|]. split; [exact Hcode|].
    split; [reflexivity|]. split; [left; reflexivity|].
    destruct Hblanks as [[-> H]|[H|H]];
      [left; split; [reflexivity|exact H]|right; left; exact H
      |right; right; exact H]. }
  unfold line_is_ignored. rewrite E. reflexivity.
Qed.

Lemma trailing_pragma_is_honoured_witness :
  forallb re_dot (list_ascii_of_string "    Log    a # b") = true
  /\ 2 <= List.length (list_ascii_of_string "   ")
  /\ line_is_ignored "    Log    a # b   # robotcode: ignore" = true.
Proof.
  split; [reflexivity|]. split; [simpl; lia|].
  apply (trailing_pragma_is_honoured "    Log    a # b"
           (list_ascii_of_string "   ")).
  - reflexivity.
  - right. right. split; [simpl; lia|reflexivity].
Defined.

Lemma line_without_hash_is_not_ignored (l : string) :
  hash_free (list_ascii_of_string l) = true -> line_is_ignored l = false.
Proof.
  intros H. unfold line_is_ignored, EXTRACT_COMMENT_PATTERN_match.
  rewrite (dot_star_then_hash_free _ H true). reflexivity.
Qed.

Lemma list_getitem_In {A} (l : list A) (i : Z) (x : A) :
  list_getitem l i = inr x -> In x l.
Proof.
  unfold list_getitem. destruct (_ && _)%bool; [|discriminate].
  destruct (nth_error l _) as [y|] eqn:E; [|discriminate].
  intros [= <-]. exact (nth_error_In _ _ E).
Qed.

Lemma should_ignore_lines_never (lines : list string) (line_nos : list Z) :
  (forall l, In l lines -> line_is_ignored l = false) ->
  should_ignore_lines lines line_nos <> inr true.
Proof.
  intros H. induction line_nos as [|i rest IH]; cbn [should_ignore_lines].
  - discriminate.
  - destruct (list_getitem lines i) as [e|l] eqn:E; [discriminate|].
    rewrite (H l (list_getitem_In _ _ _ E)). exact IH.
Qed.

(** X9.  A document none of whose lines holds a hash suppresses nothing:
    [should_ignore] never answers [True] for it, and answers [False] for
    every range that lies within its lines. *)
Theorem document_without_hash_suppresses_nothing :
  forall (lines : list string) (r : Range),
    (forall l, In l lines -> hash_free (list_ascii_of_string l) = true) ->
    should_ignore (Some lines) r <> inr true
    /\ (range_in_document (Some lines) r ->
        should_ignore (Some lines) r = inr false).
Proof.
  intros lines r H.
  assert (Hnever : should_ignore (Some lines) r <> inr true).
  { apply should_ignore_lines_never. intros l Hl.
    apply line_without_hash_is_not_ignored, H, Hl. }
  split; [exact Hnever|]. intros Hin.
  destruct (should_ignore_within (Some lines) r Hin) as (b & Hb & _).
  rewrite Hb in *. destruct b; [congruence|reflexivity].
Qed.

Lemma document_without_hash_suppresses_nothing_witness :
  (forall l, In l Examples.S3_lines ->
             hash_free (list_ascii_of_string l) = true)
  /\ should_ignore (Some Examples.S3_lines) Examples.Unknown_Kw_range
     <> inr true.
Proof.
  assert (H : forall l, In l Examples.S3_lines ->
                        hash_free (list_ascii_of_string l) = true).
  { intros l [<-|[<-|[<-|[]]]]; reflexivity. }
  split; [exact H|].
  exact (proj1 (document_without_hash_suppresses_nothing
                  Examples.S3_lines Examples.Unknown_Kw_range H)).
Defined.

(* ================================================================== *)
(** ** What the analyzer appends                                       *)
(* ================================================================== *)

Section Adds.

Context {ext : Externals}.

Variable P : Diagnostic -> Prop.

(** [P] holds of every diagnostic that a call passes to
    [append_diagnostics] and the scan lets through. *)
Hypothesis P_call :
  forall r m sev c tg ri,
    tg = None \/ (tg = Some [Deprecated] /\ sev = HINT) ->
    should_ignore document r = inr false ->
    P (mkDiagnostic r m (Some sev) c None (Some DIAGNOSTICS_SOURCE_NAME) tg
                    ri None).

Lemma adds_nothing {A} (m : M A) s :
  _results (snd (m s)) = _results s -> adds P m s.
Proof.
  intros H. exists []. rewrite H, app_nil_r. split; [reflexivity|constructor].
Qed.

Lemma adds_ret {A} (a : A) s : adds P (ret a) s.
Proof. apply adds_nothing. reflexivity. Qed.

Lemma adds_raise {A} e s : adds P (@raise A e) s.
Proof. apply adds_nothing. reflexivity. Qed.

Lemma adds_out_of_fuel {A} s : adds P (@out_of_fuel A) s.
Proof. apply adds_nothing. reflexivity. Qed.

Lemma adds_lift_result {A} (r : exn + A) s : adds P (lift_result r) s.
Proof. destruct r; [apply adds_raise|apply adds_ret]. Qed.

Lemma adds_bind {A B} (m : M A) (k : A -> M B) s :
  adds P m s ->
  (forall a s1, m s = (Return a, s1) -> adds P (k a) s1) ->
  adds P (bind m k) s.
Proof.
  unfold adds, bind. intros (d1 & H1 & F1) Hk.
  destruct (m s) as [[a|e|] s1] eqn:E; cbn [snd] in *;
    try (exists d1; split; assumption).
  destruct (Hk a s1 eq_refl) as (d2 & H2 & F2).
  exists (d1 ++ d2). rewrite H2, H1, app_assoc. split; [reflexivity|].
  apply Forall_app. split; assumption.
Qed.

Lemma adds_try_except {A} (m : M A) h s :
  adds P m s -> (forall e s1, adds P (h e) s1) -> adds P (try_except m h) s.
Proof.
  unfold adds, try_except. intros (d1 & H1 & F1) Hh.
  destruct (m s) as [[a|e|] s1]; cbn [snd] in *;
    try (exists d1; split; assumption).
  destruct (is_reraised e); [exists d1; split; assumption|].
  destruct (Hh e s1) as (d2 & H2 & F2).
  exists (d1 ++ d2). rewrite H2, H1, app_assoc. split; [reflexivity|].
  apply Forall_app. split; assumption.
Qed.

Lemma adds_for_each {A} (xs : list A) body :
  (forall x s, adds P (body x) s) -> forall s, adds P (for_each xs body) s.
Proof.
  intros Hb. induction xs as [|x xs IH]; intros s; cbn [for_each].
  - apply adds_ret.
  - apply adds_bind; [apply Hb|]. intros _ s1 _. apply IH.
Qed.

Lemma adds_append_diagnostics r m sev c cd src t ri d s :
  (should_ignore document r = inr false ->
   P (mkDiagnostic r m sev c cd src t ri d)) ->
  adds P (append_diagnostics r m sev c cd src t ri d) s.
Proof.
  intros H. unfold adds, append_diagnostics, bind, lift_result.
  destruct (should_ignore document r) as [e|[|]]; cbn [snd raise ret].
  - exists []. rewrite app_nil_r. split; [reflexivity|constructor].
  - exists []. rewrite app_nil_r. split; [reflexivity|constructor].
  - eexists. split; [reflexivity|]. constructor; [|constructor].
    apply H. reflexivity.
Qed.

Lemma adds_append_plain r m sev c ri s :
  adds P (append_diagnostics r m (Some sev) c None
            (Some DIAGNOSTICS_SOURCE_NAME) None ri None) s.
Proof.
  apply adds_append_diagnostics. apply P_call. left. reflexivity.
Qed.

Lemma adds_append_deprecated r m c ri s :
  adds P (append_diagnostics r m (Some HINT) c None
            (Some DIAGNOSTICS_SOURCE_NAME) (Some [Deprecated]) ri None) s.
Proof.
  apply adds_append_diagnostics. apply P_call. right. split; reflexivity.
Qed.

Lemma adds_report_exception node kt e s :
  adds P (report_exception node kt e) s.
Proof. apply adds_append_plain. Qed.

Lemma adds_resolve_arguments result kt args s :
  adds P (resolve_arguments result kt args) s.
Proof.
  unfold resolve_arguments. apply adds_try_except.
  - destruct (KeywordDoc.arguments result); [|apply adds_ret].
    destruct (resolve _ _ _ _); [apply adds_raise|apply adds_ret].
  - intros; apply adds_append_plain.
Qed.

Lemma adds_report_keyword result diags node kt args s :
  adds P (report_keyword result diags node kt args) s.
Proof.
  unfold report_keyword. apply adds_bind.
  { apply adds_for_each. intros; apply adds_append_plain. }
  intros _ s1 _. destruct result as [result|]; [|apply adds_ret].
  apply adds_bind.
  { destruct (KeywordDoc.errors result);
      [apply adds_ret|apply adds_append_plain]. }
  intros _ s2 _. apply adds_bind.
  { destruct (KeywordDoc.is_deprecated result);
      [apply adds_append_deprecated|apply adds_ret]. }
  intros _ s3 _. apply adds_bind.
  { destruct (KeywordDoc.is_error_handler result);
      [apply adds_append_plain|apply adds_ret]. }
  intros _ s4 _. destruct (negb (is_template node));
    [apply adds_resolve_arguments|apply adds_ret].
Qed.

Lemma adds_call_with rk kw node kt args flag s :
  (forall d s1, adds P (rk d node args) s1) ->
  adds P (_analyze_keyword_call_with rk kw node kt args flag) s.
Proof.
  intros H. unfold _analyze_keyword_call_with.
  destruct (negb (is_not_variable_token kt)); [apply adds_ret|].
  apply adds_bind.
  { apply adds_try_except.
    - apply adds_bind; [apply adds_lift_result|].
      intros; apply adds_ret.
    - intros e s1. apply adds_bind; [apply adds_report_exception|].
      intros; apply adds_ret. }
  intros [[result diags]|] s1 _; [|apply adds_ret].
  apply adds_bind.
  { apply adds_try_except; [apply adds_report_keyword|].
    intros; apply adds_report_exception. }
  intros _ s2 _. destruct result; [|apply adds_ret].
  destruct flag; [|apply adds_ret].
  apply adds_bind; [apply H|]. intros; apply adds_ret.
Qed.

Lemma adds_run_keywords_loop rk node :
  (forall d B s1, adds P (rk d node B) s1) ->
  forall fuel has_and A s,
    adds P (run_keywords_loop rk fuel node has_and A) s.
Proof.
  intros H. induction fuel as [|fuel IH]; intros has_and A s;
    [apply adds_out_of_fuel|].
  destruct A as [|t rest]; [apply adds_ret|]. cbn [run_keywords_loop].
  destruct (is_AND t).
  { apply adds_bind; [apply adds_append_plain|].
    intros; apply IH. }
  destruct (negb (is_not_variable_token t)); [apply IH|].
  destruct (find is_AND rest) as [a|].
  - destruct (list_index a rest) as [i|]; [|apply adds_raise].
    apply adds_bind; [apply adds_call_with; intros; apply H|].
    intros; apply IH.
  - destruct has_and;
      (apply adds_bind; [apply adds_call_with; intros; apply H|]);
      intros; apply IH.
Qed.

Lemma adds_analyse_branch_keyword rk node result A s :
  (forall d B s1, adds P (rk d node B) s1) ->
  adds P (analyse_branch_keyword rk result node A) s.
Proof.
  intros H. unfold analyse_branch_keyword.
  destruct result as [r|]; [|apply adds_ret].
  destruct (KeywordDoc.is_any_run_keyword r); [apply H|apply adds_ret].
Qed.

Lemma adds_run_keyword_if_loop rk node :
  (forall d B s1, adds P (rk d node B) s1) ->
  forall fuel A s, adds P (run_keyword_if_loop rk fuel node A) s.
Proof.
  intros H. induction fuel as [|fuel IH]; intros A s;
    [apply adds_out_of_fuel|].
  destruct A as [|t0 rest]; [apply adds_ret|]. cbn [run_keyword_if_loop].
  destruct ((Token.value t0 =? "ELSE")
            && (1 <? List.length (t0 :: rest))%nat).
  { destruct (nth_error (t0 :: rest) 1) as [t1|]; [|apply adds_ret].
    apply adds_bind; [apply adds_call_with; intros; apply H|].
    intros result s1 _.
    apply adds_bind; [apply adds_analyse_branch_keyword, H|].
    intros; apply adds_ret. }
  destruct ((Token.value t0 =? "ELSE IF")
            && (2 <? List.length (t0 :: rest))%nat).
  { destruct (nth_error (t0 :: rest) 2) as [t2|]; [|apply adds_ret].
    apply adds_bind; [apply adds_call_with; intros; apply H|].
    intros result s1 _.
    apply adds_bind; [apply adds_analyse_branch_keyword, H|].
    intros; apply IH. }
  apply adds_ret.
Qed.

Lemma adds_with rk d node A s :
  (forall d' B s1, adds P (rk d' node B) s1) ->
  adds P (_analyse_run_keyword_with rk d node A) s.
Proof.
  intros H. unfold _analyse_run_keyword_with.
  destruct d as [doc|]; [|apply adds_ret].
  destruct (negb (KeywordDoc.is_any_run_keyword doc)); [apply adds_ret|].
  destruct (KeywordDoc.is_run_keyword doc && _).
  { destruct (nth_error A 0) as [t|]; [|apply adds_ret].
    apply adds_bind; [|intros; apply adds_ret].
    apply adds_call_with. intros; apply H. }
  destruct (KeywordDoc.is_run_keyword_with_condition doc && _).
  { cbv zeta.
    destruct (nth_error A (KeywordDoc.run_keyword_condition_count doc))
      as [t|]; [|apply adds_ret].
    apply adds_bind; [|intros; apply adds_ret].
    apply adds_call_with. intros; apply H. }
  destruct (KeywordDoc.is_run_keywords doc).
  { apply adds_bind; [|intros; apply adds_ret].
    apply adds_run_keywords_loop. exact H. }
  destruct (KeywordDoc.is_run_keyword_if doc && _); [|apply adds_ret].
  destruct (nth_error A 1) as [kwt|]; [|apply adds_ret].
  apply adds_bind; [apply adds_lift_result|]. intros found s1 _.
  apply adds_bind.
  { destruct (match fst found with
              | Some r => KeywordDoc.is_any_run_keyword r
              | None => false
              end); [apply H|].
    destruct (skip_args (skipn 2 A)) as [args left].
    apply adds_bind; [|intros; apply adds_ret].
    destruct (is_not_variable_token kwt); [|apply adds_ret].
    apply adds_bind; [|intros; apply adds_ret].
    apply adds_call_with. intros; apply H. }
  intros A1 s2 _. apply adds_run_keyword_if_loop. exact H.
Qed.

Lemma adds_analyse fuel :
  forall d node A s, adds P (_analyse_run_keyword_fuel fuel d node A) s.
Proof.
  induction fuel as [|fuel IH]; intros d node A s.
  - apply adds_out_of_fuel.
  - apply adds_with. intros; apply IH.
Qed.

Lemma adds_analyze_keyword_call kw node kt args flag s :
  adds P (_analyze_keyword_call kw node kt args flag) s.
Proof. apply adds_call_with. intros; apply adds_analyse. Qed.

Lemma adds_analyze_then_unit kw node kt args s :
  adds P (_analyze_keyword_call kw node kt args true ;; ret tt) s.
Proof.
  apply adds_bind; [apply adds_analyze_keyword_call|].
  intros; apply adds_ret.
Qed.

Lemma adds_visit_Fixture node tokens s : adds P (visit_Fixture node tokens) s.
Proof.
  unfold visit_Fixture.
  destruct (get_token Token.NAME tokens) as [kt|]; [|apply adds_ret].
  destruct (is_not_variable_token kt);
    [apply adds_analyze_then_unit|apply adds_ret].
Qed.

Lemma adds_visit_Template node tokens s :
  adds P (visit_Template node tokens) s.
Proof.
  unfold visit_Template.
  destruct (get_token Token.NAME tokens) as [kt|]; [|apply adds_ret].
  destruct (is_not_variable_token kt);
    [apply adds_analyze_then_unit|apply adds_ret].
Qed.

Lemma adds_visit_TestTemplate node tokens s :
  adds P (visit_TestTemplate node tokens) s.
Proof.
  unfold visit_TestTemplate.
  destruct (get_token Token.NAME tokens) as [kt|]; [|apply adds_ret].
  destruct (is_not_variable_token kt);
    [apply adds_analyze_then_unit|apply adds_ret].
Qed.

(** The statements of [visit_KeywordCall] before the unreachable test. *)
Lemma adds_visit_KeywordCall_first node tokens s :
  adds P
    (if assigns_without_keyword tokens then
       append_diagnostics
         (range_from_node_or_token node (get_token Token.ASSIGN tokens))
         "Keyword name cannot be empty." (Some ERROR) (Some "KeywordError")
         None (Some DIAGNOSTICS_SOURCE_NAME) None None None
     else
       match get_token Token.KEYWORD tokens with
       | Some keyword_token =>
           _analyze_keyword_call (get_value Token.KEYWORD tokens) node
             keyword_token (get_tokens Token.ARGUMENT tokens) true ;;
           ret tt
       | None =>
           try_except (raise none_token_error) (report_exception node None)
       end) s.
Proof.
  destruct (assigns_without_keyword tokens); [apply adds_append_plain|].
  destruct (get_token Token.KEYWORD tokens) as [kt|].
  - apply adds_analyze_then_unit.
  - apply adds_try_except; [apply adds_raise|].
    intros; apply adds_report_exception.
Qed.

Lemma extends_visit_KeywordCall_first node tokens s :
  extends
    (if assigns_without_keyword tokens then
       append_diagnostics
         (range_from_node_or_token node (get_token Token.ASSIGN tokens))
         "Keyword name cannot be empty." (Some ERROR) (Some "KeywordError")
         None (Some DIAGNOSTICS_SOURCE_NAME) None None None
     else
       match get_token Token.KEYWORD tokens with
       | Some keyword_token =>
           _analyze_keyword_call (get_value Token.KEYWORD tokens) node
             keyword_token (get_tokens Token.ARGUMENT tokens) true ;;
           ret tt
       | None =>
           try_except (raise none_token_error) (report_exception node None)
       end) s.
Proof.
  destruct (assigns_without_keyword tokens);
    [apply extends_append_diagnostics|].
  destruct (get_token Token.KEYWORD tokens) as [kt|].
  - apply extends_analyze_then_unit.
  - apply extends_try_except; [apply extends_raise|].
    intros; apply extends_report_exception.
Qed.

(** In a block with a name, [visit_KeywordCall] appends no hint for
    unreachable code. *)
Lemma adds_visit_KeywordCall_named node tokens s :
  truthy (current_testcase_or_keyword_name s) = true ->
  adds P (visit_KeywordCall node tokens) s.
Proof.
  intros Hname. unfold visit_KeywordCall. apply adds_bind.
  - apply adds_visit_KeywordCall_first.
  - intros u s1 E.
    destruct (extends_Return _ _ _ _
                (extends_visit_KeywordCall_first node tokens s) E) as [H _].
    unfold adds. cbv beta. rewrite H, Hname. apply adds_ret.
Qed.

(** [P] holds of the hint for unreachable code too. *)
Hypothesis P_hint :
  forall r,
    should_ignore document r = inr false ->
    P (mkDiagnostic r "Code is unreachable." (Some HINT) None None
                    (Some DIAGNOSTICS_SOURCE_NAME) (Some [Unnecessary])
                    None None).

Lemma adds_visit_KeywordCall node tokens s :
  adds P (visit_KeywordCall node tokens) s.
Proof.
  unfold visit_KeywordCall. apply adds_bind.
  - apply adds_visit_KeywordCall_first.
  - intros _ s1 _. unfold adds. cbv beta.
    destruct (negb (truthy (current_testcase_or_keyword_name s1)));
      [|apply adds_ret].
    apply adds_append_diagnostics. apply P_hint.
Qed.

Lemma adds_named_block (m : M unit) name s :
  (forall s0, adds P m s0) ->
  adds P (fun s1 =>
            try_finally m (set_current_testcase_or_keyword_name None)
                        (set_current_testcase_or_keyword_name name s1)) s.
Proof.
  intros H. unfold adds, try_finally.
  destruct (H (set_current_testcase_or_keyword_name name s))
    as (added & Ha & Fa).
  destruct (m (set_current_testcase_or_keyword_name name s)) as [o s2].
  exists added. split; [exact Ha|exact Fa].
Qed.

Lemma adds_for_each_all {A} (xs : list A) body :
  Forall (fun x => forall s, adds P (body x) s) xs ->
  forall s, adds P (for_each xs body) s.
Proof.
  induction 1 as [|x xs Hx _ IH]; intros s; cbn [for_each].
  - apply adds_ret.
  - apply adds_bind; [apply Hx|]. intros; apply IH.
Qed.

Lemma adds_visit (n : Node) : forall s, adds P (visit n) s.
Proof.
  induction n using Node_induction; intros s.
  - cbn [visit]. destruct (canceled _); [apply adds_raise|].
    apply adds_visit_KeywordCall.
  - cbn [visit]. destruct (canceled _); [apply adds_raise|].
    apply adds_visit_Fixture.
  - cbn [visit]. destruct (canceled _); [apply adds_raise|].
    apply adds_visit_Template.
  - cbn [visit]. destruct (canceled _); [apply adds_raise|].
    apply adds_visit_TestTemplate.
  - cbn [visit]. destruct (canceled _); [apply adds_raise|apply adds_ret].
  - cbn [visit]. destruct (canceled _); [apply adds_raise|apply adds_ret].
  - rewrite visit_TestCase_eq. destruct (canceled _); [apply adds_raise|].
    unfold visit_TestCase. apply adds_bind.
    + destruct (negb (truthy _)); [apply adds_append_plain|apply adds_ret].
    + intros _ s1 _. apply adds_named_block. apply adds_for_each_all.
      exact H.
  - rewrite visit_Keyword_eq. destruct (canceled _); [apply adds_raise|].
    unfold visit_Keyword. apply adds_bind.
    + destruct (truthy _);
        [destruct (is_embedded_keyword _ && has_arguments body)|];
        try apply adds_append_plain; apply adds_ret.
    + intros _ s1 _. apply adds_named_block. apply adds_for_each_all.
      exact H.
  - rewrite visit_Block. destruct (canceled _); [apply adds_raise|].
    apply adds_for_each_all. exact H.
Qed.

End Adds.

Lemma call_diagnostic_of_call {ext : Externals} r m sev c tg ri :
  tg = None \/ (tg = Some [Deprecated] /\ sev = HINT) ->
  should_ignore document r = inr false ->
  call_diagnostic
    (mkDiagnostic r m (Some sev) c None (Some DIAGNOSTICS_SOURCE_NAME) tg ri
                  None).
Proof.
  intros Htg Hr. unfold call_diagnostic. cbn.
  repeat split; try reflexivity; try discriminate; try exact Hr.
  destruct Htg as [->|[-> ->]]; [left|right; split]; reflexivity.
Qed.

(** X10.  The results only grow, and every diagnostic that a visit adds
    has gone through [append_diagnostics] with the analyzer's source name:
    its source is [robotcode], it has a severity, no code description and
    no data, no line of its range asks for suppression, and its tags are
    none, or Deprecated on a hint, or Unnecessary on the hint "Code is
    unreachable.".  So this holds of every diagnostic that [get] returns. *)
Theorem analyzer_results_are_well_formed :
  forall (ext : Externals) (n : Node) (s : AnalyzerState),
    (exists added,
       _results (snd (visit n s)) = _results s ++ added
       /\ Forall analyzer_diagnostic added)
    /\ Forall analyzer_diagnostic (snd (get n)).
Proof.
  intros ext n s.
  assert (H : forall s0, adds analyzer_diagnostic (visit n) s0).
  { apply adds_visit.
    - intros r m sev c tg ri Htg Hr. left.
      apply call_diagnostic_of_call; assumption.
    - intros r Hr. right. split; [exact Hr|reflexivity]. }
  split; [exact (H s)|].
  destruct (H (mkState [] None)) as (added & Ha & Fa).
  unfold get. destruct (visit n (mkState [] None)) as [o s'].
  cbn [snd _results app] in *. rewrite Ha. exact Fa.
Qed.

(** X11.  In a test case or keyword that has a name, [visit_KeywordCall]
    adds diagnostics of the call only: none of them carries the tag
    Unnecessary, so no hint for unreachable code is added. *)
Theorem named_block_call_gets_no_unreachable_hint :
  forall (ext : Externals) (node : Node) (tokens : list Token.t)
         (s : AnalyzerState),
    truthy (current_testcase_or_keyword_name s) = true ->
    exists added,
      _results (snd (visit_KeywordCall node tokens s)) = _results s ++ added
      /\ Forall (fun d => call_diagnostic d
                          /\ tags d <> Some [Unnecessary]) added.
Proof.
  intros ext node tokens s Hname.
  apply (adds_visit_KeywordCall_named
           (fun d => call_diagnostic d /\ tags d <> Some [Unnecessary]));
    [|exact Hname].
  intros r m sev c tg ri Htg Hr. split.
  - apply call_diagnostic_of_call; assumption.
  - cbn. destruct Htg as [->|[-> _]]; discriminate.
Qed.

Lemma named_block_call_gets_no_unreachable_hint_witness :
  truthy (Some "TC") = true
  /\ exists added,
       _results (snd (@visit_KeywordCall (Examples.environment None)
                        Examples.S3_call
                        (Examples.tokens_of Examples.S3_call)
                        (mkState [] (Some "TC"))))
       = [] ++ added
       /\ Forall (fun d => @call_diagnostic (Examples.environment None) d
                           /\ tags d <> Some [Unnecessary]) added.
Proof.
  split; [reflexivity|].
  exact (named_block_call_gets_no_unreachable_hint
           (Examples.environment None) Examples.S3_call
           (Examples.tokens_of Examples.S3_call) (mkState [] (Some "TC"))
           eq_refl).
Defined.

(* ================================================================== *)
(** ** The name of the block being visited                             *)
(* ================================================================== *)

Section BlockName.

Context {ext : Externals}.

Lemma extends_keeps_name {A} (m : M A) s :
  extends m s -> keeps_or_clears_name m s.
Proof. intros [added H]. left. rewrite H. reflexivity. Qed.

Lemma keeps_or_clears_bind {A B} (m : M A) (k : A -> M B) s :
  keeps_or_clears_name m s ->
  (forall a s1, keeps_or_clears_name (k a) s1) ->
  keeps_or_clears_name (bind m k) s.
Proof.
  unfold keeps_or_clears_name, bind. intros Hm Hk.
  destruct (m s) as [[a|e|] s1]; cbn [snd] in *; try exact Hm.
  destruct (Hk a s1) as [H|H]; [rewrite H; exact Hm|right; exact H].
Qed.

Lemma keeps_or_clears_for_each {A} (xs : list A) body :
  Forall (fun x => forall s, keeps_or_clears_name (body x) s) xs ->
  forall s, keeps_or_clears_name (for_each xs body) s.
Proof.
  induction 1 as [|x xs Hx _ IH]; intros s; cbn [for_each].
  - left. reflexivity.
  - apply keeps_or_clears_bind; [apply Hx|]. intros; apply IH.
Qed.

(** The [try ... finally] of a test case or keyword: whatever the visit
    of the children does, the name is [None] after it. *)
Lemma named_block_clears_name (m : M unit) name s :
  current_testcase_or_keyword_name
    (snd (try_finally m (set_current_testcase_or_keyword_name None)
            (set_current_testcase_or_keyword_name name s)))
  = None.
Proof.
  unfold try_finally.
  destruct (m (set_current_testcase_or_keyword_name name s)) as [o s2].
  reflexivity.
Qed.

Lemma keeps_or_clears_visit (n : Node) :
  forall s, keeps_or_clears_name (visit n) s.
Proof.
  induction n using Node_induction; intros s.
  - cbn [visit]. apply extends_keeps_name.
    destruct (canceled _); [apply extends_raise|].
    apply extends_visit_KeywordCall.
  - cbn [visit]. apply extends_keeps_name.
    destruct (canceled _); [apply extends_raise|].
    apply extends_visit_Fixture.
  - cbn [visit]. apply extends_keeps_name.
    destruct (canceled _); [apply extends_raise|].
    apply extends_visit_Template.
  - cbn [visit]. apply extends_keeps_name.
    destruct (canceled _); [apply extends_raise|].
    apply extends_visit_TestTemplate.
  - cbn [visit]. apply extends_keeps_name.
    destruct (canceled _); [apply extends_raise|apply extends_ret].
  - cbn [visit]. apply extends_keeps_name.
    destruct (canceled _); [apply extends_raise|apply extends_ret].
  - rewrite visit_TestCase_eq.
    destruct (canceled _); [apply extends_keeps_name, extends_raise|].
    unfold visit_TestCase. apply keeps_or_clears_bind.
    + apply extends_keeps_name. destruct (negb (truthy _));
        [apply extends_append_diagnostics|apply extends_ret].
    + intros _ s1. right. apply named_block_clears_name.
  - rewrite visit_Keyword_eq.
    destruct (canceled _); [apply extends_keeps_name, extends_raise|].
    unfold visit_Keyword. apply keeps_or_clears_bind.
    + apply extends_keeps_name. destruct (truthy _);
        [destruct (is_embedded_keyword _ && has_arguments body)|];
        try apply extends_append_diagnostics; apply extends_ret.
    + intros _ s1. right. apply named_block_clears_name.
  - rewrite visit_Block.
    destruct (canceled _); [apply extends_keeps_name, extends_raise|].
    apply keeps_or_clears_for_each. exact H.
Qed.

Lemma append_diagnostics_does_not_raise r m sev c cd src t ri d s :
  (forall e, should_ignore document r <> inl e) ->
  exists s', append_diagnostics r m sev c cd src t ri d s = (Return tt, s').
Proof.
  intros H. unfold append_diagnostics, bind, lift_result.
  destruct (should_ignore document r) as [e|[|]] eqn:E.
  - exfalso. exact (H e eq_refl).
  - eexists. reflexivity.
  - eexists. reflexivity.
Qed.

End BlockName.

(** X12.  However the visit of a node ends, by returning or by raising,
    it leaves [current_testcase_or_keyword_name] as it found it or sets
    it to [None]; so a visit that starts outside every test case and
    keyword, as [get] starts it, ends with the name [None]. *)
Theorem visit_never_leaks_a_block_name :
  forall (ext : Externals) (n : Node) (s : AnalyzerState),
    (current_testcase_or_keyword_name (snd (visit n s))
     = current_testcase_or_keyword_name s
     \/ current_testcase_or_keyword_name (snd (visit n s)) = None)
    /\ (current_testcase_or_keyword_name s = None ->
        current_testcase_or_keyword_name (snd (visit n s)) = None).
Proof.
  intros ext n s. pose proof (keeps_or_clears_visit n s) as H.
  split; [exact H|]. intros Hs. destruct H as [H|H]; congruence.
Qed.

(** X13.  The [finally] of [visit_TestCase] and [visit_Keyword]: once the
    visitor has entered such a block, the node not being canceled and the
    scan of the header's range not raising, the name is [None] after the
    visit, whether the visit of the children returned or raised. *)
Theorem named_block_clears_name_even_on_error :
  forall (ext : Externals) (n : Node) (hr : Range) (s : AnalyzerState),
    header_range n = Some hr ->
    canceled n = false ->
    (forall e, should_ignore document hr <> inl e) ->
    current_testcase_or_keyword_name (snd (visit n s)) = None.
Proof.
  intros ext n hr s Hhr Hc Hscan.
  destruct n as [| | | | | |header r body|header r body|]; try discriminate.
  - injection Hhr as <-. rewrite visit_TestCase_eq, Hc.
    unfold visit_TestCase, bind.
    destruct (negb (truthy _)).
    + destruct (append_diagnostics_does_not_raise _
                  "Test case name cannot be empty." (Some ERROR)
                  (Some "KeywordError") None (Some DIAGNOSTICS_SOURCE_NAME)
                  None None None s Hscan) as [s1 ->].
      apply named_block_clears_name.
    + apply named_block_clears_name.
  - injection Hhr as <-. rewrite visit_Keyword_eq, Hc.
    unfold visit_Keyword, bind.
    destruct (truthy _).
    + destruct (is_embedded_keyword _ && has_arguments body).
      * destruct (append_diagnostics_does_not_raise _
                    "Keyword cannot have both normal and embedded arguments."
                    (Some ERROR) (Some "KeywordError") None
                    (Some DIAGNOSTICS_SOURCE_NAME) None None None s Hscan)
          as [s1 ->].
        apply named_block_clears_name.
      * apply named_block_clears_name.
    + destruct (append_diagnostics_does_not_raise _
                  "Keyword name cannot be empty." (Some ERROR)
                  (Some "KeywordError") None (Some DIAGNOSTICS_SOURCE_NAME)
                  None None None s Hscan) as [s1 ->].
      apply named_block_clears_name.
Qed.

Lemma named_block_clears_name_even_on_error_witness :
  @header_range (Examples.test_case 2 "T" [Examples.Boom_call])
  = Some (range_from_token (Token.mk Token.TESTCASE_NAME "T" 2 0))
  /\ @canceled (Examples.environment None)
       (Examples.test_case 2 "T" [Examples.Boom_call]) = false
  /\ fst (@visit (Examples.environment None)
            (Examples.test_case 2 "T" [Examples.Boom_call])
            (mkState [] None))
     = Raise (Exception "DataError" "Broken import")
  /\ current_testcase_or_keyword_name
       (snd (@visit (Examples.environment None)
               (Examples.test_case 2 "T" [Examples.Boom_call])
               (mkState [] None)))
     = None.
Proof.
  split; [reflexivity|]. split; [reflexivity|]. split; [reflexivity|].
  apply (named_block_clears_name_even_on_error
           (Examples.environment None)
           (Examples.test_case 2 "T" [Examples.Boom_call])
           (range_from_token (Token.mk Token.TESTCASE_NAME "T" 2 0))
           (mkState [] None)).
  - reflexivity.
  - reflexivity.
  - intros e. simpl. discriminate.
Defined.

(* ================================================================== *)
(** ** Templates, and keyword tokens that bear a variable              *)
(* ================================================================== *)

(** On an empty list of arguments the run-keyword machine does nothing,
    whatever the keyword is. *)
Lemma analyse_run_keyword_nothing {ext : Externals} rk d node s :
  _analyse_run_keyword_with rk d node [] s = (Return [], s).
Proof.
  unfold _analyse_run_keyword_with. destruct d as [doc|]; [|reflexivity].
  destruct (negb (KeywordDoc.is_any_run_keyword doc)); [reflexivity|].
  rewrite !nth_error_nil. cbn [List.length Nat.ltb Nat.leb].
  rewrite !andb_false_r. cbv zeta.
  destruct (KeywordDoc.is_run_keywords doc); reflexivity.
Qed.

Section TemplateResolver.

Context (ext : Externals).

Variable resolver : ArgSpec -> list string -> option nat -> bool -> option exn.

Lemma report_keyword_template result diags node kt args :
  is_template node = true ->
  @report_keyword (with_resolver ext resolver) result diags node kt args
  = @report_keyword ext result diags node kt args.
Proof.
  intros Ht. unfold report_keyword. rewrite Ht. reflexivity.
Qed.

Lemma call_with_template rk' rk kw node kt args flag s :
  is_template node = true ->
  (forall d s1, rk' d node args s1 = rk d node args s1) ->
  @_analyze_keyword_call_with (with_resolver ext resolver) rk' kw node kt
                              args flag s
  = @_analyze_keyword_call_with ext rk kw node kt args flag s.
Proof.
  intros Ht H. unfold _analyze_keyword_call_with.
  change (@is_not_variable_token (with_resolver ext resolver))
    with (@is_not_variable_token ext).
  destruct (negb (is_not_variable_token kt)); [reflexivity|].
  apply bind_ext; [reflexivity|].
  intros [[result diags]|] s1 _; [|reflexivity].
  apply bind_ext.
  { rewrite (report_keyword_template result diags node kt args Ht).
    reflexivity. }
  intros _ s2 _.
  destruct result; [|reflexivity]. destruct flag; [|reflexivity].
  apply bind_ext; [apply H|reflexivity].
Qed.

Lemma visit_template_statement node kt kw s :
  is_template node = true ->
  (@_analyze_keyword_call (with_resolver ext resolver) kw node kt [] true ;;
   ret tt) s
  = (@_analyze_keyword_call ext kw node kt [] true ;; ret tt) s.
Proof.
  intros Ht. apply bind_ext; [|reflexivity].
  apply call_with_template; [exact Ht|]. intros d s1.
  cbn [List.length _analyse_run_keyword_fuel].
  rewrite !analyse_run_keyword_nothing. reflexivity.
Qed.

End TemplateResolver.

(** X14.  For a [Template] or [TestTemplate] node the argument resolver
    is never consulted: the visit of the node is the same whatever the
    resolver is. *)
Theorem template_nodes_skip_the_argument_resolver :
  forall (ext : Externals)
         (resolver : ArgSpec -> list string -> option nat -> bool
                     -> option exn)
         (tokens : list Token.t) (r : Range) (s : AnalyzerState),
    @visit (with_resolver ext resolver) (Template tokens r) s
    = @visit ext (Template tokens r) s
    /\ @visit (with_resolver ext resolver) (TestTemplate tokens r) s
       = @visit ext (TestTemplate tokens r) s.
Proof.
  intros ext resolver tokens r s. split.
  - cbn [visit].
    change (@canceled (with_resolver ext resolver)) with (@canceled ext).
    destruct (canceled (Template tokens r)); [reflexivity|].
    unfold visit_Template.
    change (@is_not_variable_token (with_resolver ext resolver))
      with (@is_not_variable_token ext).
    destruct (get_token Token.NAME tokens) as [kt|]; [|reflexivity].
    destruct (is_not_variable_token kt); [|reflexivity].
    apply visit_template_statement. reflexivity.
  - cbn [visit].
    change (@canceled (with_resolver ext resolver)) with (@canceled ext).
    destruct (canceled (TestTemplate tokens r)); [reflexivity|].
    unfold visit_TestTemplate.
    change (@is_not_variable_token (with_resolver ext resolver))
      with (@is_not_variable_token ext).
    destruct (get_token Token.NAME tokens) as [kt|]; [|reflexivity].
    destruct (is_not_variable_token kt); [|reflexivity].
    apply visit_template_statement. reflexivity.
Qed.

(** X15.  A statement whose keyword token bears a variable is not
    analysed: the visit of a [Fixture], [Template] or [TestTemplate] node
    with such a NAME token, and of a [KeywordCall] node with such a KEYWORD
    token inside a block that has a name, returns without looking the
    keyword up and leaves the results as they are, whatever the finder
    would answer. *)
Theorem variable_keyword_tokens_are_skipped :
  forall (ext : Externals) (n : Node) (kt : Token.t) (s : AnalyzerState),
    canceled n = false ->
    keyword_token_of n = Some kt ->
    is_not_variable_token kt = false ->
    match n with
    | KeywordCall tokens _ =>
        assigns_without_keyword tokens = false
        /\ truthy (current_testcase_or_keyword_name s) = true
    | _ => True
    end ->
    visit n s = (Return tt, s).
Proof.
  intros ext n kt s Hc Hkt Hvar Hn.
  destruct n as [tokens r|tokens r|tokens r|tokens r| | | | |];
    try discriminate; cbn [keyword_token_of] in Hkt; cbn [visit];
    rewrite Hc.
  - destruct Hn as [Hassign Hname].
    unfold visit_KeywordCall. rewrite Hassign, Hkt.
    unfold _analyze_keyword_call, _analyze_keyword_call_with.
    rewrite Hvar. cbn [negb]. unfold bind, ret. rewrite Hname. reflexivity.
  - unfold visit_Fixture. rewrite Hkt, Hvar. reflexivity.
  - unfold visit_Template. rewrite Hkt, Hvar. reflexivity.
  - unfold visit_TestTemplate. rewrite Hkt, Hvar. reflexivity.
Qed.

Lemma variable_keyword_tokens_are_skipped_witness :
  @canceled (Examples.environment None)
    (Examples.call_line 3 ["${kw}"; "Boom"]) = false
  /\ keyword_token_of (Examples.call_line 3 ["${kw}"; "Boom"])
     = Some (Token.mk Token.KEYWORD "${kw}" 3 4)
  /\ @is_not_variable_token (Examples.environment None)
       (Token.mk Token.KEYWORD "${kw}" 3 4) = false
  /\ @visit (Examples.environment None)
       (Examples.call_line 3 ["${kw}"; "Boom"]) (mkState [] (Some "TC"))
     = (Return tt, mkState [] (Some "TC")).
Proof.
  split; [reflexivity|]. split; [reflexivity|]. split; [reflexivity|].
  apply (variable_keyword_tokens_are_skipped (Examples.environment None)
           (Examples.call_line 3 ["${kw}"; "Boom"])
           (Token.mk Token.KEYWORD "${kw}" 3 4) (mkState [] (Some "TC")));
    try reflexivity.
  split; reflexivity.
Defined.

(* ================================================================== *)
(** ** The diagnostics of one keyword call, in order                   *)
(* ================================================================== *)

Section CallDiagnostics.

Context {ext : Externals}.

Lemma appended_nil s : appended s [] = s.
Proof. destruct s. unfold appended. cbn. rewrite app_nil_r. reflexivity. Qed.

Lemma appended_appended s l1 l2 :
  appended (appended s l1) l2 = appended s (l1 ++ l2).
Proof. unfold appended. cbn. rewrite app_assoc. reflexivity. Qed.

Lemma appends_ret : appends [] (ret tt).
Proof. intros s. rewrite appended_nil. reflexivity. Qed.

Lemma appends_bind l1 l2 (m k : M unit) :
  appends l1 m -> appends l2 k -> appends (l1 ++ l2) (m ;; k).
Proof.
  intros Hm Hk s. unfold bind. rewrite Hm, Hk, appended_appended.
  reflexivity.
Qed.

Hypothesis no_document : document = None.

Lemma appends_append_diagnostics r m sev c cd src t ri d :
  appends [mkDiagnostic r m sev c cd src t ri d]
          (append_diagnostics r m sev c cd src t ri d).
Proof.
  intros s. unfold append_diagnostics, bind. rewrite no_document.
  reflexivity.
Qed.

Lemma appends_for_each {A} (xs : list A) (f : A -> Diagnostic) body :
  (forall x, appends [f x] (body x)) ->
  appends (map f xs) (for_each xs body).
Proof.
  intros H. induction xs as [|x xs IH]; cbn [for_each map].
  - apply appends_ret.
  - exact (appends_bind [f x] (map f xs) _ _ (H x) IH).
Qed.

Hypothesis resolver_caught :
  forall spec values until named e,
    resolve spec values until named = Some e -> is_reraised e = false.

Lemma appends_report_keyword result diags node kt args :
  appends (keyword_diagnostics result diags node kt args)
          (report_keyword result diags node kt args).
Proof.
  unfold report_keyword, keyword_diagnostics. cbv zeta.
  apply appends_bind.
  { apply appends_for_each. intros e. apply appends_append_diagnostics. }
  destruct result as [result|]; [|apply appends_ret].
  apply appends_bind.
  { destruct (KeywordDoc.errors result);
      [apply appends_ret|apply appends_append_diagnostics]. }
  apply appends_bind.
  { destruct (KeywordDoc.is_deprecated result);
      [apply appends_append_diagnostics|apply appends_ret]. }
  apply appends_bind.
  { destruct (KeywordDoc.is_error_handler result);
      [apply appends_append_diagnostics|apply appends_ret]. }
  destruct (is_template node); cbn [negb]; [apply appends_ret|].
  unfold resolve_arguments.
  destruct (KeywordDoc.arguments result) as [spec|].
  - destruct (resolve _ _ _ _) as [e|] eqn:E.
    + intros s. unfold try_except, raise.
      rewrite (resolver_caught _ _ _ _ _ E).
      apply appends_append_diagnostics.
    + intros s. unfold try_except. apply appends_ret.
  - intros s. unfold try_except. apply appends_ret.
Qed.

Lemma analyze_keyword_call_appends kw node kt args flag result diags s :
  is_not_variable_token kt = true ->
  find_keyword kw = inr (result, diags) ->
  flag = false
  \/ match result with
     | Some r => KeywordDoc.is_any_run_keyword r = false
     | None => True
     end ->
  _analyze_keyword_call kw node kt args flag s
  = (Return result,
     appended s (keyword_diagnostics result diags node kt args)).
Proof.
  intros Hv Hf Hflag.
  unfold _analyze_keyword_call, _analyze_keyword_call_with.
  rewrite Hv, Hf. cbn [negb].
  unfold bind at 1. unfold try_except at 1. unfold bind at 1.
  cbn [lift_result ret].
  unfold bind at 1. unfold try_except at 1.
  rewrite (appends_report_keyword result diags node kt args s).
  destruct result as [r|]; [|reflexivity].
  destruct Hflag as [->|Hr]; [reflexivity|].
  destruct flag; [|reflexivity].
  cbn [_analyse_run_keyword_fuel]. unfold _analyse_run_keyword_with.
  rewrite Hr. reflexivity.
Qed.

End CallDiagnostics.

(** X16.  The order of the diagnostics of one call.  When there is no
    document (so nothing is suppressed), the keyword token is literal, the
    finder answers with [result] and the buffer [diagnostics], and the
    resolver raises nothing that is re-raised, then
    [_analyze_keyword_call], called without the run-keyword analysis or
    on a keyword that is no run keyword, returns [result] and appends
    exactly: one diagnostic for each entry of the buffer, in its order;
    then "Keyword definition contains errors." if the keyword has errors;
    then the Deprecated hint if it is deprecated; then the error of an
    error handler; then the exception of the resolver, which is not asked
    for a template. *)
Theorem keyword_call_diagnostics_come_in_order :
  forall (ext : Externals) (kw : option string) (node : Node)
         (kt : Token.t) (args : list Token.t) (flag : bool)
         (result : option KeywordDoc.t) (diags : list DiagnosticsEntry.t)
         (s : AnalyzerState),
    document = None ->
    (forall spec values until named e,
        resolve spec values until named = Some e -> is_reraised e = false) ->
    is_not_variable_token kt = true ->
    find_keyword kw = inr (result, diags) ->
    flag = false
    \/ match result with
       | Some r => KeywordDoc.is_any_run_keyword r = false
       | None => True
       end ->
    _analyze_keyword_call kw node kt args flag s
    = (Return result,
       mkState
         (_results s ++ keyword_diagnostics result diags node kt args)
         (current_testcase_or_keyword_name s)).
Proof.
  intros ext kw node kt args flag result diags s Hdoc Hres Hv Hf Hflag.
  exact (analyze_keyword_call_appends Hdoc Hres kw node kt args flag result
           diags s Hv Hf Hflag).
Qed.

Lemma keyword_call_diagnostics_come_in_order_witness :
  @document MoreExamples.legacy_environment = None
  /\ @is_not_variable_token MoreExamples.legacy_environment
       (Token.mk Token.KEYWORD "Old Kw" 3 4) = true
  /\ @_analyze_keyword_call MoreExamples.legacy_environment (Some "Old Kw")
       MoreExamples.Old_Kw_call (Token.mk Token.KEYWORD "Old Kw" 3 4)
       [Token.mk Token.ARGUMENT "a" 3 14] true (mkState [] (Some "TC"))
     = (Return (Some MoreExamples.Old_Kw),
        mkState
          [mkDiagnostic (mkRange (mkPosition 2 4) (mkPosition 2 10))
             "Multiple keywords with name 'Old Kw' found." (Some WARNING)
             (Some "KeywordError/multiple") None (Some "robotcode") None
             None None;
           mkDiagnostic (mkRange (mkPosition 2 4) (mkPosition 2 10))
             "Keyword definition contains errors." (Some ERROR) None None
             (Some "robotcode") None
             (Some [mkDiagnosticRelatedInformation
                      (mkLocation "file:///suite/keywords.resource"
                         (mkRange (mkPosition 20 0) (mkPosition 20 0)))
                      "Invalid argument"])
             None;
           mkDiagnostic (mkRange (mkPosition 2 4) (mkPosition 2 10))
             "Keyword 'Old Kw' is deprecated: use New Kw." (Some HINT) None
             None (Some "robotcode") (Some [Deprecated]) None None;
           mkDiagnostic (mkRange (mkPosition 2 4) (mkPosition 2 15))
             "Too many positional arguments." (Some ERROR) (Some "DataError")
             None (Some "robotcode") None None None]
          (Some "TC")).
Proof.
  split; [reflexivity|]. split; [reflexivity|].
  apply (keyword_call_diagnostics_come_in_order
           MoreExamples.legacy_environment (Some "Old Kw")
           MoreExamples.Old_Kw_call (Token.mk Token.KEYWORD "Old Kw" 3 4)
           [Token.mk Token.ARGUMENT "a" 3 14] true
           (Some MoreExamples.Old_Kw)
           [DiagnosticsEntry.mk "Multiple keywords with name 'Old Kw' found."
                                WARNING (Some "KeywordError/multiple")]
           (mkState [] (Some "TC"))).
  - reflexivity.
  - intros [names] values until named e. simpl.
    destruct (_ <? _)%nat; intros [= <-]. reflexivity.
  - reflexivity.
  - reflexivity.
  - right. reflexivity.
Defined.

(** X17.  The related information of "Keyword definition contains
    errors." has one entry for each error of the keyword, in their order
    and with their messages; each points at an empty range at the start
    of a line, and that line is never negative when the line numbers that
    the errors carry count from one: an error without a line number gets
    the line of the keyword, or line zero when that is negative. *)
Theorem related_information_points_at_lines :
  forall (ext : Externals) (result : KeywordDoc.t),
    Forall (fun err =>
              match ImportError.line_no err with
              | Some n => (1 <= n)%Z
              | None => True
              end) (KeywordDoc.errors result) ->
    map related_message (related_information_of result)
    = map ImportError.message (KeywordDoc.errors result)
    /\ Forall (fun ri =>
                 let r := location_range (location ri) in
                 start r = end_ r
                 /\ character (start r) = 0%Z
                 /\ (0 <= line (start r))%Z)
              (related_information_of result).
Proof.
  intros ext result H. unfold related_information_of. split.
  - rewrite map_map. reflexivity.
  - apply Forall_map. revert H. apply Forall_impl. intros err Herr.
    cbn. split; [reflexivity|]. split; [reflexivity|].
    destruct (ImportError.line_no err) as [n|]; [lia|].
    destruct (Z.geb_spec (KeywordDoc.line_no result) 0); lia.
Qed.

Lemma related_information_points_at_lines_witness :
  Forall (fun err =>
            match ImportError.line_no err with
            | Some n => (1 <= n)%Z
            | None => True
            end) (KeywordDoc.errors MoreExamples.Broken_Kw)
  /\ @related_information_of Examples.quiet_environment
       MoreExamples.Broken_Kw
     = [mkDiagnosticRelatedInformation
          (mkLocation "file:///<unknown>"
             (mkRange (mkPosition 0 0) (mkPosition 0 0)))
          "No connection";
        mkDiagnosticRelatedInformation
          (mkLocation "file:///lib/remote.py"
             (mkRange (mkPosition 2 0) (mkPosition 2 0)))
          "Bad name"]
  /\ Forall (fun ri =>
               let r := location_range (location ri) in
               start r = end_ r
               /\ character (start r) = 0%Z
               /\ (0 <= line (start r))%Z)
            (@related_information_of Examples.quiet_environment
               MoreExamples.Broken_Kw).
Proof.
  assert (H : Forall (fun err =>
                        match ImportError.line_no err with
                        | Some n => (1 <= n)%Z
                        | None => True
                        end) (KeywordDoc.errors MoreExamples.Broken_Kw)).
  { repeat constructor. simpl. lia. }
  split; [exact H|]. split; [reflexivity|].
  exact (proj2 (related_information_points_at_lines
                  Examples.quiet_environment MoreExamples.Broken_Kw H)).
Defined.

(* ================================================================== *)
(** ** How the analysis ends                                           *)
(* ================================================================== *)

(** X18.  In an environment where the finder always answers and the
    resolver raises nothing that is re-raised, when no node is canceled,
    the exception for a missing keyword token is an ordinary one, and
    every node of the model has its range and its tokens within the lines
    of the document (nothing is asked of them when there is no document),
    [get] returns its list of diagnostics: the suppression scan reads
    only lines that exist, and no exception leaves the analyzer. *)
Theorem get_returns_for_a_model_within_the_document :
  forall (ext : Externals) (model : Node),
    quiet ext ->
    (forall n, canceled n = false) ->
    is_reraised none_token_error = false ->
    model_in_document document model ->
    exists results, get model = (Return tt, results).
Proof.
  intros ext model [Hfind Hresolve] Hc Hn Hmodel.
  destruct (returns_visit_in Hfind Hresolve Hc Hn model Hmodel
                             (mkState [] None)) as ([] & s' & E).
  unfold get. rewrite E. exists (_results s'). reflexivity.
Qed.

Lemma get_returns_for_a_model_within_the_document_witness :
  quiet MoreExamples.S5_environment
  /\ (forall n, @canceled MoreExamples.S5_environment n = false)
  /\ is_reraised (@none_token_error MoreExamples.S5_environment) = false
  /\ @model_in_document (@document MoreExamples.S5_environment)
       Examples.unknown_keyword_model
  /\ (exists results,
        @get MoreExamples.S5_environment Examples.unknown_keyword_model
        = (Return tt, results))
  /\ @get MoreExamples.S5_environment Examples.unknown_keyword_model
     = (Return tt, [])
  /\ @get Examples.quiet_environment Examples.unknown_keyword_model
     <> (Return tt, []).
Proof.
  assert (Hmodel : @model_in_document
                     (@document MoreExamples.S5_environment)
                     Examples.unknown_keyword_model).
  { intros n Hn. simpl in Hn.
    destruct Hn as [<-|[<-|[<-|[]]]];
      (split; [simpl; lia|repeat constructor; simpl; lia]). }
  split; [exact quiet_example|].
  split; [reflexivity|]. split; [reflexivity|]. split; [exact Hmodel|].
  split.
  - apply (get_returns_for_a_model_within_the_document
             MoreExamples.S5_environment Examples.unknown_keyword_model
             quiet_example); [reflexivity|reflexivity|exact Hmodel].
  - split; [vm_compute; reflexivity|vm_compute; discriminate].
Defined.

(** X19.  When the finder raises on a literal keyword token:
    [CancelledError], [SystemExit] and [KeyboardInterrupt] leave
    [_analyze_keyword_call] with nothing appended; any other exception is
    passed once to [append_diagnostics], on the range of the keyword
    token, with severity Error, the name of its class as code and its
    text as message, and the call returns [None] without running the
    run-keyword analysis. *)
Theorem finder_exception_is_reported_or_reraised :
  forall (ext : Externals) (kw : option string) (node : Node)
         (kt : Token.t) (args : list Token.t) (flag : bool) (e : exn)
         (s : AnalyzerState),
    is_not_variable_token kt = true ->
    find_keyword kw = inl e ->
    _analyze_keyword_call kw node kt args flag s
    = if is_reraised e then (Raise e, s)
      else (append_diagnostics (range_from_node_or_token node (Some kt))
              (exn_str e) (Some ERROR) (Some (exn_qualname e)) None
              (Some DIAGNOSTICS_SOURCE_NAME) None None None ;;
            ret None) s.
Proof.
  intros ext kw node kt args flag e s Hv Hf.
  destruct (is_reraised e) eqn:He.
  - unfold _analyze_keyword_call, _analyze_keyword_call_with.
    rewrite Hv, Hf. cbn [negb].
    unfold try_except, lift_result, raise, bind. rewrite He. reflexivity.
  - exact (analyze_keyword_call_find_raises kw node kt args flag e s Hv Hf
             He).
Qed.

Lemma finder_exception_is_reported_or_reraised_witness :
  @is_not_variable_token (Examples.environment None)
    (Token.mk Token.KEYWORD "Boom" 3 4) = true
  /\ @find_keyword (Examples.environment None) (Some "Boom")
     = inl (Exception "DataError" "Broken import")
  /\ @_analyze_keyword_call (Examples.environment None) (Some "Boom")
       (Examples.call_line 3 ["Boom"]) (Token.mk Token.KEYWORD "Boom" 3 4)
       [] true (mkState [] (Some "TC"))
     = (Return None,
        mkState
          [mkDiagnostic (mkRange (mkPosition 2 4) (mkPosition 2 8))
             "Broken import" (Some ERROR) (Some "DataError") None
             (Some "robotcode") None None None]
          (Some "TC")).
Proof.
  split; [reflexivity|]. split; [reflexivity|].
  apply (finder_exception_is_reported_or_reraised
           (Examples.environment None) (Some "Boom")
           (Examples.call_line 3 ["Boom"])
           (Token.mk Token.KEYWORD "Boom" 3 4) [] true
           (Exception "DataError" "Broken import")
           (mkState [] (Some "TC"))); reflexivity.
Defined.

(* ================================================================== *)
(** ** The run-keyword machine: the other families                     *)
(* ================================================================== *)

Section OtherFamilies.

Context {ext : Externals}.

Lemma run_keyword_with_condition_literal doc node A c t s :
  KeywordDoc.run_keyword_family doc = KeywordDoc.RunKeywordWithCondition c ->
  nth_error A c = Some t ->
  is_not_variable_token t = true ->
  _analyse_run_keyword (Some doc) node A s
  = (_analyze_keyword_call (Some (unescape (Token.value t))) node t
                           (skipn (c + 1) A) true ;;
     ret (skipn (c + 1) A)) s.
Proof.
  intros Hfam Hn Ht. unfold _analyse_run_keyword.
  cbn [_analyse_run_keyword_fuel].
  unfold _analyse_run_keyword_with, KeywordDoc.is_any_run_keyword,
         KeywordDoc.is_run_keyword, KeywordDoc.is_run_keyword_with_condition,
         KeywordDoc.run_keyword_condition_count.
  rewrite Hfam. cbn [negb andb]. rewrite Hn, Ht. cbv zeta.
  apply bind_ext; [|reflexivity].
  apply call_fuel. rewrite length_skipn.
  assert (c < List.length A) by (apply nth_error_Some; congruence). lia.
Qed.

Lemma run_keyword_with_condition_nothing doc node A c s :
  KeywordDoc.run_keyword_family doc = KeywordDoc.RunKeywordWithCondition c ->
  match nth_error A c with
  | Some t => is_not_variable_token t = false
  | None => True
  end ->
  _analyse_run_keyword (Some doc) node A s = (Return A, s).
Proof.
  intros Hfam HA. unfold _analyse_run_keyword.
  cbn [_analyse_run_keyword_fuel].
  unfold _analyse_run_keyword_with, KeywordDoc.is_any_run_keyword,
         KeywordDoc.is_run_keyword, KeywordDoc.is_run_keyword_with_condition,
         KeywordDoc.run_keyword_condition_count, KeywordDoc.is_run_keywords,
         KeywordDoc.is_run_keyword_if.
  rewrite Hfam. cbn [negb andb].
  destruct (nth_error A c) as [t|]; [rewrite HA|]; reflexivity.
Qed.

(** [skip_args] on arguments that hold no ELSE and no ELSE IF, followed
    by nothing or by such a token. *)
Lemma skip_args_exact (args left : list Token.t) :
  forallb (fun t => negb ((Token.value t =? "ELSE")
                          || (Token.value t =? "ELSE IF"))) args = true ->
  match left with
  | [] => True
  | t :: _ => (Token.value t =? "ELSE") || (Token.value t =? "ELSE IF") = true
  end ->
  skip_args (args ++ left) = (args, left).
Proof.
  intros Hargs Hleft. induction args as [|a args IH]; cbn [app].
  - destruct left as [|t left]; [reflexivity|]. cbn [skip_args].
    rewrite Hleft. reflexivity.
  - cbn [forallb] in Hargs. apply andb_true_iff in Hargs as [Ha Hargs].
    apply negb_true_iff in Ha. cbn [skip_args]. rewrite Ha, (IH Hargs).
    reflexivity.
Qed.

(** The keyword that [_analyze_keyword_call] returns is the one the
    finder has answered with. *)
Lemma call_with_result rk kw node kt args flag s r s' :
  _analyze_keyword_call_with rk kw node kt args flag s = (Return (Some r), s')
  -> exists diags, find_keyword kw = inr (Some r, diags).
Proof.
  unfold _analyze_keyword_call_with.
  destruct (negb (is_not_variable_token kt)); [discriminate|].
  intros H. apply bind_Return_inv in H as (found & s1 & Hfound & H).
  assert (Hf : match found with
               | Some x => find_keyword kw = inr x
               | None => True
               end).
  { revert Hfound. unfold try_except, bind, lift_result.
    destruct (find_keyword kw) as [e|x]; cbn [raise ret].
    - destruct (is_reraised e); [discriminate|].
      destruct (report_exception node (Some kt) e s) as [[u|e'|] s2];
        try discriminate.
      intros [= <- _]. exact I.
    - intros [= <- _]. reflexivity. }
  destruct found as [[result diags]|]; [|discriminate].
  apply bind_Return_inv in H as (u & s2 & _ & H).
  exists diags. rewrite Hf. destruct result as [r'|]; [|discriminate].
  destruct flag.
  - apply bind_Return_inv in H as (B & s3 & _ & H).
    injection H as -> _. reflexivity.
  - injection H as -> _. reflexivity.
Qed.

End OtherFamilies.

(** X20.  For a keyword of the with-condition family that takes [c]
    condition arguments, and argument tokens [A]: when [A[c]] exists and is
    literal, the machine analyses the unescaped [A[c].value] as a keyword
    call with keyword token [A[c]] and arguments [A[c+1..]], and returns
    [A[c+1..]]; when [A] has [c] tokens or fewer, or [A[c]] bears a
    variable, it does nothing and returns [A]. *)
Theorem run_keyword_with_condition_skips_the_conditions :
  forall (ext : Externals) (doc : KeywordDoc.t) (node : Node)
         (A : list Token.t) (c : nat) (s : AnalyzerState),
    KeywordDoc.run_keyword_family doc = KeywordDoc.RunKeywordWithCondition c ->
    match nth_error A c with
    | Some t =>
        if is_not_variable_token t
        then _analyse_run_keyword (Some doc) node A s
             = (_analyze_keyword_call (Some (unescape (Token.value t))) node
                                      t (skipn (c + 1) A) true ;;
                ret (skipn (c + 1) A)) s
        else _analyse_run_keyword (Some doc) node A s = (Return A, s)
    | None => _analyse_run_keyword (Some doc) node A s = (Return A, s)
    end.
Proof.
  intros ext doc node A c s Hfam.
  destruct (nth_error A c) as [t|] eqn:Hn.
  - destruct (is_not_variable_token t) eqn:Ht.
    + apply run_keyword_with_condition_literal; assumption.
    + apply (run_keyword_with_condition_nothing doc node A c s Hfam).
      rewrite Hn. exact Ht.
  - apply (run_keyword_with_condition_nothing doc node A c s Hfam).
    rewrite Hn. exact I.
Qed.

Lemma run_keyword_with_condition_skips_the_conditions_witness :
  KeywordDoc.run_keyword_family Examples.Wait_Until_Keyword_Succeeds
  = KeywordDoc.RunKeywordWithCondition 2
  /\ @_analyse_run_keyword (Examples.environment None)
       (Some Examples.Wait_Until_Keyword_Succeeds) Examples.wait_call
       (get_tokens Token.ARGUMENT (Examples.tokens_of Examples.wait_call))
       (mkState [] (Some "TC"))
     = (Return [Token.mk Token.ARGUMENT "a" 3 58;
                Token.mk Token.ARGUMENT "b" 3 63],
        mkState
          [mkDiagnostic (mkRange (mkPosition 2 47) (mkPosition 2 64))
             "Too many positional arguments." (Some ERROR) (Some "DataError")
             None (Some "robotcode") None None None]
          (Some "TC")).
Proof.
  split; [reflexivity|].
  exact (run_keyword_with_condition_skips_the_conditions
           (Examples.environment None) Examples.Wait_Until_Keyword_Succeeds
           Examples.wait_call
           (get_tokens Token.ARGUMENT (Examples.tokens_of Examples.wait_call))
           2 (mkState [] (Some "TC")) eq_refl).
Defined.

(** X21.  Without a keyword, for a keyword that is no run keyword, and
    for Run Keyword If with fewer than two argument tokens, the machine
    returns its argument tokens as they are and does nothing else: it
    asks the finder for nothing and appends nothing. *)
Theorem run_keyword_machine_leaves_other_keywords_alone :
  forall (ext : Externals) (d : option KeywordDoc.t) (node : Node)
         (A : list Token.t) (s : AnalyzerState),
    match d with
    | None => True
    | Some doc =>
        KeywordDoc.run_keyword_family doc = KeywordDoc.NoFamily
        \/ (KeywordDoc.run_keyword_family doc = KeywordDoc.RunKeywordIf
            /\ List.length A < 2)
    end ->
    _analyse_run_keyword d node A s = (Return A, s).
Proof.
  intros ext d node A s H. unfold _analyse_run_keyword.
  cbn [_analyse_run_keyword_fuel]. unfold _analyse_run_keyword_with.
  destruct d as [doc|]; [|reflexivity].
  unfold KeywordDoc.is_any_run_keyword, KeywordDoc.is_run_keyword,
         KeywordDoc.is_run_keyword_with_condition, KeywordDoc.is_run_keywords,
         KeywordDoc.is_run_keyword_if.
  destruct H as [->|[-> Hlen]]; [reflexivity|]. cbn [negb andb].
  destruct (Nat.ltb_spec 1 (List.length A)); [lia|reflexivity].
Qed.

Lemma run_keyword_machine_leaves_other_keywords_alone_witness :
  (KeywordDoc.run_keyword_family Examples.Run_Keyword_If
   = KeywordDoc.NoFamily
   \/ (KeywordDoc.run_keyword_family Examples.Run_Keyword_If
       = KeywordDoc.RunKeywordIf
       /\ List.length [Token.mk Token.ARGUMENT "Boom" 3 22] < 2))
  /\ @_analyse_run_keyword (Examples.environment None)
       (Some Examples.Run_Keyword_If) Examples.Boom_call
       [Token.mk Token.ARGUMENT "Boom" 3 22] (mkState [] (Some "TC"))
     = (Return [Token.mk Token.ARGUMENT "Boom" 3 22],
        mkState [] (Some "TC")).
Proof.
  assert (H : KeywordDoc.run_keyword_family Examples.Run_Keyword_If
              = KeywordDoc.NoFamily
              \/ (KeywordDoc.run_keyword_family Examples.Run_Keyword_If
                  = KeywordDoc.RunKeywordIf
                  /\ List.length [Token.mk Token.ARGUMENT "Boom" 3 22] < 2)).
  { right. split; [reflexivity|simpl; lia]. }
  split; [exact H|].
  exact (run_keyword_machine_leaves_other_keywords_alone
           (Examples.environment None) (Some Examples.Run_Keyword_If)
           Examples.Boom_call [Token.mk Token.ARGUMENT "Boom" 3 22]
           (mkState [] (Some "TC")) H).
Defined.

(** X22.  [skip_args] cuts the argument tokens at the first token whose
    value is ELSE or ELSE IF: what it collects and what it leaves make up
    the tokens, nothing it collects is ELSE or ELSE IF, and what it leaves
    is empty or starts with such a token. *)
Theorem skip_args_cuts_at_the_first_ELSE :
  forall argument_tokens : list Token.t,
    argument_tokens
    = fst (skip_args argument_tokens) ++ snd (skip_args argument_tokens)
    /\ Forall (fun t => Token.value t <> "ELSE"
                        /\ Token.value t <> "ELSE IF")
              (fst (skip_args argument_tokens))
    /\ match snd (skip_args argument_tokens) with
       | [] => True
       | t :: _ => Token.value t = "ELSE" \/ Token.value t = "ELSE IF"
       end.
Proof.
  intros l. split; [apply skip_args_split|].
  induction l as [|t l [IH1 IH2]]; cbn [skip_args].
  - split; [constructor|exact I].
  - destruct (Token.value t =? "ELSE") eqn:E1; cbn [orb fst snd].
    + split; [constructor|]. left. apply String.eqb_eq. exact E1.
    + destruct (Token.value t =? "ELSE IF") eqn:E2; cbn [fst snd].
      * split; [constructor|]. right. apply String.eqb_eq. exact E2.
      * destruct (skip_args l) as [result left]. cbn [fst snd] in *.
        split; [|exact IH2]. constructor; [|exact IH1].
        split; apply String.eqb_neq; assumption.
Qed.

Section RunKeywordIfFamily.

Context {ext : Externals}.

Variables (doc : KeywordDoc.t) (node : Node).

Lemma is_ELSE_or_ELSE_IF_of_ELSE (t : Token.t) :
  Token.value t = "ELSE" ->
  (Token.value t =? "ELSE") || (Token.value t =? "ELSE IF") = true.
Proof. intros ->. reflexivity. Qed.

Lemma run_keyword_if_else cond kwt args else_token kw2 args2 r1 d1 s :
  KeywordDoc.run_keyword_family doc = KeywordDoc.RunKeywordIf ->
  Token.value else_token = "ELSE" ->
  forallb (fun t => negb ((Token.value t =? "ELSE")
                          || (Token.value t =? "ELSE IF"))) args = true ->
  forallb (fun t => negb ((Token.value t =? "ELSE")
                          || (Token.value t =? "ELSE IF"))) args2 = true ->
  is_not_variable_token kwt = true ->
  find_keyword (Some (Token.value kwt)) = inr (r1, d1) ->
  match r1 with
  | Some r => KeywordDoc.is_any_run_keyword r = false
  | None => True
  end ->
  (forall r d,
      find_keyword (Some (unescape (Token.value kw2))) = inr (Some r, d) ->
      KeywordDoc.is_any_run_keyword r = false) ->
  _analyse_run_keyword (Some doc) node
    (cond :: kwt :: args ++ else_token :: kw2 :: args2) s
  = (_analyze_keyword_call (Some (unescape (Token.value kwt))) node kwt args
                           false ;;
     _analyze_keyword_call (Some (unescape (Token.value kw2))) node kw2 args2
                           false ;;
     ret []) s.
Proof.
  intros Hfam Helse Hargs Hargs2 Hkwt Hfind Hr1 Hkw2.
  assert (Hr1' : match r1 with
                 | Some r => KeywordDoc.is_any_run_keyword r
                 | None => false
                 end = false)
    by (destruct r1 as [r|]; [exact Hr1|reflexivity]).
  assert (Hany : KeywordDoc.is_any_run_keyword doc = true)
    by (unfold KeywordDoc.is_any_run_keyword; rewrite Hfam; reflexivity).
  assert (H1 : KeywordDoc.is_run_keyword doc = false)
    by (unfold KeywordDoc.is_run_keyword; rewrite Hfam; reflexivity).
  assert (H2 : KeywordDoc.is_run_keyword_with_condition doc = false)
    by (unfold KeywordDoc.is_run_keyword_with_condition; rewrite Hfam;
        reflexivity).
  assert (H3 : KeywordDoc.is_run_keywords doc = false)
    by (unfold KeywordDoc.is_run_keywords; rewrite Hfam; reflexivity).
  assert (H4 : KeywordDoc.is_run_keyword_if doc = true)
    by (unfold KeywordDoc.is_run_keyword_if; rewrite Hfam; reflexivity).
  unfold _analyse_run_keyword. cbn [_analyse_run_keyword_fuel].
  generalize (_analyse_run_keyword_fuel
                (List.length
                   (cond :: kwt :: args ++ else_token :: kw2 :: args2))).
  intros rk. unfold _analyse_run_keyword_with.
  rewrite Hany, H1, H2, H3, H4.
  cbn [negb andb List.length Nat.ltb Nat.leb nth_error skipn].
  rewrite Hfind. unfold bind at 1. cbn [lift_result ret fst].
  rewrite Hr1'.
  rewrite (skip_args_exact args (else_token :: kw2 :: args2) Hargs
             (is_ELSE_or_ELSE_IF_of_ELSE _ Helse)).
  rewrite Hkwt. unfold bind.
  rewrite (call_with_no_nesting rk
             (_analyse_run_keyword_fuel (S (List.length args)))).
  fold (_analyze_keyword_call (Some (unescape (Token.value kwt))) node kwt
          args false).
  destruct (_analyze_keyword_call (Some (unescape (Token.value kwt))) node
              kwt args false s) as [[res|e|] s1]; try reflexivity.
  cbn [ret]. cbn [run_keyword_if_loop List.length].
  rewrite Helse.
  cbn [String.eqb Ascii.eqb Bool.eqb andb Nat.ltb Nat.leb nth_error skipn].
  unfold bind.
  rewrite (call_with_no_nesting rk
             (_analyse_run_keyword_fuel (S (List.length args2)))).
  fold (_analyze_keyword_call (Some (unescape (Token.value kw2))) node kw2
          args2 false).
  destruct (_analyze_keyword_call (Some (unescape (Token.value kw2))) node
              kw2 args2 false s1) as [[res2|e|] s2] eqn:E2; try reflexivity.
  assert (Hb : analyse_branch_keyword rk res2 node args2 s2
               = (Return args2, s2)).
  { unfold analyse_branch_keyword. destruct res2 as [r|]; [|reflexivity].
    destruct (call_with_result _ _ _ _ _ _ _ _ _ E2) as [d Hd].
    rewrite (Hkw2 r d Hd). reflexivity. }
  rewrite Hb.
  pose proof (skip_args_exact args2 [] Hargs2 I) as Hs.
  rewrite app_nil_r in Hs. rewrite Hs. reflexivity.
Qed.

End RunKeywordIfFamily.

(** X23.  Run Keyword If with one ELSE branch.  For the argument tokens
    [condition, K1, args1..., ELSE, K2, args2...], where neither list of
    arguments holds an ELSE or ELSE IF, [K1] is literal, the finder
    answers for the value of [K1], and neither branch keyword is itself a
    run keyword: the machine analyses [K1] with [args1] and then [K2] with
    [args2], both without the run-keyword analysis, and returns the empty
    list. *)
Theorem run_keyword_if_analyses_both_branches :
  forall (ext : Externals) (doc : KeywordDoc.t) (node : Node)
         (cond kwt : Token.t) (args : list Token.t)
         (else_token kw2 : Token.t) (args2 : list Token.t)
         (r1 : option KeywordDoc.t) (d1 : list DiagnosticsEntry.t)
         (s : AnalyzerState),
    KeywordDoc.run_keyword_family doc = KeywordDoc.RunKeywordIf ->
    Token.value else_token = "ELSE" ->
    forallb (fun t => negb ((Token.value t =? "ELSE")
                            || (Token.value t =? "ELSE IF"))) args = true ->
    forallb (fun t => negb ((Token.value t =? "ELSE")
                            || (Token.value t =? "ELSE IF"))) args2 = true ->
    is_not_variable_token kwt = true ->
    find_keyword (Some (Token.value kwt)) = inr (r1, d1) ->
    match r1 with
    | Some r => KeywordDoc.is_any_run_keyword r = false
    | None => True
    end ->
    (forall r d,
        find_keyword (Some (unescape (Token.value kw2))) = inr (Some r, d) ->
        KeywordDoc.is_any_run_keyword r = false) ->
    _analyse_run_keyword (Some doc) node
      (cond :: kwt :: args ++ else_token :: kw2 :: args2) s
    = (_analyze_keyword_call (Some (unescape (Token.value kwt))) node kwt
                             args false ;;
       _analyze_keyword_call (Some (unescape (Token.value kw2))) node kw2
                             args2 false ;;
       ret []) s.
Proof.
  intros ext doc node cond kwt args else_token kw2 args2 r1 d1 s.
  apply run_keyword_if_else.
Qed.

Lemma run_keyword_if_analyses_both_branches_witness :
  KeywordDoc.run_keyword_family Examples.Run_Keyword_If
  = KeywordDoc.RunKeywordIf
  /\ @find_keyword (Examples.environment None) (Some "Log")
     = inr (Some Examples.Log, [])
  /\ @_analyse_run_keyword (Examples.environment None)
       (Some Examples.Run_Keyword_If) Examples.else_call
       (get_tokens Token.ARGUMENT (Examples.tokens_of Examples.else_call))
       (mkState [] (Some "TC"))
     = (Return [],
        mkState
          [mkDiagnostic (mkRange (mkPosition 2 51) (mkPosition 2 68))
             "Too many positional arguments." (Some ERROR) (Some "DataError")
             None (Some "robotcode") None None None]
          (Some "TC")).
Proof.
  split; [reflexivity|]. split; [reflexivity|].
  apply (run_keyword_if_analyses_both_branches
           (Examples.environment None) Examples.Run_Keyword_If
           Examples.else_call
           (Token.mk Token.ARGUMENT "${x}" 3 22)
           (Token.mk Token.ARGUMENT "Log" 3 30)
           [Token.mk Token.ARGUMENT "hi" 3 37]
           (Token.mk Token.ARGUMENT "ELSE" 3 43)
           (Token.mk Token.ARGUMENT "One Arg" 3 51)
           [Token.mk Token.ARGUMENT "a" 3 62; Token.mk Token.ARGUMENT "b" 3 67]
           (Some Examples.Log) [] (mkState [] (Some "TC")));
    try reflexivity.
  intros r d. simpl. intros [= <- _]. reflexivity.
Defined.

(** X24.  A keyword that [_analyze_keyword_call] returns is the keyword
    that the finder has answered with for the name it was called with;
    the call returns no keyword of its own making. *)
Theorem analyze_keyword_call_returns_the_keyword_found :
  forall (ext : Externals) (kw : option string) (node : Node)
         (kt : Token.t) (args : list Token.t) (flag : bool)
         (s s' : AnalyzerState) (r : KeywordDoc.t),
    _analyze_keyword_call kw node kt args flag s = (Return (Some r), s') ->
    exists diags, find_keyword kw = inr (Some r, diags).
Proof.
  intros ext kw node kt args flag s s' r H.
  exact (call_with_result _ kw node kt args flag s r s' H).
Qed.

Lemma analyze_keyword_call_returns_the_keyword_found_witness :
  @_analyze_keyword_call (Examples.environment None) (Some "Log")
    (Examples.call_line 3 ["Log"; "hi"]) (Token.mk Token.KEYWORD "Log" 3 4)
    [Token.mk Token.ARGUMENT "hi" 3 11] true (mkState [] (Some "TC"))
  = (Return (Some Examples.Log), mkState [] (Some "TC"))
  /\ exists diags,
       @find_keyword (Examples.environment None) (Some "Log")
       = inr (Some Examples.Log, diags).
Proof.
  split; [reflexivity|].
  apply (analyze_keyword_call_returns_the_keyword_found
           (Examples.environment None) (Some "Log")
           (Examples.call_line 3 ["Log"; "hi"])
           (Token.mk Token.KEYWORD "Log" 3 4)
           [Token.mk Token.ARGUMENT "hi" 3 11] true (mkState [] (Some "TC"))
           (mkState [] (Some "TC")) Examples.Log).
  reflexivity.
Defined.

(* ================================================================== *)
(** ** definition.py: the choice of a method, imports, templates       *)
(* ================================================================== *)

Section FindMethod.

(** [_find_method] on a class that is not [ast.AST]: its own method, or
    the first that one of its bases gives. *)
Lemma _find_method_class (name : string) (bases : list PyClass) :
  _find_method (class_ name bases)
  = if has_definition_method name
    then Some ("definition_" ++ name)%string
    else fold_right (fun base rest =>
                       match _find_method base with
                       | Some method => Some method
                       | None => rest
                       end) None bases.
Proof.
  cbn [_find_method]. destruct (has_definition_method name); [reflexivity|].
  induction bases as [|b bases IH]; [reflexivity|].
  cbn [fold_right]. rewrite <- IH. reflexivity.
Qed.

Lemma not_inherited_by_AST (name : string) (bases : list PyClass) :
  ~ inherits_from (class_ name bases) ast_AST.
Proof. intros H. inversion H. Qed.

Lemma _find_method_sound (cls : PyClass) :
  forall m,
    _find_method cls = Some m ->
    exists name bases,
      inherits_from (class_ name bases) cls
      /\ has_definition_method name = true
      /\ m = ("definition_" ++ name)%string.
Proof.
  induction cls as [|name bases IH] using PyClass_induction; intros m.
  - discriminate.
  - rewrite _find_method_class.
    destruct (has_definition_method name) eqn:E.
    + intros [= <-]. exists name, bases.
      split; [apply inherits_self|]. split; [exact E|reflexivity].
    + induction IH as [|b bases Hb _ IHbases]; [discriminate|].
      cbn [fold_right]. destruct (_find_method b) as [mb|] eqn:Eb.
      * intros [= <-]. destruct (Hb mb eq_refl) as (n & bs & Hi & Hm & ->).
        exists n, bs. split; [|split; [exact Hm|reflexivity]].
        apply (inherits_base _ name (b :: bases) b); [left; reflexivity|].
        exact Hi.
      * intros H. destruct (IHbases H) as (n & bs & Hi & Hm & ->).
        exists n, bs. split; [|split; [exact Hm|reflexivity]].
        inversion Hi as [Heq|n' bs' b' Hin Hb' Heq].
        -- subst. rewrite E in Hm. discriminate.
        -- subst. apply (inherits_base _ name (b :: bases) b');
             [right; exact Hin|exact Hb'].
Qed.

Lemma _find_method_complete (cls : PyClass) :
  _find_method cls = None ->
  forall name bases,
    inherits_from (class_ name bases) cls ->
    has_definition_method name = false.
Proof.
  induction cls as [|name bases IH] using PyClass_induction;
    intros Hnone n bs Hi.
  - exfalso. exact (not_inherited_by_AST _ _ Hi).
  - rewrite _find_method_class in Hnone.
    destruct (has_definition_method name) eqn:E; [discriminate|].
    inversion Hi as [Heq|n' bs' b Hin Hb Heq].
    + subst. exact E.
    + subst. clear Hi. induction IH as [|c bases Hc _ IHbases];
        [destruct Hin|].
      cbn [fold_right] in Hnone.
      destruct (_find_method c) as [mc|] eqn:Ec; [discriminate|].
      destruct Hin as [<-|Hin].
      * exact (Hc eq_refl n bs Hb).
      * exact (IHbases Hnone Hin).
Qed.

End FindMethod.

(** X25.  [_find_method] gives a method exactly when the class, or a
    class it inherits from below [ast.AST], is one of the six for which
    the protocol part defines [definition_X]; the method it gives is the
    [definition_X] of such a class [X], and for one of the six classes
    themselves it is the class's own method. *)
Theorem find_method_finds_an_inherited_method :
  forall cls : PyClass,
    (forall m,
        _find_method cls = Some m ->
        exists name bases,
          inherits_from (class_ name bases) cls
          /\ has_definition_method name = true
          /\ m = ("definition_" ++ name)%string)
    /\ (_find_method cls = None <->
        forall name bases,
          inherits_from (class_ name bases) cls ->
          has_definition_method name = false)
    /\ (forall name bases,
          cls = class_ name bases ->
          has_definition_method name = true ->
          _find_method cls = Some ("definition_" ++ name)%string).
Proof.
  intros cls. split; [apply _find_method_sound|]. split.
  - split; [apply _find_method_complete|].
    intros H. destruct (_find_method cls) as [m|] eqn:E; [|reflexivity].
    destruct (_find_method_sound cls m E) as (n & bs & Hi & Hm & _).
    rewrite (H n bs Hi) in Hm. discriminate.
  - intros name bases -> H. rewrite _find_method_class, H. reflexivity.
Qed.

Section Imports.

Context {ext : Externals}.

Lemma Permutation_filter_same {A} (f : A -> bool) (l l' : list A) :
  Permutation l l' -> Permutation (filter f l) (filter f l').
Proof.
  induction 1 as [|x l l' _ IH|x y l|l l' l'' _ IH1 _ IH2]; cbn [filter].
  - constructor.
  - destruct (f x); [constructor|]; exact IH.
  - destruct (f x), (f y); try apply Permutation_refl.
    apply perm_swap.
  - exact (Permutation_trans IH1 IH2).
Qed.

Lemma link_to_the_only_libdoc_Permutation node t (l l' : list LibraryDoc.t) :
  Permutation l l' ->
  link_to_the_only_libdoc node t l = link_to_the_only_libdoc node t l'.
Proof.
  intros H. destruct l as [|x [|y l]].
  - apply Permutation_nil in H. subst. reflexivity.
  - apply Permutation_length_1_inv in H. subst. reflexivity.
  - pose proof (Permutation_length H) as Hlen.
    destruct l' as [|a [|b l']]; try discriminate. reflexivity.
Qed.

End Imports.

(** X26.  The values of [namespace.get_libraries()] and of
    [namespace.get_resources()] come out of a dictionary; the link that
    [definition_LibraryImport] and [definition_ResourceImport] give does
    not depend on their order. *)
Theorem import_definition_ignores_the_order_of_the_entries :
  forall (ext : Externals) (entries entries' : list LibraryEntry.t)
         (alias : option string) (node : Node) (tokens : list Token.t)
         (position : Position),
    Permutation entries entries' ->
    definition_LibraryImport entries alias node tokens position
    = definition_LibraryImport entries' alias node tokens position
    /\ definition_ResourceImport entries node tokens position
       = definition_ResourceImport entries' node tokens position.
Proof.
  intros ext entries entries' alias node tokens position H.
  unfold definition_LibraryImport, definition_ResourceImport. cbv zeta.
  destruct (truthy (get_value Token.NAME tokens)); [|split; reflexivity].
  destruct (get_token Token.NAME tokens) as [t|]; [|split; reflexivity].
  destruct (Position_is_in_range position (range_from_token t) true);
    [|split; reflexivity].
  destruct get_namespace; [|split; reflexivity].
  split; apply link_to_the_only_libdoc_Permutation, Permutation_map,
           Permutation_filter_same, H.
Qed.

Lemma import_definition_ignores_the_order_of_the_entries_witness :
  Permutation [MoreExamples.Far; MoreExamples.Collections]
              [MoreExamples.Collections; MoreExamples.Far]
  /\ @definition_LibraryImport Examples.quiet_environment
       [MoreExamples.Far; MoreExamples.Collections] None
       MoreExamples.Collections_import
       [Token.mk Token.NAME "Collections" 2 11] (mkPosition 1 14)
     = Some [mkLocationLink
               (Some (mkRange (mkPosition 1 11) (mkPosition 1 22)))
               "file:///robot/libraries/Collections.py"
               (mkRange (mkPosition 0 0) (mkPosition 0 0))
               (mkRange (mkPosition 0 0) (mkPosition 0 0))]
  /\ @definition_LibraryImport Examples.quiet_environment
       [MoreExamples.Far; MoreExamples.Collections] None
       MoreExamples.Collections_import
       [Token.mk Token.NAME "Collections" 2 11] (mkPosition 1 14)
     = @definition_LibraryImport Examples.quiet_environment
         [MoreExamples.Collections; MoreExamples.Far] None
         MoreExamples.Collections_import
         [Token.mk Token.NAME "Collections" 2 11] (mkPosition 1 14).
Proof.
  split; [apply perm_swap|]. split; [reflexivity|].
  exact (proj1 (import_definition_ignores_the_order_of_the_entries
                  Examples.quiet_environment
                  [MoreExamples.Far; MoreExamples.Collections]
                  [MoreExamples.Collections; MoreExamples.Far] None
                  MoreExamples.Collections_import
                  [Token.mk Token.NAME "Collections" 2 11] (mkPosition 1 14)
                  (perm_swap _ _ _))).
Defined.

(** X27.  On the NAME token, the definition of a template is the
    definition of a fixture with the same tokens: the same link, or none
    for both; away from the NAME token, and for a statement without one,
    a template has no definition, as its arguments are not looked at. *)
Theorem template_definition_is_the_fixture_definition_on_the_name :
  forall (ext : Externals) (node : Node) (tokens : list Token.t)
         (position : Position),
    match get_token Token.NAME tokens with
    | Some keyword_token =>
        if Position_is_in_range position (range_from_token keyword_token)
                                true
        then definition_Template node tokens position
             = definition_Fixture node tokens position
             /\ definition_TestTemplate node tokens position
                = definition_Fixture node tokens position
        else definition_Template node tokens position = None
             /\ definition_TestTemplate node tokens position = None
    | None =>
        definition_Template node tokens position = None
        /\ definition_TestTemplate node tokens position = None
    end.
Proof.
  intros ext node tokens position.
  unfold definition_Template, definition_TestTemplate,
         _definition_Template_or_TestTemplate, definition_Fixture,
         _definition_KeywordCall_or_Fixture.
  destruct (get_token Token.NAME tokens) as [kt|].
  - destruct (Position_is_in_range position (range_from_token kt) true).
    + destruct (truthy (get_value Token.NAME tokens)); [|split; reflexivity].
      destruct get_namespace as [find|]; [|split; reflexivity].
      destruct (find (get_value Token.NAME tokens)) as [doc|];
        [|split; reflexivity].
      destruct (KeywordDoc.source doc); split; reflexivity.
    + destruct (truthy (get_value Token.NAME tokens)); split; reflexivity.
  - destruct (truthy (get_value Token.NAME tokens)); split; reflexivity.
Qed.

Section DefinitionLinks.

Context {ext : Externals}.

Variable find : option string -> option KeywordDoc.t.

Lemma link_from_incl node position l l' links :
  incl l l' -> link_from find node position l links ->
  link_from find node position l' links.
Proof.
  intros Hincl (t & doc & src & name & -> & Hin & Hp & Hf & Hs).
  exists t, doc, src, name. repeat split; try assumption.
  apply Hincl. exact Hin.
Qed.

Lemma run_keywords_definition_link node position A links :
  run_keywords_definition find node position A = Some links ->
  link_from find node position A links.
Proof.
  induction A as [|t rest IH]; cbn [run_keywords_definition];
    [discriminate|].
  destruct (Position_is_in_range position (range_from_token t) true
            && is_non_variable_token t) eqn:E.
  - apply andb_true_iff in E as [Hp _].
    destruct (find (Some (Token.value t))) as [doc|] eqn:Hf;
      [|discriminate].
    destruct (KeywordDoc.source doc) as [src|] eqn:Hs; [|discriminate].
    intros [= <-]. exists t, doc, src, (Some (Token.value t)).
    repeat split; try assumption. left. reflexivity.
  - intros H. apply (link_from_incl node position rest); [|exact (IH H)].
    intros x Hx. right. exact Hx.
Qed.

Lemma arguments_definition_link node position :
  forall n A doc links,
    List.length A <= n ->
    arguments_definition find doc node position A = Some links ->
    link_from find node position A links.
Proof.
  induction n as [|n IH]; intros A doc links Hlen.
  - destruct A; [|cbn in Hlen; lia]. cbn [arguments_definition].
    destruct (negb _); discriminate.
  - destruct A as [|a0 rest1]; cbn [arguments_definition].
    { destruct (negb _); discriminate. }
    cbn [List.length] in Hlen.
    destruct (negb (KeywordDoc.libname doc =? "BuiltIn")); [discriminate|].
    destruct (name_in (KeywordDoc.name doc) RUN_KEYWORD_NAMES
              && is_non_variable_token a0).
    { destruct (find (Some (Token.value a0))) as [doc'|] eqn:Hf;
        [|discriminate].
      destruct (KeywordDoc.source doc') as [src|] eqn:Hs; [|discriminate].
      destruct (Position_is_in_range position (range_from_token a0) true)
        eqn:Hp.
      - intros [= <-]. exists a0, doc', src, (Some (Token.value a0)).
        repeat split; try assumption. left. reflexivity.
      - intros H. apply (link_from_incl node position rest1).
        + intros x Hx. right. exact Hx.
        + apply (IH rest1 doc' links); [lia|exact H]. }
    destruct rest1 as [|a1 rest2].
    { destruct (KeywordDoc.name doc =? RUN_KEYWORDS_NAME); [|discriminate].
      apply run_keywords_definition_link. }
    cbn [List.length] in Hlen.
    destruct (name_in (KeywordDoc.name doc) RUN_KEYWORD_WITH_CONDITION_NAMES
              && is_non_variable_token a1).
    { destruct (find (Some (Token.value a1))) as [doc'|] eqn:Hf;
        [|discriminate].
      destruct (KeywordDoc.source doc') as [src|] eqn:Hs; [|discriminate].
      destruct (Position_is_in_range position (range_from_token a1) true)
        eqn:Hp.
      - intros [= <-]. exists a1, doc', src, (Some (Token.value a1)).
        repeat split; try assumption. right. left. reflexivity.
      - intros H. apply (link_from_incl node position rest2).
        + intros x Hx. right. right. exact Hx.
        + apply (IH rest2 doc' links); [lia|exact H]. }
    destruct ((KeywordDoc.name doc =? RUN_KEYWORD_IF_NAME)
              && is_non_variable_token a1).
    { destruct (find (Some (Token.value a1))) as [doc'|] eqn:Hf;
        [|discriminate].
      destruct (KeywordDoc.source doc') as [src|] eqn:Hs; [|discriminate].
      destruct (Position_is_in_range position (range_from_token a1) true)
        eqn:Hp.
      - intros [= <-]. exists a1, doc', src, (Some (Token.value a1)).
        repeat split; try assumption. right. left. reflexivity.
      - intros H. apply (link_from_incl node position rest2).
        + intros x Hx. right. right. exact Hx.
        + apply (IH rest2 doc' links); [lia|exact H]. }
    destruct (KeywordDoc.name doc =? RUN_KEYWORDS_NAME); [|discriminate].
    apply run_keywords_definition_link.
Qed.

End DefinitionLinks.

(** X28.  What [definition_KeywordCall] and [definition_Fixture] answer
    is never an empty list and never more than one link; the link starts
    at the range of a token of the statement that the position is in, and
    leads to the source of a keyword that the namespace has found and that
    has a source.  So a position that is in no token of the statement has
    no definition. *)
Theorem definition_links_start_under_the_position :
  forall (ext : Externals) (keyword : option string)
         (token_type : Token.kind) (node : Node) (tokens : list Token.t)
         (position : Position) (links : list LocationLink),
    _definition_KeywordCall_or_Fixture keyword token_type node tokens
                                       position = Some links ->
    exists find t doc src name,
      get_namespace = Some find
      /\ links = [mkLocationLink (Some (range_from_token t))
                                 (Uri_from_path src) (KeywordDoc_range doc)
                                 (KeywordDoc_range doc)]
      /\ In t tokens
      /\ Position_is_in_range position (range_from_token t) true = true
      /\ find name = Some doc
      /\ KeywordDoc.source doc = Some src.
Proof.
  intros ext keyword token_type node tokens position links.
  unfold _definition_KeywordCall_or_Fixture.
  destruct (truthy keyword); [|discriminate].
  destruct (get_token token_type tokens) as [kt|] eqn:Hkt; [|discriminate].
  destruct get_namespace as [find|]; [|discriminate].
  destruct (find keyword) as [doc|] eqn:Hf; [|discriminate].
  destruct (KeywordDoc.source doc) as [src|] eqn:Hs; [|discriminate].
  destruct (Position_is_in_range position (range_from_token kt) true) eqn:Hp.
  - intros [= <-]. exists find, kt, doc, src, keyword.
    repeat split; try assumption; try reflexivity.
    exact (get_token_In _ _ _ Hkt).
  - intros H.
    destruct (arguments_definition_link find node position
                (List.length (get_tokens Token.ARGUMENT tokens))
                (get_tokens Token.ARGUMENT tokens) doc links (le_n _) H)
      as (t & doc' & src' & name & -> & Hin & Hp' & Hf' & Hs').
    exists find, t, doc', src', name.
    repeat split; try assumption; try reflexivity.
    unfold get_tokens in Hin. apply filter_In in Hin. exact (proj1 Hin).
Qed.

Lemma definition_links_start_under_the_position_witness :
  @_definition_KeywordCall_or_Fixture (Examples.environment None)
    (Some "Run Keyword") Token.NAME MoreExamples.setup
    MoreExamples.setup_tokens (mkPosition 1 32)
  = Some [mkLocationLink
            (Some (mkRange (mkPosition 1 30) (mkPosition 1 35)))
            "file:///suite/keywords.resource"
            (mkRange (mkPosition 6 0) (mkPosition 6 0))
            (mkRange (mkPosition 6 0) (mkPosition 6 0))]
  /\ exists find t doc src name,
       @get_namespace (Examples.environment None) = Some find
       /\ [mkLocationLink
             (Some (mkRange (mkPosition 1 30) (mkPosition 1 35)))
             "file:///suite/keywords.resource"
             (mkRange (mkPosition 6 0) (mkPosition 6 0))
             (mkRange (mkPosition 6 0) (mkPosition 6 0))]
          = [mkLocationLink (Some (range_from_token t))
               (@Uri_from_path (Examples.environment None) src)
               (@KeywordDoc_range (Examples.environment None) doc)
               (@KeywordDoc_range (Examples.environment None) doc)]
       /\ In t MoreExamples.setup_tokens
       /\ Position_is_in_range (mkPosition 1 32) (range_from_token t) true
          = true
       /\ find name = Some doc
       /\ KeywordDoc.source doc = Some src.
Proof.
  split; [reflexivity|].
  apply (definition_links_start_under_the_position
           (Examples.environment None) (Some "Run Keyword") Token.NAME
           MoreExamples.setup MoreExamples.setup_tokens (mkPosition 1 32)).
  reflexivity.
Defined.
